(** * smartcrm: the invariant-maintaining storage layer

    A shallow embedding of the storage classes of the billing back-office
    ([server/db-storage.ts], [server/quotation-storage.ts],
    [server/storage.ts]) and of the quota check of the invoice routes,
    followed by the properties of the specification that concern them.

    Conventions of the embedding.
    - A JavaScript number is an exact rational ([Q]); the rounding error of
      IEEE-754 doubles is outside the model.  Stored numbers are compared
      with [==] ([Qeq]).  Where a value has been rounded to cents the double
      the code holds can fall on the other side of a tie than the exact
      value does, so what is said of a rounded value is that it is a whole
      number of cents within half a cent of the exact one.
    - A value of a [numeric] column travels either as a JavaScript number or
      as a non-empty decimal string; both are kept apart because [||] and
      [?:] look at truthiness.
    - A relational table is the list of its rows, in the order the store
      returns them; a JavaScript [Map] is the list of its entries in
      insertion order.
    - The tables declared in [shared/schema.ts] enforce their declaration
      where the code writes them: a [numeric(p,2)] column keeps two
      decimals, rounding what it is given (a tie away from zero), and hands
      back a decimal string; a foreign key refuses the insert of a row that
      names a missing one and the delete of a row that is named.  What the
      server refuses is a thrown error, written as its SQLSTATE code.  A
      value too large for its column, refused as well, is outside the model:
      a statement that rests on a write assumes that what is written fits
      ([within_columns]).
    - The quotation and company term tables are not declared in
      [shared/schema.ts] as kept here: they hold what the storage method
      wrote.
    - [await] is sequencing: one storage call runs to completion before the
      next one starts.  A thrown [Error] is the [Throw] outcome, and the
      store keeps whatever was written before the throw.
    - [new Date()] is the argument [now], in milliseconds. *)

From Stdlib Require Import ZArith QArith Qround List String Bool Lia Lqa.
From Stdlib Require Import DecimalString.
Import ListNotations.

Local Open Scope string_scope.
Local Open Scope Z_scope.

(** ** JavaScript values of numeric columns *)

Module JS.

(** [Num q] is the number [q]; [Str q] is the non-empty decimal string
    that spells [q] (what a [numeric] column yields, and what [toString]
    and [toFixed] return). *)
Inductive numeric : Type :=
| Num (q : Q)
| Str (q : Q).

(** [parseFloat(v.toString())] *)
Definition parseFloat (v : numeric) : Q :=
  match v with
  | Num q => q
  | Str q => q
  end.

(** Truthiness: the number 0 is falsy, every non-empty string is truthy
    (the string "0" included). *)
Definition truthy (v : numeric) : bool :=
  match v with
  | Num q => negb (Qeq_bool q 0)
  | Str _ => true
  end.

(** Truthiness of a nullable value: [null] and [undefined] are falsy. *)
Definition truthy_opt (v : option numeric) : bool :=
  match v with
  | Some x => truthy x
  | None => false
  end.

(** [a || b] *)
Definition or_else (a : option numeric) (b : numeric) : numeric :=
  match a with
  | Some x => if truthy x then x else b
  | None => b
  end.

(** [a || b] where [b] may itself be [null] *)
Definition or_else_opt (a b : option numeric) : option numeric :=
  match a with
  | Some x => if truthy x then Some x else b
  | None => b
  end.

(** [x.toString()] on a number *)
Definition toString (x : Q) : numeric := Str x.

(** The integer nearest to [x], a tie going away from zero: the digits
    [Number.prototype.toFixed] keeps (it rounds the absolute value and
    picks the larger candidate on a tie). *)
Definition round_half_away (x : Q) : Z :=
  if Qle_bool 0 x then Qfloor (x + (1 # 2)) else - Qfloor (- x + (1 # 2)).

(** [x.toFixed(2)], on the exact value of [x] *)
Definition toFixed2 (x : Q) : numeric :=
  Str (inject_Z (round_half_away (x * 100)) / 100).

(** [flag || false] on a nullable boolean *)
Definition bool_or_false (b : option bool) : bool :=
  match b with
  | Some true => true
  | _ => false
  end.

End JS.

(** ** Outcomes and the store monad *)

Inductive result (A : Type) : Type :=
| Ok (a : A)
| Throw (msg : string).
Arguments Ok {A} a.
Arguments Throw {A} msg.

(** A storage method over a store of type [S]: it returns or throws, and
    hands back the store as it left it. *)
Definition M (S A : Type) : Type := S -> result A * S.

Definition ret {S A} (a : A) : M S A := fun s => (Ok a, s).

Definition throw {S A} (msg : string) : M S A := fun s => (Throw msg, s).

Definition bind {S A B} (m : M S A) (k : A -> M S B) : M S B :=
  fun s =>
    match m s with
    | (Ok a, s') => k a s'
    | (Throw msg, s') => (Throw msg, s')
    end.

Definition gets {S A} (f : S -> A) : M S A := fun s => (Ok (f s), s).

Definition modify {S} (f : S -> S) : M S unit := fun s => (Ok tt, f s).

Definition when {S} (c : bool) (m : M S unit) : M S unit :=
  if c then m else ret tt.

Declare Scope store_scope.
Delimit Scope store_scope with store.
Notation "x <- c ;; k" := (bind c (fun x => k))
  (at level 61, c at next level, right associativity) : store_scope.
Notation "c ;;; k" := (bind c (fun _ => k))
  (at level 61, right associativity) : store_scope.
Local Open Scope store_scope.

(** ** What the database server does to a value *)

Module Pg.

(** An error of the server, by its SQLSTATE code. *)
Definition invalid_text_representation : string := "22P02".
Definition numeric_value_out_of_range : string := "22003".
Definition not_null_violation : string := "23502".
Definition foreign_key_violation : string := "23503".

(** A [numeric(p, 2)] column: the value is rounded to two decimals, a tie
    away from zero, and read back as a decimal string. *)
Definition numeric2 (v : JS.numeric) : JS.numeric :=
  JS.Str (inject_Z (JS.round_half_away (JS.parseFloat v * 100)) / 100).

Definition numeric2_opt (v : option JS.numeric) : option JS.numeric :=
  option_map numeric2 v.

(** A [numeric(p, 2)] column holds the values below 10^(p-2) in
    magnitude. *)
Definition fits (p : Z) (v : JS.numeric) : bool :=
  negb (Qle_bool (inject_Z (10 ^ (p - 2))) (JS.parseFloat v))
  && negb (Qle_bool (JS.parseFloat v) (- inject_Z (10 ^ (p - 2)))).

Definition fits_opt (p : Z) (v : option JS.numeric) : bool :=
  match v with
  | Some x => fits p x
  | None => true
  end.

(** An [integer] column or parameter: 32 bits. *)
Definition int4 (n : Z) : bool :=
  (-2147483648 <=? n) && (n <=? 2147483647).

End Pg.

(** ** Rows ([shared/schema.ts]) *)

Module User.
Record t : Type := mk {
  id : Z;
  email : string;
  planId : string;
  invoiceQuota : option Z;
  invoicesUsed : option Z;
  subscriptionExpiresAt : option Z   (* milliseconds since the epoch *)
}.
End User.

Module CompanyProfile.
Record t : Type := mk {
  id : Z;
  userId : Z;
  name : string;
  isDefault : option bool
}.

Definition set_isDefault (b : option bool) (p : t) : t :=
  mk (id p) (userId p) (name p) b.

(** [InsertCompanyProfile]: the row without its [id]. *)
Record insert : Type := mkInsert {
  i_userId : Z;
  i_name : string;
  i_isDefault : option bool
}.

(** [Partial<InsertCompanyProfile>]: an absent key is [None]; for the
    nullable flag, [Some None] is an explicit [null]. *)
Record patch : Type := mkPatch {
  p_userId : option Z;
  p_name : option string;
  p_isDefault : option (option bool)
}.

(** [.set(patch)] on one row *)
Definition apply (pt : patch) (p : t) : t :=
  mk (id p)
     (match p_userId pt with Some u => u | None => userId p end)
     (match p_name pt with Some n => n | None => name p end)
     (match p_isDefault pt with Some b => b | None => isDefault p end).

(** [eq(companyProfiles.isDefault, true)] *)
Definition is_default (p : t) : bool :=
  match isDefault p with
  | Some true => true
  | _ => false
  end.
End CompanyProfile.

Module Client.
Record t : Type := mk {
  id : Z;
  userId : Z;
  name : string
}.
End Client.

Module Invoice.
Record t : Type := mk {
  id : Z;
  userId : Z;
  companyProfileId : Z;
  clientId : Z;
  country : string;
  subtotal : JS.numeric;
  discount : option JS.numeric;
  tax : option JS.numeric;
  taxRate : option JS.numeric;
  total : JS.numeric;
  updatedAt : Z
}.

(** [Partial<InsertInvoice>] as it arrives: the route hands over the
    request body, so [subtotal] and [total], which the insert schema omits,
    can be among the keys.  An absent key is [None], an explicit [null] is
    [Some None]. *)
Record patch : Type := mkPatch {
  p_companyProfileId : option Z;
  p_clientId : option Z;
  p_country : option string;
  p_subtotal : option (option JS.numeric);
  p_discount : option (option JS.numeric);
  p_tax : option (option JS.numeric);
  p_taxRate : option (option JS.numeric);
  p_total : option (option JS.numeric)
}.

(** [{ ...invoice, updatedAt: new Date() }] written over one row: the
    numeric columns take what they are given to two decimals; [subtotal]
    and [total] are [NOT NULL] (a [null] for them is refused before
    anything is written). *)
Definition apply (pt : patch) (now : Z) (i : t) : t :=
  mk (id i) (userId i)
     (match p_companyProfileId pt with Some x => x | None => companyProfileId i end)
     (match p_clientId pt with Some x => x | None => clientId i end)
     (match p_country pt with Some x => x | None => country i end)
     (match p_subtotal pt with Some (Some x) => Pg.numeric2 x | _ => subtotal i end)
     (match p_discount pt with Some x => Pg.numeric2_opt x | None => discount i end)
     (match p_tax pt with Some x => Pg.numeric2_opt x | None => tax i end)
     (match p_taxRate pt with Some x => Pg.numeric2_opt x | None => taxRate i end)
     (match p_total pt with Some (Some x) => Pg.numeric2 x | _ => total i end)
     now.

(** The write of a recomputation that leaves [taxRate] alone *)
Definition set_totals (sub tx tot : JS.numeric) (now : Z) (i : t) : t :=
  mk (id i) (userId i) (companyProfileId i) (clientId i) (country i)
     sub (discount i) (Some tx) (taxRate i) tot now.

(** The write of a recomputation that also stores the rate it used *)
Definition set_totals_rate (sub tx rate tot : JS.numeric) (now : Z) (i : t) : t :=
  mk (id i) (userId i) (companyProfileId i) (clientId i) (country i)
     sub (discount i) (Some tx) (Some rate) tot now.
End Invoice.

Module InvoiceItem.
Record t : Type := mk {
  id : Z;
  invoiceId : Z;
  description : string;
  quantity : JS.numeric;
  unitPrice : JS.numeric;
  discount : option JS.numeric;
  amount : JS.numeric
}.

Record insert : Type := mkInsert {
  i_invoiceId : Z;
  i_description : string;
  i_quantity : JS.numeric;
  i_unitPrice : JS.numeric;
  i_discount : option JS.numeric
}.

Record patch : Type := mkPatch {
  p_invoiceId : option Z;
  p_description : option string;
  p_quantity : option JS.numeric;
  p_unitPrice : option JS.numeric;
  p_discount : option (option JS.numeric)
}.

(** [{ ...item, amount }] on the inserted row *)
Definition of_insert (new_id : Z) (it : insert) (amt : JS.numeric) : t :=
  mk new_id (i_invoiceId it) (i_description it) (i_quantity it)
     (i_unitPrice it) (i_discount it) amt.

(** [{ ...existingItem, ...item, amount }] *)
Definition apply (pt : patch) (amt : JS.numeric) (r : t) : t :=
  mk (id r)
     (match p_invoiceId pt with Some x => x | None => invoiceId r end)
     (match p_description pt with Some x => x | None => description r end)
     (match p_quantity pt with Some x => x | None => quantity r end)
     (match p_unitPrice pt with Some x => x | None => unitPrice r end)
     (match p_discount pt with Some x => x | None => discount r end)
     amt.

(** A row as the [invoice_items] table takes it on insert: every numeric
    column to two decimals.  ([None] for the discount stands for [null]
    and for the absent key, which the table fills with its default 0:
    both are read as 0.) *)
Definition in_columns (r : t) : t :=
  mk (id r) (invoiceId r) (description r) (Pg.numeric2 (quantity r))
     (Pg.numeric2 (unitPrice r)) (Pg.numeric2_opt (discount r))
     (Pg.numeric2 (amount r)).

(** [.set({ ...item, amount })] on a row of the table: the columns named
    are written, to two decimals. *)
Definition set_columns (pt : patch) (amt : JS.numeric) (r : t) : t :=
  mk (id r)
     (match p_invoiceId pt with Some x => x | None => invoiceId r end)
     (match p_description pt with Some x => x | None => description r end)
     (match p_quantity pt with Some x => Pg.numeric2 x | None => quantity r end)
     (match p_unitPrice pt with Some x => Pg.numeric2 x | None => unitPrice r end)
     (match p_discount pt with Some x => Pg.numeric2_opt x | None => discount r end)
     (Pg.numeric2 amt).

(** [item.quantity !== undefined || item.unitPrice !== undefined ||
    item.discount !== undefined] *)
Definition touches_pricing (pt : patch) : bool :=
  match p_quantity pt, p_unitPrice pt, p_discount pt with
  | None, None, None => false
  | _, _, _ => true
  end.
End InvoiceItem.

Module TaxRate.
Record t : Type := mk {
  id : Z;
  countryCode : string;
  rate : JS.numeric;
  isDefault : option bool
}.

Definition is_default (r : t) : bool :=
  match isDefault r with
  | Some true => true
  | _ => false
  end.
End TaxRate.

(** Modelled from the spec: the [quotations] and [quotation_items] table
    declarations are not part of [shared/schema.ts] as kept here.  The rows
    carry the columns the storage code reads and writes; the spec describes
    them as the same pattern as Invoice and InvoiceItem. *)
Module Quotation.
Record t : Type := mk {
  id : Z;
  userId : Z;
  subtotal : JS.numeric;
  discount : option JS.numeric;
  tax : option JS.numeric;
  taxRate : option JS.numeric;
  total : JS.numeric;
  pdfUrl : option string;
  updatedAt : Z
}.

(** [Partial<InsertQuotation>]; an object passed at run time can carry
    [subtotal] and [total] as well. *)
Record patch : Type := mkPatch {
  p_subtotal : option JS.numeric;
  p_discount : option (option JS.numeric);
  p_tax : option (option JS.numeric);
  p_taxRate : option (option JS.numeric);
  p_total : option JS.numeric;
  p_pdfUrl : option (option string)
}.

(** [updateData], written over one row *)
Definition apply (pt : patch) (now : Z) (q : t) : t :=
  mk (id q) (userId q)
     (match p_subtotal pt with Some x => x | None => subtotal q end)
     (match p_discount pt with Some x => x | None => discount q end)
     (match p_tax pt with Some x => x | None => tax q end)
     (match p_taxRate pt with Some x => x | None => taxRate q end)
     (match p_total pt with Some x => x | None => total q end)
     (match p_pdfUrl pt with Some x => x | None => pdfUrl q end)
     now.

Definition set_totals (sub tx tot : JS.numeric) (now : Z) (q : t) : t :=
  mk (id q) (userId q) sub (discount q) (Some tx) (taxRate q) tot
     (pdfUrl q) now.
End Quotation.

Module QuotationItem.
Record t : Type := mk {
  id : Z;
  quotationId : Z;
  masterItemId : option Z;
  quantity : JS.numeric;
  unitPrice : JS.numeric;
  discount : option JS.numeric;
  amount : JS.numeric
}.

Record insert : Type := mkInsert {
  i_quotationId : Z;
  i_masterItemId : option Z;
  i_quantity : JS.numeric;
  i_unitPrice : JS.numeric;
  i_discount : option JS.numeric
}.

Record patch : Type := mkPatch {
  p_quotationId : option Z;
  p_quantity : option JS.numeric;
  p_unitPrice : option JS.numeric;
  p_discount : option (option JS.numeric)
}.

(** [.set(updatedFields)]: the patch, plus [amount] when it was
    recomputed *)
Definition apply (pt : patch) (amt : option JS.numeric) (r : t) : t :=
  mk (id r)
     (match p_quotationId pt with Some x => x | None => quotationId r end)
     (masterItemId r)
     (match p_quantity pt with Some x => x | None => quantity r end)
     (match p_unitPrice pt with Some x => x | None => unitPrice r end)
     (match p_discount pt with Some x => x | None => discount r end)
     (match amt with Some a => a | None => amount r end).

Definition touches_pricing (pt : patch) : bool :=
  match p_quantity pt, p_unitPrice pt, p_discount pt with
  | None, None, None => false
  | _, _, _ => true
  end.
End QuotationItem.

(** ** Tables *)

Module Table.
Section Rows.
Context {A : Type}.

(** [select().from(t).where(c)] *)
Definition select (c : A -> bool) (rows : list A) : list A := filter c rows.

(** [const [row] = await ...]: the first row, or [undefined] *)
Definition first (rows : list A) : option A := hd_error rows.

(** [update(t).set(...).where(c)] *)
Definition update_where (c : A -> bool) (f : A -> A) (rows : list A) : list A :=
  map (fun r => if c r then f r else r) rows.

(** [delete(t).where(c)] *)
Definition delete_where (c : A -> bool) (rows : list A) : list A :=
  filter (fun r => negb (c r)) rows.

(** [array.reduce((sum, x) => sum + f(x), 0)] *)
Definition sum_by (f : A -> Q) (rows : list A) : Q :=
  fold_left (fun sum r => (sum + f r)%Q) rows 0%Q.
End Rows.
End Table.

Module Db.
Record t : Type := mk {
  users : list User.t;
  companyProfiles : list CompanyProfile.t;
  clients : list Client.t;
  invoices : list Invoice.t;
  invoiceItems : list InvoiceItem.t;
  taxRates : list TaxRate.t;
  quotations : list Quotation.t;
  quotationItems : list QuotationItem.t;
  companyProfiles_id_seq : Z;
  invoiceItems_id_seq : Z
}.

Definition on_companyProfiles (f : list CompanyProfile.t -> list CompanyProfile.t)
  (d : t) : t :=
  mk (users d) (f (companyProfiles d)) (clients d) (invoices d)
     (invoiceItems d) (taxRates d) (quotations d) (quotationItems d)
     (companyProfiles_id_seq d) (invoiceItems_id_seq d).

Definition on_clients (f : list Client.t -> list Client.t) (d : t) : t :=
  mk (users d) (companyProfiles d) (f (clients d)) (invoices d)
     (invoiceItems d) (taxRates d) (quotations d) (quotationItems d)
     (companyProfiles_id_seq d) (invoiceItems_id_seq d).

Definition on_invoices (f : list Invoice.t -> list Invoice.t) (d : t) : t :=
  mk (users d) (companyProfiles d) (clients d) (f (invoices d))
     (invoiceItems d) (taxRates d) (quotations d) (quotationItems d)
     (companyProfiles_id_seq d) (invoiceItems_id_seq d).

Definition on_invoiceItems (f : list InvoiceItem.t -> list InvoiceItem.t)
  (d : t) : t :=
  mk (users d) (companyProfiles d) (clients d) (invoices d)
     (f (invoiceItems d)) (taxRates d) (quotations d) (quotationItems d)
     (companyProfiles_id_seq d) (invoiceItems_id_seq d).

Definition on_quotations (f : list Quotation.t -> list Quotation.t) (d : t) : t :=
  mk (users d) (companyProfiles d) (clients d) (invoices d)
     (invoiceItems d) (taxRates d) (f (quotations d)) (quotationItems d)
     (companyProfiles_id_seq d) (invoiceItems_id_seq d).

Definition on_quotationItems (f : list QuotationItem.t -> list QuotationItem.t)
  (d : t) : t :=
  mk (users d) (companyProfiles d) (clients d) (invoices d)
     (invoiceItems d) (taxRates d) (quotations d) (f (quotationItems d))
     (companyProfiles_id_seq d) (invoiceItems_id_seq d).

(** [insert(companyProfiles).values(...).returning()]: the [serial] key
    comes from the table's sequence. *)
Definition insert_companyProfile (userId : Z) (name : string)
  (isDefault : option bool) : M t CompanyProfile.t :=
  fun d =>
    let row := CompanyProfile.mk (companyProfiles_id_seq d) userId name isDefault in
    (Ok row,
     mk (users d) (companyProfiles d ++ [row]) (clients d) (invoices d)
        (invoiceItems d) (taxRates d) (quotations d) (quotationItems d)
        (companyProfiles_id_seq d + 1) (invoiceItems_id_seq d)).

(** [invoice_items.invoice_id], [invoices.client_id] and
    [invoices.company_profile_id] reference the row they name. *)
Definition has_invoice (invoiceId : Z) (d : t) : bool :=
  existsb (fun i => Invoice.id i =? invoiceId) (invoices d).

Definition has_client (clientId : Z) (d : t) : bool :=
  existsb (fun c => Client.id c =? clientId) (clients d).

Definition has_companyProfile (profileId : Z) (d : t) : bool :=
  existsb (fun p => CompanyProfile.id p =? profileId) (companyProfiles d).

(** [insert(invoiceItems).values({ ...item, amount }).returning()]: the
    key is drawn from the sequence, which keeps what it gave also when the
    row is refused; the row returned is the row as stored. *)
Definition insert_invoiceItem (it : InvoiceItem.insert) (amt : JS.numeric)
  : M t InvoiceItem.t :=
  fun d =>
    let row :=
      InvoiceItem.in_columns (InvoiceItem.of_insert (invoiceItems_id_seq d) it amt) in
    if has_invoice (InvoiceItem.i_invoiceId it) d
    then
      (Ok row,
       mk (users d) (companyProfiles d) (clients d) (invoices d)
          (invoiceItems d ++ [row]) (taxRates d) (quotations d) (quotationItems d)
          (companyProfiles_id_seq d) (invoiceItems_id_seq d + 1))
    else
      (Throw Pg.foreign_key_violation,
       mk (users d) (companyProfiles d) (clients d) (invoices d)
          (invoiceItems d) (taxRates d) (quotations d) (quotationItems d)
          (companyProfiles_id_seq d) (invoiceItems_id_seq d + 1)).

(** [update(invoices).set(...).where(eq(invoices.id, id))]: the server
    checks the rows it is about to write; when no row has the id there is
    nothing to check and nothing is written. *)
Definition update_invoice (id : Z) (refusal : t -> option string)
  (f : Invoice.t -> Invoice.t) : M t unit :=
  fun d =>
    if has_invoice id d
    then match refusal d with
         | Some code => (Throw code, d)
         | None =>
           (Ok tt,
            on_invoices (Table.update_where (fun i => Invoice.id i =? id) f) d)
         end
    else (Ok tt, d).

(** What the server refuses of [.set({ ...invoice, updatedAt })]: a
    [null] for a [NOT NULL] column, a client or a company profile that is
    not there. *)
Definition invoice_patch_refusal (pt : Invoice.patch) (d : t) : option string :=
  match Invoice.p_subtotal pt, Invoice.p_total pt with
  | Some None, _ | _, Some None => Some Pg.not_null_violation
  | _, _ =>
    if match Invoice.p_companyProfileId pt with
       | Some x => has_companyProfile x d
       | None => true
       end
       && match Invoice.p_clientId pt with
          | Some x => has_client x d
          | None => true
          end
    then None
    else Some Pg.foreign_key_violation
  end.

(** [update(invoiceItems).set(...).where(eq(invoiceItems.id, id))]:
    refused, by the foreign key of [invoice_items.invoice_id], when the
    values name an invoice that is not there. *)
Definition update_invoiceItem (id : Z) (invoiceId : option Z)
  (f : InvoiceItem.t -> InvoiceItem.t) : M t unit :=
  fun d =>
    if match invoiceId with
       | Some x => has_invoice x d
       | None => true
       end
    then
      (Ok tt,
       on_invoiceItems (Table.update_where (fun it => InvoiceItem.id it =? id) f) d)
    else (Throw Pg.foreign_key_violation, d).

(** [delete(clients).where(eq(clients.id, id))]: refused, by the foreign
    key of [invoices.client_id], when an invoice names a row it would
    delete. *)
Definition delete_client (id : Z) : M t unit :=
  fun d =>
    if has_client id d && existsb (fun i => Invoice.clientId i =? id) (invoices d)
    then (Throw Pg.foreign_key_violation, d)
    else (Ok tt, on_clients (Table.delete_where (fun c => Client.id c =? id)) d).

(** The numeric columns of the invoices and of their items hold values
    that fit them. *)
Definition invoice_within_columns (i : Invoice.t) : bool :=
  Pg.fits 10 (Invoice.subtotal i) && Pg.fits_opt 10 (Invoice.discount i)
  && Pg.fits_opt 10 (Invoice.tax i) && Pg.fits_opt 5 (Invoice.taxRate i)
  && Pg.fits 10 (Invoice.total i).

Definition item_within_columns (r : InvoiceItem.t) : bool :=
  Pg.fits 10 (InvoiceItem.quantity r) && Pg.fits 10 (InvoiceItem.unitPrice r)
  && Pg.fits_opt 5 (InvoiceItem.discount r) && Pg.fits 10 (InvoiceItem.amount r).

Definition within_columns (d : t) : bool :=
  forallb invoice_within_columns (invoices d)
  && forallb item_within_columns (invoiceItems d).
End Db.

(** [`${id}`] *)
Definition show (z : Z) : string :=
  DecimalString.NilZero.string_of_int (Z.to_int z).

(** [a ? parseFloat(a.toString()) : 0] *)
Definition parse_or_zero (a : option JS.numeric) : Q :=
  if JS.truthy_opt a
  then match a with Some x => JS.parseFloat x | None => 0%Q end
  else 0%Q.

(** [parseFloat(a?.toString() || "0")] *)
Definition parse_or_zero_str (a : option JS.numeric) : Q :=
  match a with
  | Some x => JS.parseFloat x
  | None => 0%Q
  end.

(** ** [DatabaseStorage] ([server/db-storage.ts]) *)

Module DatabaseStorage.

Definition getUserById (id : Z) : M Db.t (option User.t) :=
  gets (fun d => Table.first (Table.select (fun u => User.id u =? id) (Db.users d))).

Definition getCompanyProfiles (userId : Z) : M Db.t (list CompanyProfile.t) :=
  gets (fun d =>
    Table.select (fun p => CompanyProfile.userId p =? userId) (Db.companyProfiles d)).

Definition getCompanyProfile (id : Z) : M Db.t (option CompanyProfile.t) :=
  gets (fun d =>
    Table.first (Table.select (fun p => CompanyProfile.id p =? id) (Db.companyProfiles d))).

Definition createCompanyProfile (profile : CompanyProfile.insert)
  : M Db.t CompanyProfile.t :=
  (* If this is the first profile for this user, make it default *)
  existingProfiles <- getCompanyProfiles (CompanyProfile.i_userId profile) ;;
  let isDefault :=
    if (List.length existingProfiles =? 0)%nat then true
    else JS.bool_or_false (CompanyProfile.i_isDefault profile) in
  (* If we're setting this profile as default, unset any existing default *)
  when isDefault
    (modify (Db.on_companyProfiles
      (Table.update_where
        (fun p => (CompanyProfile.userId p =? CompanyProfile.i_userId profile)
                  && CompanyProfile.is_default p)
        (CompanyProfile.set_isDefault (Some false))))) ;;;
  Db.insert_companyProfile (CompanyProfile.i_userId profile)
    (CompanyProfile.i_name profile) (Some isDefault).

Definition updateCompanyProfile (id : Z) (profile : CompanyProfile.patch)
  : M Db.t (option CompanyProfile.t) :=
  existingProfile <- getCompanyProfile id ;;
  match existingProfile with
  | None => throw ("Company profile with ID " ++ show id ++ " not found")
  | Some existingProfile =>
    (* If we're setting this profile as default, unset any existing default *)
    when (match CompanyProfile.p_isDefault profile with
          | Some (Some true) => true
          | _ => false
          end)
      (modify (Db.on_companyProfiles
        (Table.update_where
          (fun p => (CompanyProfile.userId p =? CompanyProfile.userId existingProfile)
                    && CompanyProfile.is_default p
                    && negb (CompanyProfile.id p =? id))
          (CompanyProfile.set_isDefault (Some false))))) ;;;
    modify (Db.on_companyProfiles
      (Table.update_where (fun p => CompanyProfile.id p =? id)
        (CompanyProfile.apply profile))) ;;;
    getCompanyProfile id
  end.

Definition deleteCompanyProfile (id : Z) : M Db.t unit :=
  profile <- getCompanyProfile id ;;
  match profile with
  | None => throw ("Company profile with ID " ++ show id ++ " not found")
  | Some profile =>
    (* Check if this profile is used in any invoices *)
    invoiceUsingProfile <- gets (fun d =>
      Table.first (firstn 1
        (Table.select (fun i => Invoice.companyProfileId i =? id) (Db.invoices d)))) ;;
    match invoiceUsingProfile with
    | Some _ => throw "Cannot delete company profile that is used in invoices"
    | None =>
      (* If we're deleting the default profile, make another one default *)
      when (CompanyProfile.is_default profile)
        (otherProfiles <- gets (fun d =>
           firstn 1
             (Table.select
               (fun p => (CompanyProfile.userId p =? CompanyProfile.userId profile)
                         && negb (CompanyProfile.id p =? id))
               (Db.companyProfiles d))) ;;
         match otherProfiles with
         | other :: _ =>
           modify (Db.on_companyProfiles
             (Table.update_where
               (fun p => CompanyProfile.id p =? CompanyProfile.id other)
               (CompanyProfile.set_isDefault (Some true))))
         | [] => ret tt
         end) ;;;
      modify (Db.on_companyProfiles
        (Table.delete_where (fun p => CompanyProfile.id p =? id)))
    end
  end.

Definition getClient (id : Z) : M Db.t (option Client.t) :=
  gets (fun d => Table.first (Table.select (fun c => Client.id c =? id) (Db.clients d))).

Definition deleteClient (id : Z) : M Db.t unit :=
  client <- getClient id ;;
  match client with
  | None => throw ("Client with ID " ++ show id ++ " not found")
  | Some _ =>
    (* Check if this client is used in any invoices *)
    invoiceUsingClient <- gets (fun d =>
      Table.first (firstn 1
        (Table.select (fun i => Invoice.clientId i =? id) (Db.invoices d)))) ;;
    match invoiceUsingClient with
    | Some _ => throw "Cannot delete client that is used in invoices"
    | None => modify (Db.on_clients (Table.delete_where (fun c => Client.id c =? id)))
    end
  end.

Definition getInvoice (id : Z) : M Db.t (option Invoice.t) :=
  gets (fun d => Table.first (Table.select (fun i => Invoice.id i =? id) (Db.invoices d))).

Definition updateInvoice (now : Z) (id : Z) (invoice : Invoice.patch)
  : M Db.t (option Invoice.t) :=
  Db.update_invoice id (Db.invoice_patch_refusal invoice)
    (Invoice.apply invoice now) ;;;
  getInvoice id.

Definition getInvoiceItems (invoiceId : Z) : M Db.t (list InvoiceItem.t) :=
  gets (fun d =>
    Table.select (fun it => InvoiceItem.invoiceId it =? invoiceId) (Db.invoiceItems d)).

(** Helper method to get a single invoice item *)
Definition getInvoiceItem (id : Z) : M Db.t (option InvoiceItem.t) :=
  gets (fun d =>
    Table.first (Table.select (fun it => InvoiceItem.id it =? id) (Db.invoiceItems d))).

Definition getDefaultTaxRate (countryCode : string) : M Db.t (option TaxRate.t) :=
  gets (fun d =>
    Table.first (Table.select
      (fun r => String.eqb (TaxRate.countryCode r) countryCode && TaxRate.is_default r)
      (Db.taxRates d))).

Definition recalculateInvoiceTotals (now : Z) (invoiceId : Z) : M Db.t unit :=
  invoice <- getInvoice invoiceId ;;
  match invoice with
  | None => ret tt
  | Some invoice =>
    items <- getInvoiceItems invoiceId ;;
    (* Calculate subtotal *)
    let subtotal := Table.sum_by (fun item => JS.parseFloat (InvoiceItem.amount item)) items in
    (* Calculate tax *)
    let discountAmount := parse_or_zero (Invoice.discount invoice) in
    let taxableAmount := (subtotal - discountAmount)%Q in
    let taxRate := parse_or_zero (Invoice.taxRate invoice) in
    let taxAmount := ((taxableAmount * taxRate) / 100)%Q in
    (* Calculate total *)
    let total := (taxableAmount + taxAmount)%Q in
    (* Update the invoice *)
    modify (Db.on_invoices
      (Table.update_where (fun i => Invoice.id i =? invoiceId)
        (Invoice.set_totals (Pg.numeric2 (JS.toString subtotal))
           (Pg.numeric2 (JS.toString taxAmount))
           (Pg.numeric2 (JS.toString total)) now)))
  end.

Definition createInvoiceItem (now : Z) (item : InvoiceItem.insert)
  : M Db.t InvoiceItem.t :=
  (* Calculate the amount *)
  let quantity := JS.parseFloat (InvoiceItem.i_quantity item) in
  let unitPrice := JS.parseFloat (InvoiceItem.i_unitPrice item) in
  let discount := parse_or_zero (InvoiceItem.i_discount item) in
  let discountAmount := ((unitPrice * quantity * discount) / 100)%Q in
  let amount := ((unitPrice * quantity) - discountAmount)%Q in
  newItem <- Db.insert_invoiceItem item (JS.toString amount) ;;
  (* Recalculate invoice totals *)
  recalculateInvoiceTotals now (InvoiceItem.i_invoiceId item) ;;;
  ret newItem.

Definition updateInvoiceItem (now : Z) (id : Z) (item : InvoiceItem.patch)
  : M Db.t (option InvoiceItem.t) :=
  existingItem <- getInvoiceItem id ;;
  match existingItem with
  | None => throw ("Invoice item with ID " ++ show id ++ " not found")
  | Some existingItem =>
    (* Recalculate the amount if needed *)
    let amount :=
      if InvoiceItem.touches_pricing item then
        let quantity :=
          match InvoiceItem.p_quantity item with
          | Some q => JS.parseFloat q
          | None => JS.parseFloat (InvoiceItem.quantity existingItem)
          end in
        let unitPrice :=
          match InvoiceItem.p_unitPrice item with
          | Some u => JS.parseFloat u
          | None => JS.parseFloat (InvoiceItem.unitPrice existingItem)
          end in
        let discount :=
          match InvoiceItem.p_discount item with
          | Some (Some d) => JS.parseFloat d
          | _ => match InvoiceItem.discount existingItem with
                 | Some d => JS.parseFloat d
                 | None => 0%Q
                 end
          end in
        let discountAmount := ((unitPrice * quantity * discount) / 100)%Q in
        JS.toString ((unitPrice * quantity) - discountAmount)%Q
      else InvoiceItem.amount existingItem in
    Db.update_invoiceItem id (InvoiceItem.p_invoiceId item)
      (InvoiceItem.set_columns item amount) ;;;
    updatedItem <- getInvoiceItem id ;;
    (* Recalculate invoice totals *)
    recalculateInvoiceTotals now (InvoiceItem.invoiceId existingItem) ;;;
    ret updatedItem
  end.

Definition deleteInvoiceItem (now : Z) (id : Z) : M Db.t unit :=
  item <- getInvoiceItem id ;;
  match item with
  | None => throw ("Invoice item with ID " ++ show id ++ " not found")
  | Some item =>
    modify (Db.on_invoiceItems
      (Table.delete_where (fun it => InvoiceItem.id it =? id))) ;;;
    (* Recalculate invoice totals *)
    recalculateInvoiceTotals now (InvoiceItem.invoiceId item)
  end.

Definition getDefaultCompanyProfile (userId : Z) : M Db.t (option CompanyProfile.t) :=
  gets (fun d =>
    Table.first (Table.select
      (fun p => (CompanyProfile.userId p =? userId) && CompanyProfile.is_default p)
      (Db.companyProfiles d))).

Definition deleteInvoice (id : Z) : M Db.t unit :=
  invoice <- getInvoice id ;;
  match invoice with
  | None => throw ("Invoice with ID " ++ show id ++ " not found")
  | Some _ =>
    (* Delete associated invoice items *)
    modify (Db.on_invoiceItems
      (Table.delete_where (fun it => InvoiceItem.invoiceId it =? id))) ;;;
    modify (Db.on_invoices (Table.delete_where (fun i => Invoice.id i =? id)))
  end.

End DatabaseStorage.

(** ** The second [DatabaseStorage] class (lower half of
    [server/quotation-storage.ts]) *)

Module DatabaseStorage2.

Definition getCompanyProfile (id : Z) : M Db.t (option CompanyProfile.t) :=
  gets (fun d =>
    Table.first (Table.select (fun p => CompanyProfile.id p =? id) (Db.companyProfiles d))).

Definition deleteCompanyProfile (id : Z) : M Db.t unit :=
  profile <- getCompanyProfile id ;;
  match profile with
  | None => throw "Company profile not found"
  | Some profile =>
    (* Check if profile is being used in any invoices *)
    invoiceUsingProfile <- gets (fun d =>
      Table.first (firstn 1
        (Table.select (fun i => Invoice.companyProfileId i =? id) (Db.invoices d)))) ;;
    match invoiceUsingProfile with
    | Some _ => throw "Cannot delete company profile that is being used in invoices"
    | None =>
      (* If this was the default profile, set another profile as default *)
      when (CompanyProfile.is_default profile)
        (otherProfiles <- gets (fun d =>
           firstn 1
             (Table.select
               (fun p => (CompanyProfile.userId p =? CompanyProfile.userId profile)
                         && negb (CompanyProfile.id p =? id))
               (Db.companyProfiles d))) ;;
         match otherProfiles with
         | other :: _ =>
           modify (Db.on_companyProfiles
             (Table.update_where
               (fun p => CompanyProfile.id p =? CompanyProfile.id other)
               (CompanyProfile.set_isDefault (Some true))))
         | [] => ret tt
         end) ;;;
      modify (Db.on_companyProfiles
        (Table.delete_where (fun p => CompanyProfile.id p =? id)))
    end
  end.

(** The method has no check of its own: it is the [delete] alone. *)
Definition deleteClient (id : Z) : M Db.t unit :=
  Db.delete_client id.

Definition createInvoiceItem (item : InvoiceItem.insert) : M Db.t InvoiceItem.t :=
  let quantity := JS.parseFloat (InvoiceItem.i_quantity item) in
  let unitPrice := JS.parseFloat (InvoiceItem.i_unitPrice item) in
  let discount := parse_or_zero_str (InvoiceItem.i_discount item) in
  let amount := JS.toFixed2 (quantity * unitPrice * (1 - discount / 100))%Q in
  Db.insert_invoiceItem item amount.

End DatabaseStorage2.

(** ** [QuotationStorage] ([server/quotation-storage.ts]) *)

Module QuotationStorage.

Definition getQuotation (id : Z) : M Db.t (option Quotation.t) :=
  gets (fun d =>
    Table.first (Table.select (fun q => Quotation.id q =? id) (Db.quotations d))).

(** The [if ('pdfUrl' in quotation)] branch stores the value the spread
    has already put into [updateData]. *)
Definition updateQuotation (now : Z) (id : Z) (quotation : Quotation.patch)
  : M Db.t (option Quotation.t) :=
  modify (Db.on_quotations
    (Table.update_where (fun q => Quotation.id q =? id)
      (Quotation.apply quotation now))) ;;;
  getQuotation id.

Definition getQuotationItems (quotationId : Z) : M Db.t (list QuotationItem.t) :=
  gets (fun d =>
    Table.select (fun it => QuotationItem.quotationId it =? quotationId)
      (Db.quotationItems d)).

Definition recalculateQuotationTotals (now : Z) (quotationId : Z) : M Db.t unit :=
  (* Get all quotation items *)
  items <- getQuotationItems quotationId ;;
  (* Calculate subtotal *)
  let subtotal := Table.sum_by (fun item => JS.parseFloat (QuotationItem.amount item)) items in
  (* Get quotation to determine tax and discount *)
  quotation <- getQuotation quotationId ;;
  match quotation with
  | None => throw "Quotation not found"
  | Some quotation =>
    (* Calculate tax and total *)
    let discount := parse_or_zero (Quotation.discount quotation) in
    let discountedSubtotal := (subtotal * (1 - discount / 100))%Q in
    let tax :=
      if JS.truthy_opt (Quotation.taxRate quotation)
      then (discountedSubtotal * (parse_or_zero_str (Quotation.taxRate quotation) / 100))%Q
      else 0%Q in
    let total := (discountedSubtotal + tax)%Q in
    (* Update quotation with new totals *)
    modify (Db.on_quotations
      (Table.update_where (fun q => Quotation.id q =? quotationId)
        (Quotation.set_totals (JS.toString subtotal) (JS.toString tax)
           (JS.toString total) now)))
  end.

(** [updatedFields] is declared nowhere in scope of this method, and the
    server runs transpile-only, so the name is resolved at run time: the
    statement [updatedFields.amount = amount] raises a ReferenceError, after
    the amount was computed and before anything is written.  The statements
    that follow it in the source are never reached. *)
Definition createQuotationItem (now : Z) (item : QuotationItem.insert)
  : M Db.t QuotationItem.t :=
  let quantity := JS.parseFloat (QuotationItem.i_quantity item) in
  let unitPrice := JS.parseFloat (QuotationItem.i_unitPrice item) in
  let discount := parse_or_zero (QuotationItem.i_discount item) in
  let amount := JS.toString (quantity * unitPrice * (1 - discount / 100))%Q in
  throw "ReferenceError: updatedFields is not defined".

Definition updateQuotationItem (now : Z) (id : Z) (item : QuotationItem.patch)
  : M Db.t (option QuotationItem.t) :=
  (* First get the existing item *)
  existingItem <- gets (fun d =>
    Table.first (Table.select (fun it => QuotationItem.id it =? id) (Db.quotationItems d))) ;;
  match existingItem with
  | None => throw "Quotation item not found"
  | Some existingItem =>
    (* Recalculate amount if quantity, unitPrice, or discount changes *)
    amount <-
      (if QuotationItem.touches_pricing item then
         let quantity := JS.parseFloat
           (JS.or_else (QuotationItem.p_quantity item) (QuotationItem.quantity existingItem)) in
         let unitPrice := JS.parseFloat
           (JS.or_else (QuotationItem.p_unitPrice item) (QuotationItem.unitPrice existingItem)) in
         match QuotationItem.p_discount item with
         | Some None =>
           throw "TypeError: Cannot read properties of null (reading 'toString')"
         | Some (Some d) =>
           ret (Some (JS.toString (quantity * unitPrice * (1 - JS.parseFloat d / 100))%Q))
         | None =>
           ret (Some (JS.toString
             (quantity * unitPrice
              * (1 - parse_or_zero (QuotationItem.discount existingItem) / 100))%Q))
         end
       else ret None) ;;
    (* Update the item; [.set] refuses an object that carries no value *)
    match amount, QuotationItem.p_quotationId item with
    | None, None => throw "No values to set"
    | _, _ =>
      modify (Db.on_quotationItems
        (Table.update_where (fun it => QuotationItem.id it =? id)
          (QuotationItem.apply item amount))) ;;;
      updatedItem <- gets (fun d =>
        Table.first (Table.select (fun it => QuotationItem.id it =? id) (Db.quotationItems d))) ;;
      (* Recalculate quotation totals *)
      recalculateQuotationTotals now (QuotationItem.quotationId existingItem) ;;;
      ret updatedItem
    end
  end.

Definition deleteQuotationItem (now : Z) (id : Z) : M Db.t unit :=
  (* Get quotation ID before deleting *)
  item <- gets (fun d =>
    Table.first (Table.select (fun it => QuotationItem.id it =? id) (Db.quotationItems d))) ;;
  match item with
  | None => throw "Quotation item not found"
  | Some item =>
    let quotationId := QuotationItem.quotationId item in
    (* Delete the item *)
    modify (Db.on_quotationItems
      (Table.delete_where (fun it => QuotationItem.id it =? id))) ;;;
    (* Recalculate quotation totals *)
    recalculateQuotationTotals now quotationId
  end.

End QuotationStorage.

(** ** [MemStorage] ([server/storage.ts]) *)

(** A JavaScript [Map] with number keys: entries in insertion order;
    [set] on a present key replaces the value where it stands. *)
Module JsMap.
Section Entries.
Context {V : Type}.

Definition t : Type := list (Z * V).

Definition get (k : Z) (m : t) : option V :=
  option_map snd (find (fun e => fst e =? k) m).

Definition has (k : Z) (m : t) : bool :=
  existsb (fun e => fst e =? k) m.

Fixpoint replace (k : Z) (v : V) (m : t) : t :=
  match m with
  | [] => []
  | (k', v') :: rest =>
    if k' =? k then (k, v) :: rest else (k', v') :: replace k v rest
  end.

Definition set (k : Z) (v : V) (m : t) : t :=
  if has k m then replace k v m else (m ++ [(k, v)])%list.

Definition delete (k : Z) (m : t) : t :=
  filter (fun e => negb (fst e =? k)) m.

(** [Array.from(m.values())] *)
Definition values (m : t) : list V := map snd m.
End Entries.
Arguments t : clear implicits.
End JsMap.

Module Mem.
Record t : Type := mk {
  invoices : JsMap.t Invoice.t;
  invoiceItems : JsMap.t InvoiceItem.t;
  taxRates : JsMap.t TaxRate.t;
  currentInvoiceItemId : Z
}.

Definition on_invoices (f : JsMap.t Invoice.t -> JsMap.t Invoice.t) (s : t) : t :=
  mk (f (invoices s)) (invoiceItems s) (taxRates s) (currentInvoiceItemId s).

Definition on_invoiceItems (f : JsMap.t InvoiceItem.t -> JsMap.t InvoiceItem.t)
  (s : t) : t :=
  mk (invoices s) (f (invoiceItems s)) (taxRates s) (currentInvoiceItemId s).

(** [this.currentInvoiceItemId++] *)
Definition next_invoiceItemId : M t Z :=
  fun s =>
    (Ok (currentInvoiceItemId s),
     mk (invoices s) (invoiceItems s) (taxRates s) (currentInvoiceItemId s + 1)).
End Mem.

Module MemStorage.

Definition getInvoice (id : Z) : M Mem.t (option Invoice.t) :=
  gets (fun s => JsMap.get id (Mem.invoices s)).

Definition getInvoiceItems (invoiceId : Z) : M Mem.t (list InvoiceItem.t) :=
  gets (fun s =>
    filter (fun item => InvoiceItem.invoiceId item =? invoiceId)
      (JsMap.values (Mem.invoiceItems s))).

Definition getDefaultTaxRate (countryCode : string) : M Mem.t (option TaxRate.t) :=
  gets (fun s =>
    find (fun tax => String.eqb (TaxRate.countryCode tax) countryCode
                     && TaxRate.is_default tax)
      (JsMap.values (Mem.taxRates s))).

Definition recalculateInvoiceTotals (now : Z) (invoiceId : Z) : M Mem.t unit :=
  invoice <- getInvoice invoiceId ;;
  match invoice with
  | None => throw ("Invoice with ID " ++ show invoiceId ++ " not found")
  | Some invoice =>
    items <- getInvoiceItems invoiceId ;;
    (* Calculate subtotal *)
    let subtotal := Table.sum_by (fun item => JS.parseFloat (InvoiceItem.amount item)) items in
    (* Calculate discount *)
    let discountValue := parse_or_zero_str (Invoice.discount invoice) in
    (* Get tax rate for this country *)
    taxRate <- getDefaultTaxRate (Invoice.country invoice) ;;
    let taxRateValue :=
      match taxRate with
      | Some r => JS.parseFloat (TaxRate.rate r)
      | None => 0%Q
      end in
    (* Calculate tax and total *)
    let taxableAmount := (subtotal - discountValue)%Q in
    let taxAmount := (taxableAmount * (taxRateValue / 100))%Q in
    let total := (taxableAmount + taxAmount)%Q in
    (* Update invoice *)
    modify (Mem.on_invoices
      (JsMap.set invoiceId
        (Invoice.set_totals_rate (JS.toFixed2 subtotal) (JS.toFixed2 taxAmount)
           (JS.toString taxRateValue) (JS.toFixed2 total) now invoice)))
  end.

Definition createInvoiceItem (now : Z) (item : InvoiceItem.insert)
  : M Mem.t InvoiceItem.t :=
  (* Calculate the amount *)
  let quantity := JS.parseFloat (InvoiceItem.i_quantity item) in
  let unitPrice := JS.parseFloat (InvoiceItem.i_unitPrice item) in
  let discount := parse_or_zero_str (InvoiceItem.i_discount item) in
  let amount := JS.toFixed2 (quantity * unitPrice * (1 - discount / 100))%Q in
  id <- Mem.next_invoiceItemId ;;
  let newItem := InvoiceItem.of_insert id item amount in
  modify (Mem.on_invoiceItems (JsMap.set id newItem)) ;;;
  (* Update invoice totals *)
  recalculateInvoiceTotals now (InvoiceItem.i_invoiceId item) ;;;
  ret newItem.

Definition updateInvoiceItem (now : Z) (id : Z) (item : InvoiceItem.patch)
  : M Mem.t InvoiceItem.t :=
  existingItem <- gets (fun s =>
    find (fun i => InvoiceItem.id i =? id) (JsMap.values (Mem.invoiceItems s))) ;;
  match existingItem with
  | None => throw ("Invoice item with ID " ++ show id ++ " not found")
  | Some existingItem =>
    (* Recalculate amount if necessary *)
    let amount :=
      if InvoiceItem.touches_pricing item then
        let quantity := JS.parseFloat
          (JS.or_else (InvoiceItem.p_quantity item) (InvoiceItem.quantity existingItem)) in
        let unitPrice := JS.parseFloat
          (JS.or_else (InvoiceItem.p_unitPrice item) (InvoiceItem.unitPrice existingItem)) in
        let discount := JS.parseFloat
          (match JS.or_else_opt
                   (match InvoiceItem.p_discount item with Some d => d | None => None end)
                   (InvoiceItem.discount existingItem) with
           | Some d => if JS.truthy d then d else JS.Str 0
           | None => JS.Str 0
           end) in
        JS.toFixed2 (quantity * unitPrice * (1 - discount / 100))%Q
      else InvoiceItem.amount existingItem in
    let updatedItem := InvoiceItem.apply item amount existingItem in
    modify (Mem.on_invoiceItems (JsMap.set id updatedItem)) ;;;
    (* Update invoice totals *)
    recalculateInvoiceTotals now (InvoiceItem.invoiceId existingItem) ;;;
    ret updatedItem
  end.

Definition deleteInvoiceItem (now : Z) (id : Z) : M Mem.t unit :=
  item <- gets (fun s =>
    find (fun i => InvoiceItem.id i =? id) (JsMap.values (Mem.invoiceItems s))) ;;
  match item with
  | None => throw ("Invoice item with ID " ++ show id ++ " not found")
  | Some item =>
    modify (Mem.on_invoiceItems (JsMap.delete id)) ;;;
    (* Update invoice totals *)
    recalculateInvoiceTotals now (InvoiceItem.invoiceId item)
  end.

Definition deleteInvoice (id : Z) : M Mem.t unit :=
  invoice <- getInvoice id ;;
  match invoice with
  | None => throw ("Invoice with ID " ++ show id ++ " not found")
  | Some _ =>
    (* Delete associated invoice items *)
    itemsToDelete <- gets (fun s =>
      filter (fun item => InvoiceItem.invoiceId item =? id)
        (JsMap.values (Mem.invoiceItems s))) ;;
    modify (Mem.on_invoiceItems (fun m =>
      fold_left (fun m item => JsMap.delete (InvoiceItem.id item) m) itemsToDelete m)) ;;;
    modify (Mem.on_invoices (JsMap.delete id))
  end.

End MemStorage.

(** ** The quota check of the invoice routes *)

Module Routes.

(** What the handler wrote on [res]: [res.status(code).json({ message })] *)
Record response : Type := mkResponse {
  status : Z;
  message : string
}.

(** [storage] is the relational store.  The result pairs the returned
    boolean with the response written, if any. *)
Definition checkInvoiceQuota (now : Z) (userId : Z)
  : M Db.t (bool * option response) :=
  user <- DatabaseStorage.getUserById userId ;;
  match user with
  | None => ret (false, Some (mkResponse 401 "Unauthorized"))
  | Some user =>
    (* Check if subscription has expired for "per-invoice" plan *)
    if String.eqb (User.planId user) "per-invoice"
       && match User.subscriptionExpiresAt user with
          | Some expiresAt => now >? expiresAt
          | None => false
          end
    then ret (false, Some (mkResponse 403 "Your invoice bundle has expired"))
    else
      (* Check if user has exceeded their quota *)
      if negb (match User.invoiceQuota user with Some q => q =? -1 | None => false end)
         && (match User.invoicesUsed user with Some n => n | None => 0 end
             >=? match User.invoiceQuota user with Some q => q | None => 0 end)
      then ret (false,
                Some (mkResponse 403 "You have reached your invoice quota for this period"))
      else ret (true, None)
  end.

End Routes.

(** ** The user methods of [DatabaseStorage] ([server/db-storage.ts]) *)

(** The users row with the [subscriptionStatus] column, which the
    subscription methods write and [User.t] does not carry. *)
Module Account.
Record t : Type := mk {
  user : User.t;
  subscriptionStatus : option string
}.
End Account.

(** These methods touch the users table only; the store is that table. *)
Module UserStorage.

Definition getUserById (id : Z) : M (list Account.t) (option Account.t) :=
  gets (fun us =>
    Table.first (Table.select (fun a => User.id (Account.user a) =? id) us)).

Definition updateUserSubscription (now : Z) (userId : Z) (planId : string)
  (quota : Z) : M (list Account.t) (option Account.t) :=
  let subscriptionExpiresAt :=
    if String.eqb planId "per-invoice"
    then Some (now + 30 * 24 * 60 * 60 * 1000) (* 30 days from now *)
    else None in
  modify (Table.update_where (fun a => User.id (Account.user a) =? userId)
    (fun a =>
       Account.mk
         (User.mk (User.id (Account.user a)) (User.email (Account.user a))
            planId (Some quota) (Some 0) subscriptionExpiresAt)
         (Some "active"))) ;;;
  getUserById userId.

(** [invoicesUsed] is an [integer] column: the counter is taken to stay
    within it ([Pg.int4]). *)
Definition incrementInvoiceUsage (userId : Z) : M (list Account.t) unit :=
  user <- getUserById userId ;;
  match user with
  | None => throw ("User with ID " ++ show userId ++ " not found")
  | Some user =>
    let currentUsage :=
      match User.invoicesUsed (Account.user user) with
      | Some n => n
      | None => 0
      end in
    modify (Table.update_where (fun a => User.id (Account.user a) =? userId)
      (fun a =>
         Account.mk
           (User.mk (User.id (Account.user a)) (User.email (Account.user a))
              (User.planId (Account.user a)) (User.invoiceQuota (Account.user a))
              (Some (currentUsage + 1))
              (User.subscriptionExpiresAt (Account.user a)))
           (Account.subscriptionStatus a)))
  end.

End UserStorage.

(** ** The company term methods of [QuotationStorage] *)

(** Modelled from the spec: the [company_terms] table declaration is not
    part of [shared/schema.ts] as kept here.  The row carries the columns
    the methods name; the spec describes it as user-owned, optionally derived
    from a master term, with one default per user and category. *)
Module CompanyTerm.
Record t : Type := mk {
  id : Z;
  userId : Z;
  category : string;
  title : string;
  content : string;
  masterTermId : option Z;
  isDefault : option bool
}.

Record insert : Type := mkInsert {
  i_userId : Z;
  i_category : string;
  i_title : string;
  i_content : string;
  i_masterTermId : option Z;
  i_isDefault : option bool
}.

Record patch : Type := mkPatch {
  p_userId : option Z;
  p_category : option string;
  p_title : option string;
  p_content : option string;
  p_masterTermId : option (option Z);
  p_isDefault : option (option bool)
}.

Definition set_isDefault (b : option bool) (r : t) : t :=
  mk (id r) (userId r) (category r) (title r) (content r) (masterTermId r) b.

(** [.set({ userId: term.userId, ... })]: a key whose value is [undefined]
    is not written. *)
Definition apply (pt : patch) (r : t) : t :=
  mk (id r)
     (match p_userId pt with Some x => x | None => userId r end)
     (match p_category pt with Some x => x | None => category r end)
     (match p_title pt with Some x => x | None => title r end)
     (match p_content pt with Some x => x | None => content r end)
     (match p_masterTermId pt with Some x => x | None => masterTermId r end)
     (match p_isDefault pt with Some x => x | None => isDefault r end).

Definition is_default (r : t) : bool :=
  match isDefault r with
  | Some true => true
  | _ => false
  end.
End CompanyTerm.

(** These methods touch the company terms table only; the store is that
    table and its key sequence. *)
Module Terms.
Record t : Type := mk {
  companyTerms : list CompanyTerm.t;
  companyTerms_id_seq : Z
}.

Definition on_companyTerms (f : list CompanyTerm.t -> list CompanyTerm.t)
  (s : t) : t :=
  mk (f (companyTerms s)) (companyTerms_id_seq s).
End Terms.

Module TermStorage.

Definition getCompanyTerm (id : Z) : M Terms.t (option CompanyTerm.t) :=
  gets (fun s =>
    Table.first (Table.select (fun r => CompanyTerm.id r =? id) (Terms.companyTerms s))).

Definition clearDefaultCompanyTerm (userId : Z) (category : string)
  : M Terms.t unit :=
  modify (Terms.on_companyTerms
    (Table.update_where
      (fun r => (CompanyTerm.userId r =? userId)
                && String.eqb (CompanyTerm.category r) category
                && CompanyTerm.is_default r)
      (CompanyTerm.set_isDefault (Some false)))).

Definition createCompanyTerm (term : CompanyTerm.insert) : M Terms.t CompanyTerm.t :=
  if (CompanyTerm.i_userId term =? 0)
     || String.eqb (CompanyTerm.i_category term) ""
     || String.eqb (CompanyTerm.i_title term) ""
     || String.eqb (CompanyTerm.i_content term) ""
  then throw "Missing required fields for company term"
  else
    (* Clear any existing default term in this category *)
    when (JS.bool_or_false (CompanyTerm.i_isDefault term))
      (clearDefaultCompanyTerm (CompanyTerm.i_userId term)
         (CompanyTerm.i_category term)) ;;;
    (fun s =>
       let row :=
         CompanyTerm.mk (Terms.companyTerms_id_seq s)
           (CompanyTerm.i_userId term) (CompanyTerm.i_category term)
           (CompanyTerm.i_title term) (CompanyTerm.i_content term)
           (CompanyTerm.i_masterTermId term)
           (Some (JS.bool_or_false (CompanyTerm.i_isDefault term))) in
       (Ok row,
        Terms.mk (Terms.companyTerms s ++ [row]) (Terms.companyTerms_id_seq s + 1))).

Definition updateCompanyTerm (id : Z) (term : CompanyTerm.patch)
  : M Terms.t (option CompanyTerm.t) :=
  (* If setting as default, clear any existing default term *)
  when (match CompanyTerm.p_isDefault term with
        | Some (Some true) => true
        | _ => false
        end)
    (existingTerm <- getCompanyTerm id ;;
     match existingTerm with
     | Some existingTerm =>
       clearDefaultCompanyTerm (CompanyTerm.userId existingTerm)
         (CompanyTerm.category existingTerm)
     | None => ret tt
     end) ;;;
  modify (Terms.on_companyTerms
    (Table.update_where (fun r => CompanyTerm.id r =? id) (CompanyTerm.apply term))) ;;;
  getCompanyTerm id.

Definition deleteCompanyTerm (id : Z) : M Terms.t unit :=
  modify (Terms.on_companyTerms
    (Table.delete_where (fun r => CompanyTerm.id r =? id))).

End TermStorage.

(** ** Route handlers that delete ([invoice-routes]) *)

(** [storage] is the [QuotationStorage] instance; the methods called here
    are the ones it inherits from [DatabaseStorage] of
    [server/db-storage.ts].  A handler is an async function: where it
    throws outside its [try], Express 4 does not see the rejection and the
    request is never answered; that outcome is the [Throw] of the
    handler. *)
Module Handlers.

(** What a handler sent: [res.status(code).json({ message })] or
    [res.status(code).send()]. *)
Inductive reply : Type :=
| Json (status : Z) (message : string)
| Empty (status : Z).

(** [parseInt(req.params.id, 10)]: an integer, or [NaN] when the text
    does not begin with one. *)
Inductive parsed : Type :=
| NaN
| Int (n : Z).

(** A storage call that compares an [integer] column with the parsed
    parameter: the server refuses a parameter that is not an [integer],
    and the call rejects. *)
Definition with_id {A : Type} (p : parsed) (call : Z -> M Db.t A) : M Db.t A :=
  match p with
  | NaN => throw Pg.invalid_text_representation
  | Int n => if Pg.int4 n then call n else throw Pg.numeric_value_out_of_range
  end.

(** [try { ... } catch (error) { ... }] *)
Definition catch {S A : Type} (m : M S A) (handler : string -> M S A) : M S A :=
  fun s =>
    match m s with
    | (Ok a, s') => (Ok a, s')
    | (Throw msg, s') => handler msg s'
    end.

(** Helper for authentication: the user id of the session when it names a
    stored user, otherwise the 401 it answered.  (The session holds what
    the login and registration handlers put there: the id of a stored
    user.) *)
Definition authenticate (sessionUserId : option Z) : M Db.t (reply + Z) :=
  match sessionUserId with
  | None => ret (inl (Json 401 "Unauthorized"))
  | Some userId =>
    if userId =? 0 then ret (inl (Json 401 "Unauthorized"))
    else
      user <- DatabaseStorage.getUserById userId ;;
      match user with
      | None => ret (inl (Json 401 "Unauthorized"))
      | Some _ => ret (inr userId)
      end
  end.

(** [app.delete("/api/company-profiles/:id", ...)] *)
Definition delete_company_profile (sessionUserId : option Z) (profileId : parsed)
  : M Db.t reply :=
  auth <- authenticate sessionUserId ;;
  match auth with
  | inl answered => ret answered
  | inr userId =>
    profile <- with_id profileId DatabaseStorage.getCompanyProfile ;;
    match profile with
    | None => ret (Json 404 "Company profile not found")
    | Some profile =>
      if negb (CompanyProfile.userId profile =? userId)
      then ret (Json 403 "Access denied")
      else
        catch (with_id profileId DatabaseStorage.deleteCompanyProfile ;;;
               ret (Empty 204))
              (fun msg => ret (Json 400 msg))
    end
  end.

(** [app.delete("/api/clients/:id", ...)] *)
Definition delete_client (sessionUserId : option Z) (clientId : parsed)
  : M Db.t reply :=
  auth <- authenticate sessionUserId ;;
  match auth with
  | inl answered => ret answered
  | inr userId =>
    client <- with_id clientId DatabaseStorage.getClient ;;
    match client with
    | None => ret (Json 404 "Client not found")
    | Some client =>
      if negb (Client.userId client =? userId)
      then ret (Json 403 "Access denied")
      else
        catch (with_id clientId DatabaseStorage.deleteClient ;;; ret (Empty 204))
              (fun msg => ret (Json 400 msg))
    end
  end.

(** [app.delete("/api/invoices/:id", ...)] *)
Definition delete_invoice (sessionUserId : option Z) (invoiceId : parsed)
  : M Db.t reply :=
  auth <- authenticate sessionUserId ;;
  match auth with
  | inl answered => ret answered
  | inr userId =>
    invoice <- with_id invoiceId DatabaseStorage.getInvoice ;;
    match invoice with
    | None => ret (Json 404 "Invoice not found")
    | Some invoice =>
      if negb (Invoice.userId invoice =? userId)
      then ret (Json 403 "Access denied")
      else
        catch (with_id invoiceId DatabaseStorage.deleteInvoice ;;; ret (Empty 204))
              (fun msg => ret (Json 400 msg))
    end
  end.


End Handlers.

(** * Vocabulary of the statements *)

(** [res.status(403)] bodies of the quota check *)
Definition bundle_expired_response : Routes.response :=
  Routes.mkResponse 403 "Your invoice bundle has expired".

Definition quota_exceeded_response : Routes.response :=
  Routes.mkResponse 403 "You have reached your invoice quota for this period".

(** The plan is per-invoice and the clock is past the expiry date. *)
Definition bundle_expired (now : Z) (u : User.t) : Prop :=
  User.planId u = "per-invoice"
  /\ exists e, User.subscriptionExpiresAt u = Some e /\ now > e.

(** The quota is not the unlimited marker -1 and the usage has reached it
    (an absent counter or quota reads as 0, as [??] does). *)
Definition quota_exceeded (u : User.t) : Prop :=
  User.invoiceQuota u <> Some (-1)
  /\ match User.invoicesUsed u with Some n => n | None => 0 end
     >= match User.invoiceQuota u with Some q => q | None => 0 end.

Definition empty_db : Db.t :=
  Db.mk [] [] [] [] [] [] [] [] 1 1.

(** Scenario B: a user on the free plan who has used the 10 invoices of the
    quota. *)
Definition scenario_b_user : User.t :=
  User.mk 1 "b@example.com" "free" (Some 10) (Some 10) None.

Definition scenario_b : Db.t :=
  Db.mk [scenario_b_user] [] [] [] [] [] [] [] 1 1.

(** A per-invoice user whose bundle carries no expiry date. *)
Definition no_expiry_user : User.t :=
  User.mk 2 "c@example.com" "per-invoice" (Some 10) (Some 3) None.

Definition no_expiry_db : Db.t :=
  Db.mk [no_expiry_user] [] [] [] [] [] [] [] 1 1.

(** The user owns at least one of the rows. *)
Definition owns_row (u : Z) (ps : list CompanyProfile.t) : Prop :=
  exists p, In p ps /\ CompanyProfile.userId p = u.

(** The user owns at least one company profile. *)
Definition owns_profile (u : Z) (d : Db.t) : Prop :=
  owns_row u (Db.companyProfiles d).

(** The user's profiles that are flagged default. *)
Definition default_profiles (u : Z) (ps : list CompanyProfile.t)
  : list CompanyProfile.t :=
  filter (fun p => (CompanyProfile.userId p =? u) && CompanyProfile.is_default p) ps.

Definition one_default_rows (ps : list CompanyProfile.t) : Prop :=
  forall u, owns_row u ps -> List.length (default_profiles u ps) = 1%nat.

(** Every user with at least one profile has exactly one default. *)
Definition one_default_per_user (d : Db.t) : Prop :=
  one_default_rows (Db.companyProfiles d).

Definition keys_below (next : Z) (ps : list CompanyProfile.t) : Prop :=
  NoDup (map CompanyProfile.id ps)
  /\ Forall (fun p => CompanyProfile.id p < next) ps.

(** [id] is the primary key, drawn from the table's sequence. *)
Definition profile_keys_ok (d : Db.t) : Prop :=
  keys_below (Db.companyProfiles_id_seq d) (Db.companyProfiles d).

(** One user (7) with a single profile, which is the default. *)
Definition lone_default_db : Db.t :=
  Db.mk [] [CompanyProfile.mk 1 7 "Acme" (Some true)] [] [] [] [] [] [] 2 1.

(** The patch [{ isDefault: false }] *)
Definition unset_default_patch : CompanyProfile.patch :=
  CompanyProfile.mkPatch None None (Some (Some false)).

(** A client (1) and a company profile (1, the default of user 7), both
    referenced by invoice 1. *)
Definition referenced_db : Db.t :=
  Db.mk []
    [CompanyProfile.mk 1 7 "Acme" (Some true);
     CompanyProfile.mk 2 7 "Acme East" (Some false)]
    [Client.mk 1 7 "Globex"]
    [Invoice.mk 1 7 1 1 "GB" (JS.Str 0) None None None (JS.Str 0) 0]
    [] [] [] [] 3 1.

(** The sum of the amounts of a list of invoice items. *)
Definition sum_amounts (items : list InvoiceItem.t) : Q :=
  fold_right (fun it acc => (JS.parseFloat (InvoiceItem.amount it) + acc)%Q) 0%Q items.

(** The items a store holds for an invoice. *)
Definition items_of (invoiceId : Z) (d : Db.t) : list InvoiceItem.t :=
  filter (fun it => InvoiceItem.invoiceId it =? invoiceId) (Db.invoiceItems d).

(** A nullable numeric column read as a number, [NULL] being 0. *)
Definition number_or_zero (a : option JS.numeric) : Q :=
  match a with
  | Some x => JS.parseFloat x
  | None => 0%Q
  end.

(** A whole number of cents. *)
Definition cents (x : Q) : Prop :=
  exists n : Z, (x == inject_Z n / 100)%Q.

(** [stored] is [exact] rounded to cents: a whole number of cents within
    half a cent of it. *)
Definition to_the_cent (stored exact : Q) : Prop :=
  cents stored /\ (exact - (1 # 200) <= stored <= exact + (1 # 200))%Q.

(** The amounts of the stored invoice items are whole cents, as the
    [amount] column keeps them. *)
Definition item_amounts_in_cents (d : Db.t) : Prop :=
  Forall (fun it => cents (JS.parseFloat (InvoiceItem.amount it))) (Db.invoiceItems d).

(** The reading of the claim, to the letter: the stored totals are the
    exact values.  The subtotal is the sum of the amounts, the document
    discount is taken off as an amount, the tax is the rate (a percentage) of
    what is left and the total adds the tax to it. *)
Definition invoice_totals_consistent (d : Db.t) (inv : Invoice.t) : Prop :=
  let sum := sum_amounts (items_of (Invoice.id inv) d) in
  let discount := number_or_zero (Invoice.discount inv) in
  let rate := number_or_zero (Invoice.taxRate inv) in
  (JS.parseFloat (Invoice.subtotal inv) == sum
   /\ number_or_zero (Invoice.tax inv) == (sum - discount) * rate / 100
   /\ JS.parseFloat (Invoice.total inv)
      == (sum - discount) + number_or_zero (Invoice.tax inv))%Q.

(** What the code stores: the subtotal is the sum of the amounts; the
    document discount is taken off as an amount; the tax is the rate of what
    is left, rounded to cents; the total is what is left plus the tax as
    computed, rounded to cents. *)
Definition invoice_totals_to_the_cent (d : Db.t) (inv : Invoice.t) : Prop :=
  let sum := sum_amounts (items_of (Invoice.id inv) d) in
  let discount := number_or_zero (Invoice.discount inv) in
  let rate := number_or_zero (Invoice.taxRate inv) in
  (JS.parseFloat (Invoice.subtotal inv) == sum)%Q
  /\ to_the_cent (number_or_zero (Invoice.tax inv)) ((sum - discount) * rate / 100)%Q
  /\ to_the_cent (JS.parseFloat (Invoice.total inv))
       ((sum - discount) + (sum - discount) * rate / 100)%Q.

(** The three item operations that trigger a recomputation. *)
Inductive item_op : Type :=
| CreateItem (item : InvoiceItem.insert)
| UpdateItem (id : Z) (item : InvoiceItem.patch)
| DeleteItem (id : Z).

Definition run_item_op (now : Z) (op : item_op) : M Db.t unit :=
  match op with
  | CreateItem item => DatabaseStorage.createInvoiceItem now item ;;; ret tt
  | UpdateItem id item => DatabaseStorage.updateInvoiceItem now id item ;;; ret tt
  | DeleteItem id => DatabaseStorage.deleteInvoiceItem now id
  end.

(** The invoice whose totals the operation recomputes: the one named by
    the new item, or the one the existing item belongs to; none when an
    update names an invoice that is not stored, which the foreign key
    refuses. *)
Definition recomputed_invoice (op : item_op) (d : Db.t) : option Z :=
  match op with
  | CreateItem item => Some (InvoiceItem.i_invoiceId item)
  | UpdateItem id pt =>
    if match InvoiceItem.p_invoiceId pt with
       | Some x => Db.has_invoice x d
       | None => true
       end
    then option_map InvoiceItem.invoiceId
           (Table.first (Table.select (fun it => InvoiceItem.id it =? id)
                           (Db.invoiceItems d)))
    else None
  | DeleteItem id =>
    option_map InvoiceItem.invoiceId
      (Table.first (Table.select (fun it => InvoiceItem.id it =? id) (Db.invoiceItems d)))
  end.

(** An invoice at a rate of 17.5% with one item of 0.10, and an item of
    0.20 for it: the tax on 0.30 is 0.0525. *)
Definition fractional_tax_db : Db.t :=
  Db.mk [] [] []
    [Invoice.mk 1 7 1 1 "GB" (JS.Str (1 # 10)) None (Some (JS.Str (2 # 100)))
       (Some (JS.Str (35 # 2))) (JS.Str (12 # 100)) 0]
    [InvoiceItem.mk 1 1 "Washer" (JS.Str 1) (JS.Str (1 # 10)) None (JS.Str (1 # 10))]
    [] [] [] 1 2.

Definition twenty_cents_item : InvoiceItem.insert :=
  InvoiceItem.mkInsert 1 "Gasket" (JS.Str 1) (JS.Str (1 # 5)) None.

(** Scenario A: an invoice for a United Kingdom client at a 20% rate, no
    document discount, no items yet. *)
Definition scenario_a : Db.t :=
  Db.mk [] [] []
    [Invoice.mk 1 7 1 1 "GB" (JS.Str 0) None None (Some (JS.Str 20)) (JS.Str 0) 0]
    [] [TaxRate.mk 1 "GB" (JS.Str 20) (Some true)] [] [] 1 1.

Definition scenario_a_item1 : InvoiceItem.insert :=
  InvoiceItem.mkInsert 1 "Widget" (JS.Str 2) (JS.Str 10) (Some (JS.Str 0)).

Definition scenario_a_item2 : InvoiceItem.insert :=
  InvoiceItem.mkInsert 1 "Gasket" (JS.Str 1) (JS.Str 5) (Some (JS.Str 10)).

(** Scenario A after both items were created. *)
Definition scenario_a_done : Db.t :=
  snd (DatabaseStorage.createInvoiceItem 2 scenario_a_item2
         (snd (DatabaseStorage.createInvoiceItem 1 scenario_a_item1 scenario_a))).





(** A quotation with one item of 200.00, a discount of 10 and no tax
    rate. *)
Definition discounted_quotation_db : Db.t :=
  Db.mk [] [] [] [] [] []
    [Quotation.mk 1 7 (JS.Str 0) (Some (JS.Str 10)) None None (JS.Str 0) None 0]
    [QuotationItem.mk 1 1 None (JS.Str 1) (JS.Str 200) None (JS.Str 200)]
    1 2.


Definition mem_default_rate (countryCode : string) (s : Mem.t) : Q :=
  match find (fun r => String.eqb (TaxRate.countryCode r) countryCode
                       && TaxRate.is_default r)
          (JsMap.values (Mem.taxRates s)) with
  | Some r => JS.parseFloat (TaxRate.rate r)
  | None => 0%Q
  end.

Definition mem_items_of (invoiceId : Z) (s : Mem.t) : list InvoiceItem.t :=
  filter (fun it => InvoiceItem.invoiceId it =? invoiceId)
    (JsMap.values (Mem.invoiceItems s)).


(** A United Kingdom invoice without a rate of its own, one item of 100.00,
    in a store whose default rate for GB is 20. *)
Definition unrated_invoice : Invoice.t :=
  Invoice.mk 1 7 1 1 "GB" (JS.Str 0) None None None (JS.Str 0) 0.

Definition discounted_quotation : Quotation.t :=
  Quotation.mk 1 7 (JS.Str 0) (Some (JS.Str 10)) None None (JS.Str 0) None 0.

Definition unrated_invoice_db : Db.t :=
  Db.mk [] [] []
    [unrated_invoice]
    [InvoiceItem.mk 1 1 "Widget" (JS.Str 1) (JS.Str 100) None (JS.Str 100)]
    [TaxRate.mk 1 "GB" (JS.Str 20) (Some true)]
    [discounted_quotation]
    [QuotationItem.mk 1 1 None (JS.Str 1) (JS.Str 200) None (JS.Str 200)]
    1 2.


(** The patch [{ discount: "4.50" }] *)
Definition discount_patch : Invoice.patch :=
  Invoice.mkPatch None None None None (Some (Some (JS.Str (9 # 2)))) None None None.

(** The patch [{ discount: "50" }] on a quotation *)
Definition quotation_discount_patch : Quotation.patch :=
  Quotation.mkPatch None (Some (Some (JS.Str 50))) None None None None.

(** A patch that carries a document discount, a tax rate, or both, and no
    other key. *)
Definition discount_and_rate_only (pt : Invoice.patch) : Prop :=
  Invoice.p_companyProfileId pt = None /\ Invoice.p_clientId pt = None
  /\ Invoice.p_country pt = None /\ Invoice.p_subtotal pt = None
  /\ Invoice.p_tax pt = None /\ Invoice.p_total pt = None.

Definition quotation_discount_and_rate_only (pt : Quotation.patch) : Prop :=
  Quotation.p_subtotal pt = None /\ Quotation.p_tax pt = None
  /\ Quotation.p_total pt = None /\ Quotation.p_pdfUrl pt = None.

(** What a nullable [numeric(p, 2)] column holds after it was given a
    value: [NULL] for [null], else the value rounded to cents. *)
Definition column_keeps (stored given : option JS.numeric) : Prop :=
  match given with
  | Some x =>
    exists v, stored = Some v /\ to_the_cent (JS.parseFloat v) (JS.parseFloat x)
  | None => stored = None
  end.

(** A column after a patch: what the patch gave it, or what it held. *)
Definition patched_column (new old : option JS.numeric)
  (key : option (option JS.numeric)) : Prop :=
  match key with
  | Some given => column_keeps new given
  | None => new = old
  end.

(** Patches that set one pricing field to the number 0 *)
Definition zero_quantity_patch : InvoiceItem.patch :=
  InvoiceItem.mkPatch None None (Some (JS.Num 0)) None None.






(** An invoice item of 3 at 10.00 with a 10% discount, in both stores, and
    a quotation item alike. *)
Definition stored_item : InvoiceItem.t :=
  InvoiceItem.mk 1 1 "Widget" (JS.Str 3) (JS.Str 10) (Some (JS.Str 10)) (JS.Str 27).

Definition stored_item_mem : Mem.t :=
  Mem.mk [(1, unrated_invoice)] [(1, stored_item)] [] 2.

Definition stored_qitem : QuotationItem.t :=
  QuotationItem.mk 1 1 None (JS.Str 3) (JS.Str 10) (Some (JS.Str 10)) (JS.Str 27).

Definition stored_qitem_db : Db.t :=
  Db.mk [] [] [] [] [] [] [discounted_quotation] [stored_qitem] 1 1.


(** Every invoice item belongs to an invoice of the store. *)
Definition no_orphan_items (d : Db.t) : Prop :=
  forall it, In it (Db.invoiceItems d) ->
    exists inv, In inv (Db.invoices d) /\ Invoice.id inv = InvoiceItem.invoiceId it.

(** The invoices table a recomputation of [invoiceId] over [items] leaves. *)
Definition recalculated (now invoiceId : Z) (items : list InvoiceItem.t)
  (invs : list Invoice.t) : list Invoice.t :=
  Db.invoices
    (snd (DatabaseStorage.recalculateInvoiceTotals now invoiceId
            (Db.mk [] [] [] invs items [] [] [] 1 1))).

(** [id] is the primary key of the invoice items, drawn from the table's
    sequence. *)
Definition item_keys_below (d : Db.t) : Prop :=
  Forall (fun it => InvoiceItem.id it < Db.invoiceItems_id_seq d) (Db.invoiceItems d).

(** A store with an invoice (1, of user 7) for client 1, one item on it, and
    a second client nobody invoices. *)
Definition one_invoice_db : Db.t :=
  Db.mk [User.mk 7 "a@example.com" "free" (Some 10) (Some 1) None;
         User.mk 8 "b@example.com" "free" (Some 10) (Some 0) None]
    [CompanyProfile.mk 1 7 "Acme" (Some true);
     CompanyProfile.mk 2 7 "Acme East" (Some false)]
    [Client.mk 1 7 "Globex"; Client.mk 2 7 "Initech"]
    [Invoice.mk 1 7 1 1 "GB" (JS.Str 100) None (Some (JS.Str 20))
       (Some (JS.Str 20)) (JS.Str 120) 0]
    [InvoiceItem.mk 1 1 "Widget" (JS.Str 1) (JS.Str 100) None (JS.Str 100)]
    [] [] [] 3 2.

(** The rows of a group that carry the default flag, for a table whose rows
    fall into groups ([member k a]: row [a] is in group [k]). *)
Definition flagged_in {A K : Type} (member : K -> A -> bool) (flagged : A -> bool)
  (k : K) (rows : list A) : list A :=
  filter (fun a => member k a && flagged a) rows.

Definition at_most_one_flagged {A K : Type} (member : K -> A -> bool)
  (flagged : A -> bool) (rows : list A) : Prop :=
  forall k, (List.length (flagged_in member flagged k rows) <= 1)%nat.

(** No user has two default company profiles. *)
Definition at_most_one_default_profile (d : Db.t) : Prop :=
  at_most_one_flagged (fun u p => CompanyProfile.userId p =? u)
    CompanyProfile.is_default (Db.companyProfiles d).

(** A company term belongs to a user and a category. *)
Definition term_in (k : Z * string) (r : CompanyTerm.t) : bool :=
  (CompanyTerm.userId r =? fst k) && String.eqb (CompanyTerm.category r) (snd k).

(** No user has two default terms in one category; [id] is the primary key,
    drawn from the sequence. *)
Definition terms_ok (s : Terms.t) : Prop :=
  NoDup (map CompanyTerm.id (Terms.companyTerms s))
  /\ Forall (fun r => CompanyTerm.id r < Terms.companyTerms_id_seq s)
       (Terms.companyTerms s)
  /\ at_most_one_flagged term_in CompanyTerm.is_default (Terms.companyTerms s).

(** Two payment terms of user 7, the first one the default. *)
Definition two_terms : Terms.t :=
  Terms.mk
    [CompanyTerm.mk 1 7 "Payment" "Net 30" "Payment within 30 days" None (Some true);
     CompanyTerm.mk 2 7 "Payment" "Net 60" "Payment within 60 days" None (Some false)]
    3.

(** The users table as the quota check reads it: the accounts without the
    status column. *)
Definition users_of (us : list Account.t) : list User.t := map Account.user us.

(** The usage counted [n] times for one user, as after [n] invoices. *)
Fixpoint invoices_counted (n : nat) (userId : Z) (us : list Account.t)
  : list Account.t :=
  match n with
  | O => us
  | S n => snd (UserStorage.incrementInvoiceUsage userId (invoices_counted n userId us))
  end.

(** The account after [updateUserSubscription] at time [now] and [n] counted
    invoices. *)
Definition subscribed (now : Z) (planId : string) (quota : Z) (n : Z)
  (a : Account.t) : Account.t :=
  Account.mk
    (User.mk (User.id (Account.user a)) (User.email (Account.user a)) planId
       (Some quota) (Some n)
       (if String.eqb planId "per-invoice" then Some (now + 2592000000) else None))
    (Some "active").

(** The invoice counter of an account, read as [invoicesUsed || 0]. *)
Definition usage (a : Account.t) : Z :=
  match User.invoicesUsed (Account.user a) with
  | Some n => n
  | None => 0
  end.

Definition with_usage (n : Z) (a : Account.t) : Account.t :=
  Account.mk
    (User.mk (User.id (Account.user a)) (User.email (Account.user a))
       (User.planId (Account.user a)) (User.invoiceQuota (Account.user a))
       (Some n) (User.subscriptionExpiresAt (Account.user a)))
    (Account.subscriptionStatus a).

(** Two accounts: a free one that has used 3 of 10 invoices and one that
    has no counter yet. *)
Definition two_accounts : list Account.t :=
  [Account.mk (User.mk 1 "a@example.com" "free" (Some 10) (Some 3) None) (Some "active");
   Account.mk (User.mk 2 "b@example.com" "free" (Some 10) None None) None].

(** The session names a stored user: what [authenticate] lets through. *)
Definition signed_in (sessionUserId : option Z) (u : Z) (d : Db.t) : Prop :=
  sessionUserId = Some u /\ u <> 0
  /\ exists usr, fst (DatabaseStorage.getUserById u d) = Ok (Some usr).


(** The stored quotation item with a given key. *)
Definition quotation_item (id : Z) (d : Db.t) : option QuotationItem.t :=
  Table.first (Table.select (fun it => QuotationItem.id it =? id) (Db.quotationItems d)).


(** A quotation item (1) whose quotation (5) is not stored. *)
Definition orphan_quotation_item_db : Db.t :=
  Db.mk [] [] [] [] [] [] []
    [QuotationItem.mk 1 5 None (JS.Str 1) (JS.Str 200) None (JS.Str 200)]
    1 1.


(** The in-memory items are filed under their own id, one entry per key. *)
Definition mem_items_keyed (s : Mem.t) : Prop :=
  NoDup (map fst (Mem.invoiceItems s))
  /\ Forall (fun e => InvoiceItem.id (snd e) = fst e) (Mem.invoiceItems s).

(** An in-memory store with two invoices, of two items and of one. *)
Definition two_invoices_mem : Mem.t :=
  Mem.mk
    [(1, unrated_invoice);
     (2, Invoice.mk 2 7 1 1 "GB" (JS.Str 0) None None None (JS.Str 0) 0)]
    [(1, InvoiceItem.mk 1 1 "Widget" (JS.Str 1) (JS.Str 100) None (JS.Str 100));
     (2, InvoiceItem.mk 2 2 "Gadget" (JS.Str 1) (JS.Str 50) None (JS.Str 50));
     (3, InvoiceItem.mk 3 1 "Sprocket" (JS.Str 2) (JS.Str 10) None (JS.Str 20))]
    [(1, TaxRate.mk 1 "GB" (JS.Str 20) (Some true))]
    4.

(** An item for invoice 5, which no store of the examples holds. *)
Definition stray_item : InvoiceItem.insert :=
  InvoiceItem.mkInsert 5 "Widget" (JS.Str 1) (JS.Str 100) None.

(** The totals an in-memory recomputation stores: each one a whole number
    of cents within half a cent of the exact value, computed from the items
    of the invoice, the invoice discount as an amount, and the default rate
    of the invoice's country. *)
Definition mem_totals_to_the_cent (invoiceId : Z) (s : Mem.t) (inv : Invoice.t)
  : Prop :=
  let sum := Table.sum_by (fun item => JS.parseFloat (InvoiceItem.amount item))
               (mem_items_of invoiceId s) in
  let taxable := (sum - number_or_zero (Invoice.discount inv))%Q in
  let rate := mem_default_rate (Invoice.country inv) s in
  let near (stored : JS.numeric) (exact : Q) :=
    ((exists n : Z, JS.parseFloat stored == inject_Z n / 100)
     /\ exact - (1 # 200) <= JS.parseFloat stored <= exact + (1 # 200))%Q in
  near (Invoice.subtotal inv) sum
  /\ (exists tax, Invoice.tax inv = Some tax /\ near tax (taxable * (rate / 100))%Q)
  /\ near (Invoice.total inv) (taxable + taxable * (rate / 100))%Q.

(** The item operations on the in-memory store. *)
Definition mem_run_item_op (now : Z) (op : item_op) : M Mem.t unit :=
  match op with
  | CreateItem item => MemStorage.createInvoiceItem now item ;;; ret tt
  | UpdateItem id item => MemStorage.updateInvoiceItem now id item ;;; ret tt
  | DeleteItem id => MemStorage.deleteInvoiceItem now id
  end.

Definition mem_recomputed_invoice (op : item_op) (s : Mem.t) : option Z :=
  match op with
  | CreateItem item => Some (InvoiceItem.i_invoiceId item)
  | UpdateItem id _ | DeleteItem id =>
    option_map InvoiceItem.invoiceId
      (find (fun i => InvoiceItem.id i =? id) (JsMap.values (Mem.invoiceItems s)))
  end.

(** An item of 0.335 for invoice 1. *)
Definition third_of_a_unit : InvoiceItem.insert :=
  InvoiceItem.mkInsert 1 "Washer" (JS.Str 1) (JS.Str (67 # 200)) None.

(** * Theorems *)

(** ** Quota check *)

Lemma checkInvoiceQuota_unfold (now userId : Z) (d : Db.t) (u : User.t) :
  fst (DatabaseStorage.getUserById userId d) = Ok (Some u) ->
  Routes.checkInvoiceQuota now userId d =
  (Ok (if String.eqb (User.planId u) "per-invoice"
          && match User.subscriptionExpiresAt u with
             | Some expiresAt => now >? expiresAt
             | None => false
             end
       then (false, Some bundle_expired_response)
       else if negb (match User.invoiceQuota u with Some q => q =? -1 | None => false end)
               && (match User.invoicesUsed u with Some n => n | None => 0 end
                   >=? match User.invoiceQuota u with Some q => q | None => 0 end)
            then (false, Some quota_exceeded_response)
            else (true, None)), d).
Proof.
  unfold Routes.checkInvoiceQuota, bind, DatabaseStorage.getUserById, gets.
  cbn [fst]. intros H. injection H as H. rewrite H.
  repeat match goal with |- context [if ?c then _ else _] => destruct c end;
    reflexivity.
Qed.

Lemma bundle_expired_reflect (now : Z) (u : User.t) :
  String.eqb (User.planId u) "per-invoice"
  && match User.subscriptionExpiresAt u with
     | Some expiresAt => now >? expiresAt
     | None => false
     end = true <-> bundle_expired now u.
Proof.
  unfold bundle_expired. rewrite andb_true_iff, String.eqb_eq.
  split.
  - intros [Hp He]. split; [exact Hp|].
    destruct (User.subscriptionExpiresAt u) as [e|]; [|discriminate].
    exists e. split; [reflexivity|]. apply Z.gtb_lt in He. lia.
  - intros [Hp [e [He Hlt]]]. split; [exact Hp|].
    rewrite He. apply Z.gtb_lt. lia.
Qed.

Lemma quota_exceeded_reflect (u : User.t) :
  negb (match User.invoiceQuota u with Some q => q =? -1 | None => false end)
  && (match User.invoicesUsed u with Some n => n | None => 0 end
      >=? match User.invoiceQuota u with Some q => q | None => 0 end) = true
  <-> quota_exceeded u.
Proof.
  unfold quota_exceeded. rewrite andb_true_iff, negb_true_iff, Z.geb_le.
  destruct (User.invoiceQuota u) as [q|].
  - rewrite Z.eqb_neq. split; intros [H1 H2]; split; try lia; congruence.
  - split; intros [H1 H2]; split; try lia; congruence.
Qed.

(** C6. For a known user, [checkInvoiceQuota] refuses exactly when the
    per-invoice bundle has expired or the quota (other than -1) is used up;
    the first case answers "bundle expired", the second "quota reached"; a
    user with quota -1 whose bundle has not expired passes whatever the
    usage counter says.  The store is left as it was. *)
Theorem checkInvoiceQuota_spec (now userId : Z) (d : Db.t) (u : User.t) :
  fst (DatabaseStorage.getUserById userId d) = Ok (Some u) ->
  exists allowed resp,
    Routes.checkInvoiceQuota now userId d = (Ok (allowed, resp), d)
    /\ (allowed = false <-> bundle_expired now u \/ quota_exceeded u)
    /\ (bundle_expired now u -> resp = Some bundle_expired_response)
    /\ (~ bundle_expired now u -> quota_exceeded u ->
        resp = Some quota_exceeded_response)
    /\ (User.invoiceQuota u = Some (-1) -> ~ bundle_expired now u ->
        allowed = true /\ resp = None).
Proof.
  intros Hu. rewrite (checkInvoiceQuota_unfold now userId d u Hu).
  pose proof (bundle_expired_reflect now u) as He.
  pose proof (quota_exceeded_reflect u) as Hq.
  destruct (String.eqb (User.planId u) "per-invoice"
            && match User.subscriptionExpiresAt u with
               | Some expiresAt => now >? expiresAt
               | None => false
               end) eqn:E1.
  - assert (Hex : bundle_expired now u) by (apply He; reflexivity).
    exists false, (Some bundle_expired_response).
    split; [reflexivity|]. split; [|split; [|split]].
    + split; auto.
    + reflexivity.
    + intros Hn. contradiction.
    + intros _ Hn. contradiction.
  - assert (Hnex : ~ bundle_expired now u).
    { intros H. apply He in H. discriminate. }
    destruct (negb (match User.invoiceQuota u with Some q => q =? -1 | None => false end)
              && (match User.invoicesUsed u with Some n => n | None => 0 end
                  >=? match User.invoiceQuota u with Some q => q | None => 0 end)) eqn:E2.
    + assert (Hqe : quota_exceeded u) by (apply Hq; reflexivity).
      exists false, (Some quota_exceeded_response).
      split; [reflexivity|]. split; [|split; [|split]].
      * split; auto.
      * intros Hn. contradiction.
      * reflexivity.
      * intros Hm1 _. destruct Hqe as [Hne _]. contradiction.
    + assert (Hnq : ~ quota_exceeded u).
      { intros H. apply Hq in H. discriminate. }
      exists true, None.
      split; [reflexivity|]. split; [|split; [|split]].
      * split; [discriminate|]. intros [H|H]; contradiction.
      * intros Hn. contradiction.
      * intros _ Hn. contradiction.
      * intros _ _. split; reflexivity.
Qed.

Lemma checkInvoiceQuota_spec_witness :
  exists allowed resp,
    Routes.checkInvoiceQuota 0 1 scenario_b = (Ok (allowed, resp), scenario_b)
    /\ (allowed = false <->
        bundle_expired 0 scenario_b_user \/ quota_exceeded scenario_b_user)
    /\ (bundle_expired 0 scenario_b_user -> resp = Some bundle_expired_response)
    /\ (~ bundle_expired 0 scenario_b_user -> quota_exceeded scenario_b_user ->
        resp = Some quota_exceeded_response)
    /\ (User.invoiceQuota scenario_b_user = Some (-1) ->
        ~ bundle_expired 0 scenario_b_user ->
        allowed = true /\ resp = None).
Proof.
  apply (checkInvoiceQuota_spec 0 1 scenario_b scenario_b_user).
  reflexivity.
Defined.

(** C9. A per-invoice user without an expiry date never gets the "bundle
    expired" answer, whatever the clock reads: the check lets the user
    through exactly when the quota comparison does. *)
Theorem checkInvoiceQuota_null_expiry (now userId : Z) (d : Db.t) (u : User.t) :
  fst (DatabaseStorage.getUserById userId d) = Ok (Some u) ->
  User.planId u = "per-invoice" ->
  User.subscriptionExpiresAt u = None ->
  exists allowed resp,
    Routes.checkInvoiceQuota now userId d = (Ok (allowed, resp), d)
    /\ resp <> Some bundle_expired_response
    /\ (allowed = false <-> quota_exceeded u)
    /\ (allowed = false -> resp = Some quota_exceeded_response).
Proof.
  intros Hu Hplan Hexp.
  rewrite (checkInvoiceQuota_unfold now userId d u Hu).
  rewrite Hexp, andb_false_r.
  pose proof (quota_exceeded_reflect u) as Hq.
  destruct (negb (match User.invoiceQuota u with Some q => q =? -1 | None => false end)
            && (match User.invoicesUsed u with Some n => n | None => 0 end
                >=? match User.invoiceQuota u with Some q => q | None => 0 end)) eqn:E2.
  - exists false, (Some quota_exceeded_response).
    split; [reflexivity|]. split; [discriminate|]. split; [|reflexivity].
    split; intros _; [apply Hq|]; reflexivity.
  - exists true, None.
    split; [reflexivity|]. split; [discriminate|]. split; [|discriminate].
    split; [discriminate|]. intros H. apply Hq in H. discriminate.
Qed.

Lemma checkInvoiceQuota_null_expiry_witness :
  exists allowed resp,
    Routes.checkInvoiceQuota 4102444800000 2 no_expiry_db
      = (Ok (allowed, resp), no_expiry_db)
    /\ resp <> Some bundle_expired_response
    /\ (allowed = false <-> quota_exceeded no_expiry_user)
    /\ (allowed = false -> resp = Some quota_exceeded_response).
Proof.
  apply (checkInvoiceQuota_null_expiry 4102444800000 2 no_expiry_db no_expiry_user);
    reflexivity.
Defined.

(** ** Tables with a key *)

Section KeyedRows.
Context {A : Type} (key : A -> Z).

Lemma first_select_some (c : A -> bool) (rows : list A) (r : A) :
  Table.first (Table.select c rows) = Some r -> In r rows /\ c r = true.
Proof.
  unfold Table.first, Table.select. intros H.
  assert (Hin : In r (filter c rows)).
  { destruct (filter c rows) as [|x l]; [discriminate|].
    injection H as ->. left. reflexivity. }
  apply filter_In in Hin. exact Hin.
Qed.

Lemma first_select_none (c : A -> bool) (rows : list A) :
  Table.first (Table.select c rows) = None -> forall r, In r rows -> c r = false.
Proof.
  unfold Table.first, Table.select. intros H r Hin.
  destruct (c r) eqn:E; [|reflexivity].
  assert (Hf : In r (filter c rows)) by (apply filter_In; auto).
  destruct (filter c rows); [contradiction|discriminate].
Qed.

Lemma first_limit_1 (rows : list A) :
  Table.first (firstn 1 rows) = Table.first rows.
Proof. destruct rows; reflexivity. Qed.

Lemma update_where_miss (c : A -> bool) (f : A -> A) (rows : list A) :
  (forall r, In r rows -> c r = false) -> Table.update_where c f rows = rows.
Proof.
  induction rows as [|x l IH]; intros H; [reflexivity|].
  cbn. rewrite (H x (or_introl eq_refl)). f_equal.
  apply IH. intros r Hr. apply H. right. exact Hr.
Qed.

Lemma delete_where_miss (c : A -> bool) (rows : list A) :
  (forall r, In r rows -> c r = false) -> Table.delete_where c rows = rows.
Proof.
  induction rows as [|x l IH]; intros H; [reflexivity|].
  cbn. rewrite (H x (or_introl eq_refl)). cbn. f_equal.
  apply IH. intros r Hr. apply H. right. exact Hr.
Qed.

Lemma update_where_app (c : A -> bool) (f : A -> A) (l1 l2 : list A) :
  Table.update_where c f (l1 ++ l2)
  = (Table.update_where c f l1 ++ Table.update_where c f l2)%list.
Proof. apply map_app. Qed.

Lemma delete_where_app (c : A -> bool) (l1 l2 : list A) :
  Table.delete_where c (l1 ++ l2)
  = (Table.delete_where c l1 ++ Table.delete_where c l2)%list.
Proof. apply filter_app. Qed.

Lemma update_where_cons (c : A -> bool) (f : A -> A) (r : A) (l : list A) :
  Table.update_where c f (r :: l)
  = (if c r then f r else r) :: Table.update_where c f l.
Proof. reflexivity. Qed.

Lemma delete_where_cons (c : A -> bool) (r : A) (l : list A) :
  Table.delete_where c (r :: l)
  = if c r then Table.delete_where c l else r :: Table.delete_where c l.
Proof. unfold Table.delete_where. cbn. destruct (c r); reflexivity. Qed.

(** With a primary key, a row splits the table into rows of other keys. *)
Lemma split_at_key (rows : list A) (r : A) :
  NoDup (map key rows) -> In r rows ->
  exists l1 l2, rows = (l1 ++ r :: l2)%list
    /\ (forall q, In q l1 -> (key q =? key r) = false)
    /\ (forall q, In q l2 -> (key q =? key r) = false).
Proof.
  intros Hnd Hin.
  destruct (in_split r rows Hin) as [l1 [l2 ->]].
  exists l1, l2. split; [reflexivity|].
  rewrite map_app in Hnd. cbn in Hnd.
  pose proof (NoDup_remove_2 _ _ _ Hnd) as Hnot.
  split; intros q Hq; apply Z.eqb_neq; intros Heq; apply Hnot;
    apply in_or_app; [left|right]; rewrite <- Heq; apply in_map; exact Hq.
Qed.

Lemma update_where_key (f : A -> A) (l1 l2 : list A) (r : A) (k : Z) :
  key r = k ->
  (forall q, In q l1 -> (key q =? k) = false) ->
  (forall q, In q l2 -> (key q =? k) = false) ->
  Table.update_where (fun q => key q =? k) f (l1 ++ r :: l2)
  = (l1 ++ f r :: l2)%list.
Proof.
  intros Hk H1 H2. rewrite update_where_app, update_where_cons.
  rewrite (update_where_miss _ f l1 H1), (update_where_miss _ f l2 H2).
  rewrite Hk, Z.eqb_refl. reflexivity.
Qed.

Lemma delete_where_key (l1 l2 : list A) (r : A) (k : Z) :
  key r = k ->
  (forall q, In q l1 -> (key q =? k) = false) ->
  (forall q, In q l2 -> (key q =? k) = false) ->
  Table.delete_where (fun q => key q =? k) (l1 ++ r :: l2) = (l1 ++ l2)%list.
Proof.
  intros Hk H1 H2. rewrite delete_where_app, delete_where_cons.
  rewrite (delete_where_miss _ l1 H1), (delete_where_miss _ l2 H2).
  rewrite Hk, Z.eqb_refl. reflexivity.
Qed.

Lemma update_where_keys (c : A -> bool) (f : A -> A) (rows : list A) :
  (forall r, key (f r) = key r) ->
  map key (Table.update_where c f rows) = map key rows.
Proof.
  intros Hf. unfold Table.update_where. rewrite map_map.
  apply map_ext. intros r. destruct (c r); [apply Hf|reflexivity].
Qed.

Lemma delete_where_NoDup (c : A -> bool) (rows : list A) :
  NoDup (map key rows) -> NoDup (map key (Table.delete_where c rows)).
Proof.
  unfold Table.delete_where.
  induction rows as [|x l IH]; intros Hnd; [constructor|].
  cbn in *. inversion Hnd as [|? ? Hx Hl]; subst.
  destruct (negb (c x)); [|apply IH; exact Hl].
  cbn. constructor; [|apply IH; exact Hl].
  intros Hin. apply Hx. apply in_map_iff in Hin as [q [Hq Hin]].
  apply filter_In in Hin as [Hin _]. rewrite <- Hq. apply in_map. exact Hin.
Qed.

End KeyedRows.

(** ** Exactly one default company profile per user *)

Lemma default_profiles_app (u : Z) (l1 l2 : list CompanyProfile.t) :
  default_profiles u (l1 ++ l2)
  = (default_profiles u l1 ++ default_profiles u l2)%list.
Proof. apply filter_app. Qed.

Lemma default_profiles_cleared (u : Z) (ps : list CompanyProfile.t) :
  default_profiles u
    (Table.update_where
       (fun p => (CompanyProfile.userId p =? u) && CompanyProfile.is_default p)
       (CompanyProfile.set_isDefault (Some false)) ps) = [].
Proof.
  induction ps as [|x l IH]; [reflexivity|].
  rewrite update_where_cons. unfold default_profiles in *. cbn [filter].
  destruct ((CompanyProfile.userId x =? u) && CompanyProfile.is_default x) eqn:E.
  - cbn. rewrite andb_false_r. exact IH.
  - rewrite E. exact IH.
Qed.

Lemma default_profiles_cleared_other (u u0 : Z) (ps : list CompanyProfile.t) :
  u <> u0 ->
  default_profiles u
    (Table.update_where
       (fun p => (CompanyProfile.userId p =? u0) && CompanyProfile.is_default p)
       (CompanyProfile.set_isDefault (Some false)) ps)
  = default_profiles u ps.
Proof.
  intros Hne. induction ps as [|x l IH]; [reflexivity|].
  rewrite update_where_cons. unfold default_profiles in *. cbn [filter].
  destruct ((CompanyProfile.userId x =? u0) && CompanyProfile.is_default x) eqn:E.
  - apply andb_true_iff in E as [E _]. apply Z.eqb_eq in E.
    cbn. rewrite E. replace (u0 =? u) with false by (symmetry; apply Z.eqb_neq; lia).
    cbn. exact IH.
  - rewrite IH. reflexivity.
Qed.

Lemma owns_row_update (u : Z) (c : CompanyProfile.t -> bool)
  (f : CompanyProfile.t -> CompanyProfile.t) (ps : list CompanyProfile.t) :
  (forall p, CompanyProfile.userId (f p) = CompanyProfile.userId p) ->
  owns_row u (Table.update_where c f ps) -> owns_row u ps.
Proof.
  intros Hf [p [Hin Hu]]. unfold Table.update_where in Hin.
  apply in_map_iff in Hin as [q [Hq Hin]]. exists q. split; [exact Hin|].
  rewrite <- Hu, <- Hq. destruct (c q); [symmetry; apply Hf|reflexivity].
Qed.

Lemma keys_below_update (next : Z) (c : CompanyProfile.t -> bool)
  (f : CompanyProfile.t -> CompanyProfile.t) (ps : list CompanyProfile.t) :
  (forall p, CompanyProfile.id (f p) = CompanyProfile.id p) ->
  keys_below next ps -> keys_below next (Table.update_where c f ps).
Proof.
  intros Hf [Hnd Hlt]. split.
  - rewrite (update_where_keys CompanyProfile.id c f ps Hf). exact Hnd.
  - unfold Table.update_where. rewrite Forall_forall in *.
    intros p Hin. apply in_map_iff in Hin as [q [Hq Hin]]. rewrite <- Hq.
    destruct (c q); [rewrite Hf|]; apply Hlt; exact Hin.
Qed.

Lemma keys_below_insert (next : Z) (ps : list CompanyProfile.t)
  (u : Z) (n : string) (b : option bool) :
  keys_below next ps ->
  keys_below (next + 1) (ps ++ [CompanyProfile.mk next u n b]).
Proof.
  intros [Hnd Hlt]. split.
  - rewrite map_app. cbn. apply NoDup_app.
    + exact Hnd.
    + constructor; [intros []|constructor].
    + intros k Hk [Hk'|[]]. cbn in Hk'. subst k.
      apply in_map_iff in Hk as [q [Hq Hin]].
      rewrite Forall_forall in Hlt. specialize (Hlt q Hin). lia.
  - apply Forall_app. split.
    + eapply Forall_impl; [|exact Hlt]. cbn. intros; lia.
    + constructor; [cbn; lia|constructor].
Qed.

Lemma keys_below_delete (next : Z) (c : CompanyProfile.t -> bool)
  (ps : list CompanyProfile.t) :
  keys_below next ps -> keys_below next (Table.delete_where c ps).
Proof.
  intros [Hnd Hlt]. split.
  - apply delete_where_NoDup. exact Hnd.
  - unfold Table.delete_where. rewrite Forall_forall in *.
    intros p Hin. apply filter_In in Hin as [Hin _]. apply Hlt. exact Hin.
Qed.

(** The new row is the default: the user's former defaults are cleared
    first. *)
Lemma one_default_insert_default (next u0 : Z) (n : string)
  (ps : list CompanyProfile.t) :
  one_default_rows ps ->
  one_default_rows
    (Table.update_where
       (fun p => (CompanyProfile.userId p =? u0) && CompanyProfile.is_default p)
       (CompanyProfile.set_isDefault (Some false)) ps
     ++ [CompanyProfile.mk next u0 n (Some true)]).
Proof.
  intros Hinv u Hown. rewrite default_profiles_app, length_app.
  destruct (Z.eq_dec u u0) as [->|Hne].
  - rewrite default_profiles_cleared. cbn. rewrite Z.eqb_refl. reflexivity.
  - rewrite (default_profiles_cleared_other u u0 ps Hne).
    cbn. replace (u0 =? u) with false by (symmetry; apply Z.eqb_neq; lia).
    cbn. rewrite Nat.add_0_r. apply Hinv.
    destruct Hown as [p [Hin Hu]]. apply in_app_iff in Hin as [Hin|[<-|[]]].
    + eapply owns_row_update; [|exists p; split; [exact Hin|exact Hu]].
      reflexivity.
    + cbn in Hu. lia.
Qed.

(** The new row is not the default: the user already had a profile. *)
Lemma one_default_insert_plain (next u0 : Z) (n : string)
  (ps : list CompanyProfile.t) :
  owns_row u0 ps ->
  one_default_rows ps ->
  one_default_rows (ps ++ [CompanyProfile.mk next u0 n (Some false)]).
Proof.
  intros Hu0 Hinv u Hown. rewrite default_profiles_app, length_app.
  cbn. rewrite andb_false_r. cbn. rewrite Nat.add_0_r. apply Hinv.
  destruct Hown as [p [Hin Hu]]. apply in_app_iff in Hin as [Hin|[<-|[]]].
  - exists p. split; assumption.
  - cbn in Hu. subst u. exact Hu0.
Qed.

(** [createCompanyProfile] keeps the invariant (and the key discipline). *)
Lemma createCompanyProfile_keeps_one_default
  (profile : CompanyProfile.insert) (d : Db.t) :
  profile_keys_ok d -> one_default_per_user d ->
  exists p d',
    DatabaseStorage.createCompanyProfile profile d = (Ok p, d')
    /\ In p (Db.companyProfiles d')
    /\ profile_keys_ok d' /\ one_default_per_user d'.
Proof.
  intros Hk Hinv.
  unfold DatabaseStorage.createCompanyProfile, bind,
    DatabaseStorage.getCompanyProfiles, gets.
  set (existing := Table.select _ (Db.companyProfiles d)).
  assert (Hex : (List.length existing =? 0)%nat = false ->
                owns_row (CompanyProfile.i_userId profile) (Db.companyProfiles d)).
  { intros Hlen. destruct existing as [|x l] eqn:E; [discriminate|].
    assert (Hx : In x (Table.select
      (fun p => CompanyProfile.userId p =? CompanyProfile.i_userId profile)
      (Db.companyProfiles d))).
    { fold existing. rewrite E. left. reflexivity. }
    apply filter_In in Hx as [Hx1 Hx2]. apply Z.eqb_eq in Hx2.
    exists x. split; assumption. }
  unfold profile_keys_ok, one_default_per_user in *.
  destruct (List.length existing =? 0)%nat;
    [|destruct (JS.bool_or_false (CompanyProfile.i_isDefault profile))];
    cbn; eexists; eexists; (split; [reflexivity|]); cbn.
  - split; [apply in_or_app; right; left; reflexivity|]. split.
    + apply keys_below_insert. apply keys_below_update; [reflexivity|exact Hk].
    + apply one_default_insert_default. exact Hinv.
  - split; [apply in_or_app; right; left; reflexivity|]. split.
    + apply keys_below_insert. apply keys_below_update; [reflexivity|exact Hk].
    + apply one_default_insert_default. exact Hinv.
  - split; [apply in_or_app; right; left; reflexivity|]. split.
    + apply keys_below_insert. exact Hk.
    + apply one_default_insert_plain; [apply Hex; reflexivity|exact Hinv].
Qed.

Lemma in_update_where_miss {A : Type} (c : A -> bool) (f : A -> A)
  (rows : list A) (r : A) :
  In r rows -> c r = false -> In r (Table.update_where c f rows).
Proof.
  intros Hin Hc. unfold Table.update_where. apply in_map_iff.
  exists r. rewrite Hc. split; [reflexivity|exact Hin].
Qed.

Lemma owns_row_delete (u : Z) (c : CompanyProfile.t -> bool)
  (ps : list CompanyProfile.t) :
  owns_row u (Table.delete_where c ps) -> owns_row u ps.
Proof.
  intros [p [Hin Hu]]. apply filter_In in Hin as [Hin _].
  exists p. split; assumption.
Qed.

(** Deleting the row of a key takes that row, and nothing else, out of the
    count of defaults. *)
Lemma count_defaults_delete (u : Z) (ps : list CompanyProfile.t)
  (p : CompanyProfile.t) :
  NoDup (map CompanyProfile.id ps) -> In p ps ->
  (List.length (default_profiles u
     (Table.delete_where
        (fun q => (CompanyProfile.id q =? CompanyProfile.id p)%Z) ps))
   + (if (CompanyProfile.userId p =? u)%Z && CompanyProfile.is_default p
      then 1 else 0)
   = List.length (default_profiles u ps))%nat.
Proof.
  intros Hnd Hin.
  destruct (split_at_key CompanyProfile.id ps p Hnd Hin) as [l1 [l2 [-> [H1 H2]]]].
  rewrite (delete_where_key CompanyProfile.id l1 l2 p _ eq_refl H1 H2).
  rewrite !default_profiles_app, !length_app.
  unfold default_profiles at 4. cbn [filter].
  destruct ((CompanyProfile.userId p =? u) && CompanyProfile.is_default p);
    cbn [List.length]; unfold default_profiles; lia.
Qed.

(** Promoting the row of a key adds one default for its owner, unless the
    row was a default already. *)
Lemma count_defaults_promote (u : Z) (ps : list CompanyProfile.t)
  (o : CompanyProfile.t) :
  NoDup (map CompanyProfile.id ps) -> In o ps ->
  List.length (default_profiles u
    (Table.update_where (fun q => CompanyProfile.id q =? CompanyProfile.id o)
       (CompanyProfile.set_isDefault (Some true)) ps))
  = (List.length (default_profiles u ps)
     + (if (CompanyProfile.userId o =? u)%Z && negb (CompanyProfile.is_default o)
        then 1 else 0))%nat.
Proof.
  intros Hnd Hin.
  destruct (split_at_key CompanyProfile.id ps o Hnd Hin) as [l1 [l2 [-> [H1 H2]]]].
  rewrite (update_where_key CompanyProfile.id _ l1 l2 o _ eq_refl H1 H2).
  rewrite !default_profiles_app, !length_app.
  unfold default_profiles at 2 4. cbn [filter].
  cbn [CompanyProfile.userId CompanyProfile.set_isDefault
       CompanyProfile.is_default CompanyProfile.isDefault].
  destruct (CompanyProfile.userId o =? u);
    destruct (CompanyProfile.is_default o);
    cbn [andb negb List.length]; unfold default_profiles; lia.
Qed.

Lemma count_defaults_delete_other (u : Z) (ps : list CompanyProfile.t)
  (p : CompanyProfile.t) :
  NoDup (map CompanyProfile.id ps) -> In p ps -> CompanyProfile.userId p <> u ->
  List.length (default_profiles u
    (Table.delete_where (fun q => CompanyProfile.id q =? CompanyProfile.id p) ps))
  = List.length (default_profiles u ps).
Proof.
  intros Hnd Hin Hne.
  pose proof (count_defaults_delete u ps p Hnd Hin) as Hc.
  replace (CompanyProfile.userId p =? u) with false in Hc
    by (symmetry; apply Z.eqb_neq; exact Hne).
  cbn in Hc. lia.
Qed.

(** [deleteCompanyProfile] keeps the invariant, whether it throws or not: a
    deleted default hands the flag to another profile of the same user. *)
Lemma deleteCompanyProfile_keeps_one_default (id : Z) (d : Db.t) :
  profile_keys_ok d -> one_default_per_user d ->
  profile_keys_ok (snd (DatabaseStorage.deleteCompanyProfile id d))
  /\ one_default_per_user (snd (DatabaseStorage.deleteCompanyProfile id d)).
Proof.
  intros Hk Hinv.
  unfold DatabaseStorage.deleteCompanyProfile, bind,
    DatabaseStorage.getCompanyProfile, gets.
  destruct (Table.first (Table.select (fun p => CompanyProfile.id p =? id)
                           (Db.companyProfiles d))) as [profile|] eqn:Hp;
    [|cbn; split; assumption].
  destruct (Table.first (firstn 1 (Table.select
              (fun i => Invoice.companyProfileId i =? id) (Db.invoices d))));
    [cbn; split; assumption|].
  apply first_select_some in Hp as [Hin Hid]. apply Z.eqb_eq in Hid. subst id.
  unfold profile_keys_ok, one_default_per_user in *.
  pose proof Hk as [Hnd _].
  unfold when. destruct (CompanyProfile.is_default profile) eqn:Hdef.
  - (* the default goes *)
    destruct (Table.select
               (fun p => (CompanyProfile.userId p =? CompanyProfile.userId profile)
                         && negb (CompanyProfile.id p =? CompanyProfile.id profile))
               (Db.companyProfiles d)) as [|o rest] eqn:Ho.
    + (* it was the user's only profile *)
      cbn -[Table.delete_where Table.update_where]. split; [apply keys_below_delete; exact Hk|].
      intros u Hown.
      destruct (Z.eq_dec (CompanyProfile.userId profile) u) as [He|Hne].
      * exfalso. destruct Hown as [q [Hq Hu]].
        apply filter_In in Hq as [Hq Hqid].
        assert (Hsel : In q (Table.select
                  (fun p => (CompanyProfile.userId p =? CompanyProfile.userId profile)
                            && negb (CompanyProfile.id p =? CompanyProfile.id profile))
                  (Db.companyProfiles d))).
        { apply filter_In. split; [exact Hq|].
          rewrite Hqid, Hu, He, Z.eqb_refl. reflexivity. }
        rewrite Ho in Hsel. contradiction.
      * rewrite (count_defaults_delete_other u _ profile Hnd Hin Hne).
        apply Hinv. eapply owns_row_delete. exact Hown.
    + (* another profile of the user is promoted *)
      assert (Hosel : In o (Table.select
                (fun p => (CompanyProfile.userId p =? CompanyProfile.userId profile)
                          && negb (CompanyProfile.id p =? CompanyProfile.id profile))
                (Db.companyProfiles d))).
      { rewrite Ho. left. reflexivity. }
      apply filter_In in Hosel as [Hoin Hoc].
      apply andb_true_iff in Hoc as [Hou Hoid].
      apply Z.eqb_eq in Hou. apply negb_true_iff in Hoid.
      cbn -[Table.delete_where Table.update_where]. split.
      * apply keys_below_delete. apply keys_below_update; [reflexivity|exact Hk].
      * set (ps1 := Table.update_where
                 (fun p => CompanyProfile.id p =? CompanyProfile.id o)
                 (CompanyProfile.set_isDefault (Some true)) (Db.companyProfiles d)).
        assert (Hnd1 : NoDup (map CompanyProfile.id ps1)).
        { unfold ps1.
          rewrite (update_where_keys CompanyProfile.id _
                     (CompanyProfile.set_isDefault (Some true)) _ (fun _ => eq_refl)).
          exact Hnd. }
        assert (Hin1 : In profile ps1).
        { apply in_update_where_miss; [exact Hin|].
          rewrite Z.eqb_sym. exact Hoid. }
        intros u Hown.
        assert (Hown0 : owns_row u (Db.companyProfiles d)).
        { eapply owns_row_update; [|eapply owns_row_delete; exact Hown].
          reflexivity. }
        destruct (Z.eq_dec (CompanyProfile.userId profile) u) as [He|Hne].
        -- pose proof (count_defaults_delete u ps1 profile Hnd1 Hin1) as Hc1.
           pose proof (count_defaults_promote u _ o Hnd Hoin) as Hc2.
           fold ps1 in Hc2.
           pose proof (count_defaults_delete u _ profile Hnd Hin) as Hc3.
           rewrite He, Z.eqb_refl, Hdef in Hc1, Hc3.
           cbn [andb] in Hc1, Hc3.
           pose proof (Hinv u Hown0) as H1. rewrite H1 in Hc3.
           assert (Hod : CompanyProfile.is_default o = false).
           { destruct (CompanyProfile.is_default o) eqn:E; [|reflexivity].
             exfalso.
             assert (Hi : In o (default_profiles u
                        (Table.delete_where
                           (fun p => CompanyProfile.id p =? CompanyProfile.id profile)
                           (Db.companyProfiles d)))).
             { apply filter_In. split.
               - apply filter_In. split; [exact Hoin|]. rewrite Hoid. reflexivity.
               - rewrite Hou, He, Z.eqb_refl, E. reflexivity. }
             destruct (default_profiles u
                        (Table.delete_where
                           (fun p => CompanyProfile.id p =? CompanyProfile.id profile)
                           (Db.companyProfiles d))); [contradiction|].
             cbn in Hc3. clear - Hc3. lia. }
           rewrite Hou, He, Z.eqb_refl, Hod in Hc2. cbn in Hc2. lia.
        -- rewrite (count_defaults_delete_other u ps1 profile Hnd1 Hin1 Hne).
           unfold ps1. rewrite (count_defaults_promote u _ o Hnd Hoin).
           replace (CompanyProfile.userId o =? u) with false
             by (symmetry; apply Z.eqb_neq; lia).
           cbn. rewrite Nat.add_0_r. apply Hinv. exact Hown0.
  - (* a profile that is not the default goes *)
    cbn -[Table.delete_where Table.update_where]. split; [apply keys_below_delete; exact Hk|].
    intros u Hown.
    assert (Hown0 : owns_row u (Db.companyProfiles d)).
    { eapply owns_row_delete. exact Hown. }
    pose proof (count_defaults_delete u _ profile Hnd Hin) as Hc.
    rewrite Hdef, andb_false_r in Hc.
    rewrite Nat.add_0_r in Hc. rewrite Hc. apply Hinv. exact Hown0.
Qed.

Lemma default_profiles_cons (u : Z) (x : CompanyProfile.t)
  (l : list CompanyProfile.t) :
  default_profiles u (x :: l)
  = if (CompanyProfile.userId x =? u) && CompanyProfile.is_default x
    then x :: default_profiles u l
    else default_profiles u l.
Proof. reflexivity. Qed.

Lemma update_where_ext_in {A : Type} (c c' : A -> bool) (f : A -> A)
  (rows : list A) :
  (forall r, In r rows -> c r = c' r) ->
  Table.update_where c f rows = Table.update_where c' f rows.
Proof.
  intros H. unfold Table.update_where. apply map_ext_in.
  intros r Hr. rewrite (H r Hr). reflexivity.
Qed.

Lemma count_defaults_update_same (u : Z) (c : CompanyProfile.t -> bool)
  (f : CompanyProfile.t -> CompanyProfile.t) (ps : list CompanyProfile.t) :
  (forall p, CompanyProfile.userId (f p) = CompanyProfile.userId p) ->
  (forall p, CompanyProfile.is_default (f p) = CompanyProfile.is_default p) ->
  List.length (default_profiles u (Table.update_where c f ps))
  = List.length (default_profiles u ps).
Proof.
  intros Hu Hd. induction ps as [|x l IH]; [reflexivity|].
  rewrite update_where_cons. unfold default_profiles in *. cbn [filter].
  destruct (c x).
  - rewrite Hu, Hd.
    destruct ((CompanyProfile.userId x =? u) && CompanyProfile.is_default x);
      cbn [List.length]; rewrite IH; reflexivity.
  - destruct ((CompanyProfile.userId x =? u) && CompanyProfile.is_default x);
      cbn [List.length]; rewrite IH; reflexivity.
Qed.

(** [updateCompanyProfile] keeps the invariant as long as the patch leaves
    the owner alone and either leaves the flag alone or sets it: setting it
    clears the user's other defaults first. *)
Lemma updateCompanyProfile_keeps_one_default (id : Z)
  (patch : CompanyProfile.patch) (d : Db.t) :
  CompanyProfile.p_userId patch = None ->
  CompanyProfile.p_isDefault patch = None
  \/ CompanyProfile.p_isDefault patch = Some (Some true) ->
  profile_keys_ok d -> one_default_per_user d ->
  profile_keys_ok (snd (DatabaseStorage.updateCompanyProfile id patch d))
  /\ one_default_per_user (snd (DatabaseStorage.updateCompanyProfile id patch d)).
Proof.
  intros Huid Hflag Hk Hinv.
  unfold DatabaseStorage.updateCompanyProfile, bind,
    DatabaseStorage.getCompanyProfile, gets.
  destruct (Table.first (Table.select (fun p => CompanyProfile.id p =? id)
                           (Db.companyProfiles d))) as [existing|] eqn:Hp;
    [|cbn; split; assumption].
  apply first_select_some in Hp as [Hin Hid]. apply Z.eqb_eq in Hid. subst id.
  unfold profile_keys_ok, one_default_per_user in *.
  pose proof Hk as [Hnd _].
  assert (Happly_id : forall p,
            CompanyProfile.id (CompanyProfile.apply patch p) = CompanyProfile.id p)
    by reflexivity.
  assert (Happly_user : forall p,
            CompanyProfile.userId (CompanyProfile.apply patch p)
            = CompanyProfile.userId p).
  { intros p. cbn. rewrite Huid. reflexivity. }
  destruct Hflag as [Hflag|Hflag]; rewrite Hflag;
    cbn -[Table.update_where Table.select Table.first].
  - (* the flag is left alone *)
    split; [apply keys_below_update; [exact Happly_id|exact Hk]|].
    intros u Hown.
    rewrite count_defaults_update_same.
    + apply Hinv. eapply owns_row_update; [exact Happly_user|exact Hown].
    + exact Happly_user.
    + intros p. unfold CompanyProfile.is_default. cbn. rewrite Hflag. reflexivity.
  - (* the flag is set *)
    split.
    { apply keys_below_update; [exact Happly_id|].
      apply keys_below_update; [reflexivity|exact Hk]. }
    destruct (split_at_key CompanyProfile.id _ existing Hnd Hin)
      as [l1 [l2 [Hsplit [H1 H2]]]].
    rewrite Hsplit in *.
    set (u0 := CompanyProfile.userId existing).
    set (c := fun p => (CompanyProfile.userId p =? u0) && CompanyProfile.is_default p).
    assert (Hc1 : forall l,
              (forall q, In q l ->
                 (CompanyProfile.id q =? CompanyProfile.id existing) = false) ->
              Table.update_where
                (fun p => (CompanyProfile.userId p =? u0)
                          && CompanyProfile.is_default p
                          && negb (CompanyProfile.id p =? CompanyProfile.id existing))
                (CompanyProfile.set_isDefault (Some false)) l
              = Table.update_where c (CompanyProfile.set_isDefault (Some false)) l).
    { intros l Hl. apply update_where_ext_in. intros r Hr.
      rewrite (Hl r Hr). unfold c. rewrite andb_true_r. reflexivity. }
    rewrite update_where_app, update_where_cons.
    rewrite (Z.eqb_refl (CompanyProfile.id existing)).
    cbn [negb]. rewrite andb_false_r.
    rewrite (Hc1 l1 H1), (Hc1 l2 H2).
    assert (Hk1 : forall l,
              (forall q, In q l ->
                 (CompanyProfile.id q =? CompanyProfile.id existing) = false) ->
              forall q,
                In q (Table.update_where c (CompanyProfile.set_isDefault (Some false)) l) ->
                (CompanyProfile.id q =? CompanyProfile.id existing) = false).
    { intros l Hl q Hq. unfold Table.update_where in Hq.
      apply in_map_iff in Hq as [r [Hr Hinr]]. rewrite <- Hr.
      destruct (c r); [cbn|]; apply Hl; exact Hinr. }
    rewrite (update_where_key CompanyProfile.id _ _ _ existing _ eq_refl
               (Hk1 l1 H1) (Hk1 l2 H2)).
    intros u Hown.
    rewrite default_profiles_app, default_profiles_cons, Happly_user.
    fold u0.
    assert (Hdef : CompanyProfile.is_default (CompanyProfile.apply patch existing) = true).
    { unfold CompanyProfile.is_default. cbn. rewrite Hflag. reflexivity. }
    rewrite Hdef, andb_true_r.
    destruct (Z.eq_dec u u0) as [->|Hne].
    + rewrite Z.eqb_refl. unfold c.
      rewrite !default_profiles_cleared. reflexivity.
    + replace (u0 =? u) with false by (symmetry; apply Z.eqb_neq; lia).
      unfold c. rewrite !(default_profiles_cleared_other u u0) by exact Hne.
      assert (Hown0 : owns_row u (l1 ++ existing :: l2)).
      { destruct Hown as [p [Hp Hu]].
        apply in_app_iff in Hp as [Hp|[Hp|Hp]].
        - destruct (owns_row_update u c (CompanyProfile.set_isDefault (Some false)) l1
                      (fun _ => eq_refl)
                      (ex_intro _ p (conj Hp Hu))) as [r [Hr Hru]].
          exists r. split; [apply in_or_app; left; exact Hr|exact Hru].
        - exfalso. rewrite <- Hp, Happly_user in Hu. fold u0 in Hu. lia.
        - destruct (owns_row_update u c (CompanyProfile.set_isDefault (Some false)) l2
                      (fun _ => eq_refl)
                      (ex_intro _ p (conj Hp Hu))) as [r [Hr Hru]].
          exists r. split; [apply in_or_app; right; right; exact Hr|exact Hru]. }
      pose proof (Hinv u Hown0) as Hone.
      rewrite default_profiles_app, default_profiles_cons in Hone. fold u0 in Hone.
      replace (u0 =? u) with false in Hone by (symmetry; apply Z.eqb_neq; lia).
      cbn [andb] in Hone. rewrite length_app in *. exact Hone.
Qed.

Lemma lone_default_db_ok :
  profile_keys_ok lone_default_db /\ one_default_per_user lone_default_db.
Proof.
  split.
  - split.
    + cbn. constructor; [intros []|constructor].
    + constructor; [reflexivity|constructor].
  - intros u [p [[<-|[]] Hu]]. cbn in Hu. subst u. reflexivity.
Qed.

(** C1. The invariant "a user with at least one company profile has exactly
    one default" is kept by [createCompanyProfile] and [deleteCompanyProfile]
    (lemmas above) but not by [updateCompanyProfile]: on a store that
    satisfies it, the patch [{ isDefault: false }] applied to the user's only
    default succeeds and leaves the user with a profile and no default. *)
Theorem updateCompanyProfile_drops_the_default :
  profile_keys_ok lone_default_db
  /\ one_default_per_user lone_default_db
  /\ exists r d',
       DatabaseStorage.updateCompanyProfile 1 unset_default_patch lone_default_db
       = (Ok r, d')
       /\ owns_profile 7 d'
       /\ default_profiles 7 (Db.companyProfiles d') = []
       /\ ~ one_default_per_user d'.
Proof.
  destruct lone_default_db_ok as [Hk Hinv].
  split; [exact Hk|]. split; [exact Hinv|].
  eexists. eexists. split; [reflexivity|].
  assert (Hown : owns_profile 7
    (Db.mk [] [CompanyProfile.mk 1 7 "Acme" (Some false)] [] [] [] [] [] [] 2 1)).
  { eexists. split; [left; reflexivity|reflexivity]. }
  split; [exact Hown|]. split; [reflexivity|].
  intros H. specialize (H 7 Hown). discriminate H.
Qed.

(** ** Referential safety *)

Lemma first_select_hit {A : Type} (c : A -> bool) (rows : list A) (r : A) :
  In r rows -> c r = true -> exists r', Table.first (Table.select c rows) = Some r'.
Proof.
  intros Hin Hc.
  destruct (Table.first (Table.select c rows)) as [r'|] eqn:E.
  - exists r'. reflexivity.
  - rewrite (first_select_none c rows E r Hin) in Hc. discriminate.
Qed.








(** ** Rounding to two decimals *)

Lemma round_half_away_comp (x y : Q) :
  (x == y)%Q -> JS.round_half_away x = JS.round_half_away y.
Proof.
  intros H. unfold JS.round_half_away.
  assert (Hb : Qle_bool 0 x = Qle_bool 0 y).
  { destruct (Qle_bool 0 x) eqn:Ex; destruct (Qle_bool 0 y) eqn:Ey;
      try reflexivity.
    - apply Qle_bool_iff in Ex. rewrite H in Ex. apply Qle_bool_iff in Ex.
      congruence.
    - apply Qle_bool_iff in Ey. rewrite <- H in Ey. apply Qle_bool_iff in Ey.
      congruence. }
  rewrite Hb. destruct (Qle_bool 0 y).
  - apply Qfloor_comp. rewrite H. reflexivity.
  - f_equal. apply Qfloor_comp. rewrite H. reflexivity.
Qed.


(** The rounded integer is within one half of the number, and a tie goes
    away from zero. *)
Lemma round_half_away_near (x : Q) :
  (0 <= x -> x - (1 # 2) < inject_Z (JS.round_half_away x) <= x + (1 # 2))%Q
  /\ (x < 0 -> x - (1 # 2) <= inject_Z (JS.round_half_away x) < x + (1 # 2))%Q.
Proof.
  unfold JS.round_half_away. split; intros Hx.
  - apply Qle_bool_iff in Hx. rewrite Hx.
    pose proof (Qfloor_le (x + (1 # 2))) as Hl.
    pose proof (Qlt_floor (x + (1 # 2))) as Hu.
    rewrite inject_Z_plus in Hu. change (inject_Z 1) with 1%Q in Hu.
    split; lra.
  - assert (Hb : Qle_bool 0 x = false).
    { destruct (Qle_bool 0 x) eqn:E; [|reflexivity].
      apply Qle_bool_iff in E. lra. }
    rewrite Hb.
    pose proof (Qfloor_le (- x + (1 # 2))) as Hl.
    pose proof (Qlt_floor (- x + (1 # 2))) as Hu.
    rewrite inject_Z_plus in Hu. change (inject_Z 1) with 1%Q in Hu.
    rewrite inject_Z_opp. split; lra.
Qed.

(** [toFixed(2)] yields a number of hundredths at most half a hundredth
    away from its argument. *)
Lemma toFixed2_near (x : Q) :
  (exists n : Z, JS.parseFloat (JS.toFixed2 x) == inject_Z n / 100)%Q
  /\ (x - (1 # 200) <= JS.parseFloat (JS.toFixed2 x) <= x + (1 # 200))%Q.
Proof.
  split.
  - exists (JS.round_half_away (x * 100)). reflexivity.
  - unfold JS.toFixed2, JS.parseFloat.
    destruct (round_half_away_near (x * 100)) as [Hpos Hneg].
    assert (Hn : (x * 100 - (1 # 2) <= inject_Z (JS.round_half_away (x * 100))
                  <= x * 100 + (1 # 2))%Q).
    { destruct (Qlt_le_dec (x * 100) 0) as [H|H].
      - specialize (Hneg H). lra.
      - specialize (Hpos H). lra. }
    set (n := inject_Z (JS.round_half_away (x * 100))) in *.
    assert (Hd : (n / 100 == n * (1 # 100))%Q) by (field).
    rewrite Hd. lra.
Qed.

(** A whole number of cents is what it rounds to. *)
Lemma round_half_away_int (n : Z) (x : Q) :
  (x == inject_Z n)%Q -> JS.round_half_away x = n.
Proof.
  intros Hx. rewrite (round_half_away_comp x (inject_Z n) Hx).
  unfold JS.round_half_away.
  assert (Hfl : forall m : Z, Qfloor (inject_Z m + (1 # 2)) = m).
  { intros m.
    pose proof (Qfloor_le (inject_Z m + (1 # 2))) as Hl.
    pose proof (Qlt_floor (inject_Z m + (1 # 2))) as Hu.
    set (f := Qfloor (inject_Z m + (1 # 2))) in *.
    assert (H1 : (inject_Z f < inject_Z (m + 1))%Q).
    { rewrite inject_Z_plus. change (inject_Z 1) with 1%Q. lra. }
    assert (H2 : (inject_Z m < inject_Z (f + 1))%Q) by lra.
    rewrite <- Zlt_Qlt in H1, H2. lia. }
  destruct (Qle_bool 0 (inject_Z n)).
  - apply Hfl.
  - rewrite <- inject_Z_opp, Hfl. lia.
Qed.

Lemma cents_comp (x y : Q) : (x == y)%Q -> cents x -> cents y.
Proof.
  intros H [n Hn]. exists n. rewrite <- H. exact Hn.
Qed.

Lemma cents_plus (x y : Q) : cents x -> cents y -> cents (x + y).
Proof.
  intros [n Hn] [m Hm]. exists (n + m). rewrite Hn, Hm, inject_Z_plus. field.
Qed.

(** What a [numeric(p, 2)] column keeps of a value: a whole number of
    cents within half a cent of it, and the value itself when it is a whole
    number of cents already. *)
Lemma numeric2_to_the_cent (v : JS.numeric) :
  to_the_cent (JS.parseFloat (Pg.numeric2 v)) (JS.parseFloat v).
Proof.
  exact (toFixed2_near (JS.parseFloat v)).
Qed.

Lemma numeric2_of_cents (v : JS.numeric) :
  cents (JS.parseFloat v) -> (JS.parseFloat (Pg.numeric2 v) == JS.parseFloat v)%Q.
Proof.
  intros [n Hn]. unfold Pg.numeric2. cbn [JS.parseFloat].
  rewrite (round_half_away_int n).
  - symmetry. exact Hn.
  - rewrite Hn. field.
Qed.

Lemma sum_amounts_cents (items : list InvoiceItem.t) :
  Forall (fun it => cents (JS.parseFloat (InvoiceItem.amount it))) items ->
  cents (sum_amounts items).
Proof.
  induction 1 as [|it l Hit _ IH]; cbn.
  - exists 0. reflexivity.
  - apply cents_plus; assumption.
Qed.

(** ** Invoice totals *)

Lemma sum_by_fold_right {A : Type} (f : A -> Q) (rows : list A) :
  (Table.sum_by f rows == fold_right (fun r acc => f r + acc) 0 rows)%Q.
Proof.
  unfold Table.sum_by.
  assert (H : forall a : Q,
    (fold_left (fun sum r => sum + f r) rows a
     == a + fold_right (fun r acc => f r + acc) 0 rows)%Q).
  { induction rows as [|x l IH]; intros a; cbn.
    - ring.
    - rewrite IH. ring. }
  rewrite H. ring.
Qed.

Lemma parse_or_zero_number (a : option JS.numeric) :
  (parse_or_zero a == number_or_zero a)%Q.
Proof.
  unfold parse_or_zero, number_or_zero.
  destruct a as [[q|q]|]; cbn; try reflexivity.
  destruct (Qeq_bool q 0) eqn:E; cbn; [|reflexivity].
  apply Qeq_bool_eq in E. symmetry. exact E.
Qed.

Lemma first_select_update {A : Type} (c : A -> bool) (f : A -> A) (rows : list A) :
  (forall r, c (f r) = c r) ->
  Table.first (Table.select c (Table.update_where c f rows))
  = option_map f (Table.first (Table.select c rows)).
Proof.
  intros Hf. induction rows as [|x l IH]; [reflexivity|].
  rewrite update_where_cons. unfold Table.select in *. cbn [filter].
  destruct (c x) eqn:E.
  - rewrite Hf, E. reflexivity.
  - rewrite E. exact IH.
Qed.

Lemma Forall_update_where {A : Type} (P : A -> Prop) (c : A -> bool) (f : A -> A)
  (rows : list A) :
  (forall a, P a -> P (f a)) ->
  Forall P rows -> Forall P (Table.update_where c f rows).
Proof.
  intros Hf H. unfold Table.update_where. rewrite Forall_forall in *.
  intros a Ha. apply in_map_iff in Ha as [r [<- Hr]].
  destruct (c r); [apply Hf|]; apply H; exact Hr.
Qed.

Lemma to_the_cent_comp (stored exact exact' : Q) :
  (exact == exact')%Q -> to_the_cent stored exact -> to_the_cent stored exact'.
Proof.
  intros H [Hc Hb]. split; [exact Hc|]. rewrite <- H. exact Hb.
Qed.

Lemma has_invoice_get (id : Z) (d : Db.t) (inv : Invoice.t) :
  fst (DatabaseStorage.getInvoice id d) = Ok (Some inv) -> Db.has_invoice id d = true.
Proof.
  unfold DatabaseStorage.getInvoice, gets, Db.has_invoice. cbn [fst].
  intros H. injection H as H. apply first_select_some in H as [Hin Hc].
  apply existsb_exists. exists inv. split; assumption.
Qed.

(** What [recalculateInvoiceTotals] leaves behind: it touches the invoices
    only, keeps the discount and the rate of the invoice, and the row it
    recomputed holds the totals of the items, as the columns keep them. *)
Lemma recalculateInvoiceTotals_spec (now invoiceId : Z) (d : Db.t) :
  exists d',
    DatabaseStorage.recalculateInvoiceTotals now invoiceId d = (Ok tt, d')
    /\ Db.invoiceItems d' = Db.invoiceItems d
    /\ (forall inv, fst (DatabaseStorage.getInvoice invoiceId d) = Ok (Some inv) ->
        exists inv',
          fst (DatabaseStorage.getInvoice invoiceId d') = Ok (Some inv')
          /\ Invoice.discount inv' = Invoice.discount inv
          /\ Invoice.taxRate inv' = Invoice.taxRate inv)
    /\ (forall inv', fst (DatabaseStorage.getInvoice invoiceId d') = Ok (Some inv') ->
          to_the_cent (number_or_zero (Invoice.tax inv'))
            ((sum_amounts (items_of invoiceId d)
              - number_or_zero (Invoice.discount inv'))
             * number_or_zero (Invoice.taxRate inv') / 100)%Q)
    /\ (item_amounts_in_cents d ->
        forall inv', fst (DatabaseStorage.getInvoice invoiceId d') = Ok (Some inv') ->
          invoice_totals_to_the_cent d' inv').
Proof.
  unfold DatabaseStorage.recalculateInvoiceTotals, bind, DatabaseStorage.getInvoice,
    DatabaseStorage.getInvoiceItems, gets, modify.
  destruct (Table.first (Table.select (fun i => Invoice.id i =? invoiceId)
                           (Db.invoices d))) as [invoice|] eqn:Hinv.
  - eexists. split; [reflexivity|]. split; [reflexivity|].
    cbn [fst Db.invoices Db.on_invoices].
    rewrite first_select_update by reflexivity. rewrite Hinv. cbn [option_map].
    split.
    { intros inv H. injection H as <-. eexists.
      split; [reflexivity|]. split; reflexivity. }
    split.
    { intros inv' H. injection H as <-. unfold items_of.
      cbn [Invoice.set_totals Invoice.discount Invoice.tax Invoice.taxRate
           number_or_zero].
      eapply to_the_cent_comp; [|apply numeric2_to_the_cent].
      cbn [JS.toString JS.parseFloat]. unfold Table.select, sum_amounts.
      rewrite sum_by_fold_right, !parse_or_zero_number. reflexivity. }
    intros Hcents inv' H. injection H as <-.
    apply first_select_some in Hinv as [_ Hid]. apply Z.eqb_eq in Hid.
    unfold invoice_totals_to_the_cent, items_of.
    cbn [Invoice.id Invoice.set_totals Invoice.subtotal Invoice.discount
         Invoice.tax Invoice.taxRate Invoice.total Db.invoiceItems Db.on_invoices
         number_or_zero].
    rewrite Hid. unfold Table.select.
    set (items := filter (fun it => InvoiceItem.invoiceId it =? invoiceId)
                    (Db.invoiceItems d)).
    pose proof (sum_by_fold_right
      (fun item => JS.parseFloat (InvoiceItem.amount item)) items) as Hs.
    fold (sum_amounts items) in Hs.
    assert (Hc : cents (sum_amounts items)).
    { apply sum_amounts_cents.
      apply incl_Forall with (l1 := Db.invoiceItems d); [apply incl_filter|].
      exact Hcents. }
    split; [|split].
    + rewrite numeric2_of_cents; [exact Hs|].
      apply (cents_comp (sum_amounts items)); [|exact Hc].
      symmetry. exact Hs.
    + eapply to_the_cent_comp; [|apply numeric2_to_the_cent].
      cbn [JS.toString JS.parseFloat]. rewrite Hs, !parse_or_zero_number.
      reflexivity.
    + eapply to_the_cent_comp; [|apply numeric2_to_the_cent].
      cbn [JS.toString JS.parseFloat]. rewrite Hs, !parse_or_zero_number.
      reflexivity.
  - eexists. split; [reflexivity|]. split; [reflexivity|].
    cbn [fst]. rewrite Hinv. split; [intros inv' H; discriminate H|].
    split; [intros inv' H; discriminate H|].
    intros _ inv' H. discriminate H.
Qed.

Ltac use_recalculate :=
  match goal with
  | |- context [DatabaseStorage.recalculateInvoiceTotals ?n ?i ?s] =>
    let d' := fresh "d'" in
    let Hrun := fresh "Hrun" in
    let Hitems := fresh "Hitems" in
    let Hex := fresh "Hex" in
    let Hcons := fresh "Hcons" in
    destruct (recalculateInvoiceTotals_spec n i s)
      as [d' [Hrun [Hitems [Hex [_ Hcons]]]]];
    rewrite Hrun
  end.

(** With the tax at 17.5% and items of 0.10 and 0.20, the tax column holds
    0.05 and the total 0.35: the tax is not 17.5% of 0.30, which is
    0.0525. *)
Lemma rounded_tax_counterexample :
  exists d' inv',
    run_item_op 1 (CreateItem twenty_cents_item) fractional_tax_db = (Ok tt, d')
    /\ fst (DatabaseStorage.getInvoice 1 d') = Ok (Some inv')
    /\ Db.within_columns d' = true
    /\ (JS.parseFloat (Invoice.subtotal inv') == 3 # 10)%Q
    /\ (number_or_zero (Invoice.taxRate inv') == 35 # 2)%Q
    /\ (number_or_zero (Invoice.tax inv') == 5 # 100)%Q
    /\ (JS.parseFloat (Invoice.total inv') == 35 # 100)%Q
    /\ ~ invoice_totals_consistent d' inv'.
Proof.
  eexists. eexists. split; [vm_compute; reflexivity|].
  split; [vm_compute; reflexivity|].
  split; [vm_compute; reflexivity|].
  split; [vm_compute; reflexivity|].
  split; [vm_compute; reflexivity|].
  split; [vm_compute; reflexivity|].
  split; [vm_compute; reflexivity|].
  unfold invoice_totals_consistent. vm_compute.
  intros [_ [H _]]. discriminate H.
Qed.

(** C2 (as amended). After an invoice item is created, updated or deleted
    through [DatabaseStorage], with values that fit the columns, the
    operation has succeeded and the row of the recomputed invoice, whose
    discount and rate are as before, satisfies: stored subtotal = sum of the
    amounts of its items; the document discount is subtracted as an amount;
    stored tax = (subtotal - discount) * taxRate / 100 rounded to cents;
    stored total = (subtotal - discount) plus that tax as computed, rounded
    to cents. *)
Theorem invoice_totals_after_item_change
  (now : Z) (op : item_op) (d : Db.t) (invoiceId : Z) (inv : Invoice.t) :
  recomputed_invoice op d = Some invoiceId ->
  fst (DatabaseStorage.getInvoice invoiceId d) = Ok (Some inv) ->
  item_amounts_in_cents d ->
  Db.within_columns (snd (run_item_op now op d)) = true ->
  exists d' inv',
    run_item_op now op d = (Ok tt, d')
    /\ fst (DatabaseStorage.getInvoice invoiceId d') = Ok (Some inv')
    /\ Invoice.discount inv' = Invoice.discount inv
    /\ Invoice.taxRate inv' = Invoice.taxRate inv
    /\ invoice_totals_to_the_cent d' inv'.
Proof.
  destruct op as [item|id item|id]; cbn [recomputed_invoice run_item_op];
    intros Hop Hinv Hcents _.
  - injection Hop as <-.
    unfold DatabaseStorage.createInvoiceItem, bind, Db.insert_invoiceItem, ret.
    rewrite (has_invoice_get _ _ _ Hinv).
    use_recalculate. destruct (Hex inv Hinv) as [inv' [Hinv' [Hd Hr]]].
    exists d', inv'. split; [reflexivity|]. split; [exact Hinv'|].
    split; [exact Hd|]. split; [exact Hr|].
    apply Hcons; [|exact Hinv'].
    unfold item_amounts_in_cents. cbn [Db.invoiceItems].
    apply Forall_app. split; [exact Hcents|].
    constructor; [|constructor]. exact (proj1 (numeric2_to_the_cent _)).
  - unfold DatabaseStorage.updateInvoiceItem, bind, DatabaseStorage.getInvoiceItem,
      Db.update_invoiceItem, gets, modify, ret.
    destruct (match InvoiceItem.p_invoiceId item with
              | Some x => Db.has_invoice x d
              | None => true
              end) eqn:Href; [|discriminate Hop].
    destruct (Table.first (Table.select (fun it => InvoiceItem.id it =? id)
                             (Db.invoiceItems d))) as [existing|];
      [|discriminate Hop].
    injection Hop as <-. cbv beta. rewrite Href. cbn [negb].
    use_recalculate. destruct (Hex inv Hinv) as [inv' [Hinv' [Hd Hr]]].
    exists d', inv'. split; [reflexivity|]. split; [exact Hinv'|].
    split; [exact Hd|]. split; [exact Hr|].
    apply Hcons; [|exact Hinv'].
    unfold item_amounts_in_cents. cbn [Db.invoiceItems Db.on_invoiceItems].
    apply Forall_forall. intros r Hr'.
    unfold Table.update_where in Hr'. apply in_map_iff in Hr' as [r0 [<- Hr0]].
    destruct (InvoiceItem.id r0 =? id).
    + exact (proj1 (numeric2_to_the_cent _)).
    + revert r0 Hr0. apply Forall_forall. exact Hcents.
  - unfold DatabaseStorage.deleteInvoiceItem, bind, DatabaseStorage.getInvoiceItem,
      gets, modify.
    destruct (Table.first (Table.select (fun it => InvoiceItem.id it =? id)
                             (Db.invoiceItems d))) as [existing|];
      [|discriminate Hop].
    injection Hop as <-.
    use_recalculate. destruct (Hex inv Hinv) as [inv' [Hinv' [Hd Hr]]].
    exists d', inv'. split; [reflexivity|]. split; [exact Hinv'|].
    split; [exact Hd|]. split; [exact Hr|].
    apply Hcons; [|exact Hinv'].
    unfold item_amounts_in_cents. cbn [Db.invoiceItems Db.on_invoiceItems].
    apply incl_Forall with (l1 := Db.invoiceItems d); [apply incl_filter|].
    exact Hcents.
Qed.

(** Scenario A, run: amounts 20.00 and 4.50, subtotal 24.50, tax 4.90, total
    29.40. *)
Example scenario_a_totals :
  exists inv,
    fst (DatabaseStorage.getInvoice 1 scenario_a_done) = Ok (Some inv)
    /\ map (fun it => Qred (JS.parseFloat (InvoiceItem.amount it)))
         (Db.invoiceItems scenario_a_done) = [20; 9 # 2]%Q
    /\ Qred (JS.parseFloat (Invoice.subtotal inv)) = (49 # 2)%Q
    /\ Qred (number_or_zero (Invoice.tax inv)) = (49 # 10)%Q
    /\ Qred (JS.parseFloat (Invoice.total inv)) = (147 # 5)%Q.
Proof.
  eexists. split; [reflexivity|].
  repeat split; vm_compute; reflexivity.
Qed.

Lemma invoice_totals_after_item_change_witness :
  exists d' inv',
    run_item_op 1 (CreateItem twenty_cents_item) fractional_tax_db = (Ok tt, d')
    /\ fst (DatabaseStorage.getInvoice 1 d') = Ok (Some inv')
    /\ Invoice.discount inv' = None
    /\ Invoice.taxRate inv' = Some (JS.Str (35 # 2))
    /\ invoice_totals_to_the_cent d' inv'.
Proof.
  apply (invoice_totals_after_item_change 1 (CreateItem twenty_cents_item)
           fractional_tax_db 1
           (Invoice.mk 1 7 1 1 "GB" (JS.Str (1 # 10)) None (Some (JS.Str (2 # 100)))
              (Some (JS.Str (35 # 2))) (JS.Str (12 # 100)) 0)).
  - reflexivity.
  - reflexivity.
  - constructor; [exists 10; reflexivity|constructor].
  - vm_compute. reflexivity.
Defined.

(** ** Quotation totals *)





(** ** The in-memory store *)

Section JsMapFacts.
Context {V : Type}.

Lemma JsMap_get_replace (k : Z) (v : V) (m : JsMap.t V) :
  JsMap.has k m = true -> JsMap.get k (JsMap.replace k v m) = Some v.
Proof.
  unfold JsMap.get, JsMap.has.
  induction m as [|[k' v'] rest IH]; cbn; [discriminate|].
  destruct (k' =? k) eqn:E; cbn.
  - rewrite Z.eqb_refl. reflexivity.
  - rewrite E. exact IH.
Qed.

Lemma JsMap_get_append (k : Z) (v : V) (m : JsMap.t V) :
  JsMap.has k m = false -> JsMap.get k (m ++ [(k, v)])%list = Some v.
Proof.
  unfold JsMap.get, JsMap.has.
  induction m as [|[k' v'] rest IH]; cbn.
  - rewrite Z.eqb_refl. reflexivity.
  - destruct (k' =? k); cbn; [discriminate|exact IH].
Qed.

Lemma JsMap_get_set (k : Z) (v : V) (m : JsMap.t V) :
  JsMap.get k (JsMap.set k v m) = Some v.
Proof.
  unfold JsMap.set. destruct (JsMap.has k m) eqn:E.
  - apply JsMap_get_replace. exact E.
  - apply JsMap_get_append. exact E.
Qed.

End JsMapFacts.

(** What [MemStorage.recalculateInvoiceTotals] stores for an invoice that
    exists: the rate it looked up for the invoice's country, and the three
    totals through [toFixed(2)]. *)
Lemma mem_recalculateInvoiceTotals_spec (now invoiceId : Z) (s : Mem.t)
  (inv : Invoice.t) :
  fst (MemStorage.getInvoice invoiceId s) = Ok (Some inv) ->
  let sum := Table.sum_by (fun item => JS.parseFloat (InvoiceItem.amount item))
               (mem_items_of invoiceId s) in
  let taxable := (sum - number_or_zero (Invoice.discount inv))%Q in
  let rate := mem_default_rate (Invoice.country inv) s in
  exists s',
    MemStorage.recalculateInvoiceTotals now invoiceId s = (Ok tt, s')
    /\ Mem.invoiceItems s' = Mem.invoiceItems s
    /\ Mem.taxRates s' = Mem.taxRates s
    /\ fst (MemStorage.getInvoice invoiceId s')
       = Ok (Some (Invoice.set_totals_rate
                     (JS.toFixed2 sum)
                     (JS.toFixed2 (taxable * (rate / 100)))
                     (JS.toString rate)
                     (JS.toFixed2 (taxable + taxable * (rate / 100)))
                     now inv)).
Proof.
  unfold MemStorage.recalculateInvoiceTotals, bind, MemStorage.getInvoice,
    MemStorage.getInvoiceItems, MemStorage.getDefaultTaxRate, gets, modify.
  cbn [fst]. intros Hinv. injection Hinv as Hinv. rewrite Hinv.
  eexists. split; [reflexivity|]. split; [reflexivity|]. split; [reflexivity|].
  cbn [fst Mem.invoices Mem.on_invoices]. rewrite JsMap_get_set.
  unfold mem_default_rate, mem_items_of, parse_or_zero_str, number_or_zero.
  destruct (find _ (JsMap.values (Mem.taxRates s))); reflexivity.
Qed.

(** ** Which tax rate a recomputation applies *)




(** ** Document updates and the derived fields *)

Lemma updateInvoice_counterexample :
  (exists inv,
     fst (DatabaseStorage.getInvoice 1 scenario_a_done) = Ok (Some inv)
     /\ invoice_totals_to_the_cent scenario_a_done inv)
  /\ exists d' inv',
       DatabaseStorage.updateInvoice 3 1 discount_patch scenario_a_done
       = (Ok (Some inv'), d')
       /\ (number_or_zero (Invoice.discount inv') == 9 # 2)%Q
       /\ (number_or_zero (Invoice.tax inv') == 49 # 10)%Q
       /\ (JS.parseFloat (Invoice.total inv') == 147 # 5)%Q
       /\ ~ invoice_totals_to_the_cent d' inv'.
Proof.
  split.
  - eexists. split; [vm_compute; reflexivity|].
    unfold invoice_totals_to_the_cent, to_the_cent.
    split; [vm_compute; reflexivity|]. split.
    + split; [exists 490; vm_compute; reflexivity|].
      vm_compute. split; discriminate.
    + split; [exists 2940; vm_compute; reflexivity|].
      vm_compute. split; discriminate.
  - eexists. eexists. split; [vm_compute; reflexivity|].
    split; [vm_compute; reflexivity|]. split; [vm_compute; reflexivity|].
    split; [vm_compute; reflexivity|].
    unfold invoice_totals_to_the_cent, to_the_cent.
    intros [_ [[_ [_ H]] _]]. vm_compute in H. apply H. reflexivity.
Qed.

Lemma column_keeps_numeric2 (given : option JS.numeric) :
  column_keeps (Pg.numeric2_opt given) given.
Proof.
  destruct given as [x|]; cbn; [|reflexivity].
  eexists. split; [reflexivity|]. apply numeric2_to_the_cent.
Qed.

(** C8 (as amended). [updateInvoice] and [updateQuotation] with a patch
    that carries a discount, a tax rate or both do not recompute: the stored
    subtotal, tax and total stay what they were, whatever discount or tax
    rate the patch brings, and the items are untouched.  On an invoice the
    discount and the rate of the patch are in their columns afterwards, to
    two decimals.  The invoice and the quotation are in stores independent
    of each other. *)
Theorem document_update_keeps_stored_totals (now : Z) (d dq : Db.t)
  (id : Z) (patch : Invoice.patch) (inv : Invoice.t)
  (qid : Z) (qpatch : Quotation.patch) (q : Quotation.t) :
  fst (DatabaseStorage.getInvoice id d) = Ok (Some inv) ->
  discount_and_rate_only patch ->
  Db.within_columns (snd (DatabaseStorage.updateInvoice now id patch d)) = true ->
  fst (QuotationStorage.getQuotation qid dq) = Ok (Some q) ->
  quotation_discount_and_rate_only qpatch ->
  (exists d' inv',
     DatabaseStorage.updateInvoice now id patch d = (Ok (Some inv'), d')
     /\ fst (DatabaseStorage.getInvoice id d') = Ok (Some inv')
     /\ Invoice.subtotal inv' = Invoice.subtotal inv
     /\ Invoice.tax inv' = Invoice.tax inv
     /\ Invoice.total inv' = Invoice.total inv
     /\ patched_column (Invoice.discount inv') (Invoice.discount inv)
          (Invoice.p_discount patch)
     /\ patched_column (Invoice.taxRate inv') (Invoice.taxRate inv)
          (Invoice.p_taxRate patch)
     /\ Db.invoiceItems d' = Db.invoiceItems d)
  /\ (exists d' q',
        QuotationStorage.updateQuotation now qid qpatch dq = (Ok (Some q'), d')
        /\ fst (QuotationStorage.getQuotation qid d') = Ok (Some q')
        /\ Quotation.subtotal q' = Quotation.subtotal q
        /\ Quotation.tax q' = Quotation.tax q
        /\ Quotation.total q' = Quotation.total q
        /\ Db.quotationItems d' = Db.quotationItems dq).
Proof.
  intros Hinv [Hp1 [Hp2 [Hp3 [Hp4 [Hp5 Hp6]]]]] _ Hq [Hq1 [Hq2 [Hq3 Hq4]]]. split.
  - assert (Hget : fst (DatabaseStorage.getInvoice id
               (Db.on_invoices
                  (Table.update_where (fun i => Invoice.id i =? id)
                     (Invoice.apply patch now)) d))
             = Ok (Some (Invoice.apply patch now inv))).
    { unfold DatabaseStorage.getInvoice, gets in *. cbn [fst] in *.
      cbn [Db.invoices Db.on_invoices].
      rewrite first_select_update by reflexivity.
      injection Hinv as ->. reflexivity. }
    eexists. exists (Invoice.apply patch now inv). split.
    { unfold DatabaseStorage.updateInvoice, bind, Db.update_invoice,
        Db.invoice_patch_refusal.
      rewrite (has_invoice_get _ _ _ Hinv), Hp1, Hp2, Hp4, Hp6. cbn [andb].
      unfold DatabaseStorage.getInvoice, gets in *.
      cbn [fst Db.invoices Db.on_invoices] in *.
      injection Hget as Hget. rewrite Hget. reflexivity. }
    split; [exact Hget|].
    unfold Invoice.apply.
    cbn [Invoice.subtotal Invoice.tax Invoice.total Invoice.discount Invoice.taxRate].
    rewrite Hp4, Hp5, Hp6.
    split; [reflexivity|]. split; [reflexivity|]. split; [reflexivity|].
    split; [|split; [|reflexivity]]; unfold patched_column.
    + destruct (Invoice.p_discount patch); [apply column_keeps_numeric2|reflexivity].
    + destruct (Invoice.p_taxRate patch); [apply column_keeps_numeric2|reflexivity].
  - assert (Hget : fst (QuotationStorage.getQuotation qid
               (Db.on_quotations
                  (Table.update_where (fun x => Quotation.id x =? qid)
                     (Quotation.apply qpatch now)) dq))
             = Ok (Some (Quotation.apply qpatch now q))).
    { unfold QuotationStorage.getQuotation, gets in *. cbn [fst] in *.
      cbn [Db.quotations Db.on_quotations].
      rewrite first_select_update by reflexivity.
      injection Hq as ->. reflexivity. }
    eexists. exists (Quotation.apply qpatch now q). split.
    { unfold QuotationStorage.updateQuotation, bind, modify.
      unfold QuotationStorage.getQuotation, gets in *.
      cbn [fst Db.quotations Db.on_quotations] in *.
      injection Hget as Hget. rewrite Hget. reflexivity. }
    split; [exact Hget|].
    unfold Quotation.apply. cbn [Quotation.subtotal Quotation.tax Quotation.total].
    rewrite Hq1, Hq2, Hq3. repeat split; reflexivity.
Qed.

Lemma document_update_keeps_stored_totals_witness :
  (exists d' inv',
     DatabaseStorage.updateInvoice 9 1 discount_patch unrated_invoice_db
     = (Ok (Some inv'), d')
     /\ fst (DatabaseStorage.getInvoice 1 d') = Ok (Some inv')
     /\ Invoice.subtotal inv' = Invoice.subtotal unrated_invoice
     /\ Invoice.tax inv' = Invoice.tax unrated_invoice
     /\ Invoice.total inv' = Invoice.total unrated_invoice
     /\ patched_column (Invoice.discount inv') (Invoice.discount unrated_invoice)
          (Invoice.p_discount discount_patch)
     /\ patched_column (Invoice.taxRate inv') (Invoice.taxRate unrated_invoice)
          (Invoice.p_taxRate discount_patch)
     /\ Db.invoiceItems d' = Db.invoiceItems unrated_invoice_db)
  /\ (exists d' q',
        QuotationStorage.updateQuotation 9 1 quotation_discount_patch
          discounted_quotation_db = (Ok (Some q'), d')
        /\ fst (QuotationStorage.getQuotation 1 d') = Ok (Some q')
        /\ Quotation.subtotal q' = Quotation.subtotal discounted_quotation
        /\ Quotation.tax q' = Quotation.tax discounted_quotation
        /\ Quotation.total q' = Quotation.total discounted_quotation
        /\ Db.quotationItems d' = Db.quotationItems discounted_quotation_db).
Proof.
  apply (document_update_keeps_stored_totals 9 unrated_invoice_db
           discounted_quotation_db
           1 discount_patch unrated_invoice
           1 quotation_discount_patch discounted_quotation).
  - reflexivity.
  - unfold discount_and_rate_only. simpl. repeat split; reflexivity.
  - vm_compute. reflexivity.
  - reflexivity.
  - unfold quotation_discount_and_rate_only. simpl. repeat split; reflexivity.
Defined.

(** ** Patches that carry a zero *)








(** The amount kept in the example is 27.00, not 0: 3 * 10.00 less 10%. *)
Example zero_quantity_keeps_27 :
  option_map (fun it => (InvoiceItem.quantity it,
                         Qred (JS.parseFloat (InvoiceItem.amount it))))
    (JsMap.get 1 (Mem.invoiceItems
       (snd (MemStorage.updateInvoiceItem 5 1 zero_quantity_patch stored_item_mem))))
  = Some (JS.Num 0, 27%Q).
Proof. vm_compute. reflexivity. Qed.

(** The string "0" is truthy: the same patch with the quantity spelled as
    a string is taken at its word, and the amount becomes 0. *)
Example string_zero_quantity_is_used :
  option_map (fun it => (InvoiceItem.quantity it,
                         Qred (JS.parseFloat (InvoiceItem.amount it))))
    (JsMap.get 1 (Mem.invoiceItems
       (snd (MemStorage.updateInvoiceItem 5 1
               (InvoiceItem.mkPatch None None (Some (JS.Str 0)) None None)
               stored_item_mem))))
  = Some (JS.Str 0, 0%Q).
Proof. vm_compute. reflexivity. Qed.

(** In [QuotationStorage.updateQuotationItem] the discount does not go
    through [||]: a zero discount is applied. *)
Example quotation_zero_discount_is_used :
  option_map (fun it => Qred (JS.parseFloat (QuotationItem.amount it)))
    (Table.first (Table.select (fun it => QuotationItem.id it =? 1)
       (Db.quotationItems
          (snd (QuotationStorage.updateQuotationItem 5 1
                  (QuotationItem.mkPatch None None None (Some (Some (JS.Num 0))))
                  stored_qitem_db)))))
  = Some 30%Q.
Proof. vm_compute. reflexivity. Qed.

(** ** Item amounts *)

(** [QuotationStorage.createQuotationItem] never gets to its insert. *)
Lemma createQuotationItem_throws (now : Z) (item : QuotationItem.insert) (d : Db.t) :
  QuotationStorage.createQuotationItem now item d
  = (Throw "ReferenceError: updatedFields is not defined", d).
Proof. reflexivity. Qed.


(** * Further properties of the storage code *)

(** ** Deleting invoices and clients *)

Lemma in_delete_where {A : Type} (c : A -> bool) (rows : list A) (r : A) :
  In r (Table.delete_where c rows) <-> In r rows /\ c r = false.
Proof.
  unfold Table.delete_where. rewrite filter_In, negb_true_iff. reflexivity.
Qed.

(** X1. [deleteInvoice] of an invoice that exists takes the items of the
    invoice with it: neither the invoice nor any item of it is left, every
    other invoice and item is kept, and a store whose items all belonged to an
    invoice stays so. *)
Theorem deleteInvoice_cascades (id : Z) (d : Db.t) (inv : Invoice.t) :
  no_orphan_items d ->
  fst (DatabaseStorage.getInvoice id d) = Ok (Some inv) ->
  exists d',
    DatabaseStorage.deleteInvoice id d = (Ok tt, d')
    /\ no_orphan_items d'
    /\ fst (DatabaseStorage.getInvoice id d') = Ok None
    /\ fst (DatabaseStorage.getInvoiceItems id d') = Ok []
    /\ (forall i, In i (Db.invoices d') <-> In i (Db.invoices d) /\ Invoice.id i <> id)
    /\ (forall it, In it (Db.invoiceItems d')
                   <-> In it (Db.invoiceItems d) /\ InvoiceItem.invoiceId it <> id).
Proof.
  intros Horph Hinv.
  unfold DatabaseStorage.deleteInvoice, bind, modify.
  unfold DatabaseStorage.getInvoice, gets in *. cbn [fst] in *.
  injection Hinv as Hinv. rewrite Hinv.
  eexists. split; [reflexivity|].
  cbn [Db.invoices Db.invoiceItems Db.on_invoices Db.on_invoiceItems fst].
  assert (Hi : forall i, In i (Table.delete_where (fun i => Invoice.id i =? id)
                                 (Db.invoices d))
                         <-> In i (Db.invoices d) /\ Invoice.id i <> id).
  { intros i. rewrite in_delete_where, Z.eqb_neq. reflexivity. }
  assert (Ht : forall it, In it (Table.delete_where
                                   (fun it => InvoiceItem.invoiceId it =? id)
                                   (Db.invoiceItems d))
                          <-> In it (Db.invoiceItems d)
                              /\ InvoiceItem.invoiceId it <> id).
  { intros it. rewrite in_delete_where, Z.eqb_neq. reflexivity. }
  split; [|split; [|split; [|split]]].
  - intros it Hit. cbn [Db.invoices Db.invoiceItems Db.on_invoices
                        Db.on_invoiceItems] in *.
    apply Ht in Hit as [Hit Hne].
    destruct (Horph it Hit) as [i [Hin Hid]].
    exists i. split; [|exact Hid]. apply Hi. split; [exact Hin|]. congruence.
  - destruct (Table.first (Table.select (fun i => Invoice.id i =? id)
               (Table.delete_where (fun i => Invoice.id i =? id) (Db.invoices d))))
      as [i|] eqn:E; [|reflexivity].
    apply first_select_some in E as [Hin Hid]. apply Hi in Hin as [_ Hne].
    apply Z.eqb_eq in Hid. contradiction.
  - unfold DatabaseStorage.getInvoiceItems, gets.
    cbn [fst Db.invoiceItems Db.on_invoices Db.on_invoiceItems].
    destruct (Table.select (fun it => InvoiceItem.invoiceId it =? id)
               (Table.delete_where (fun it => InvoiceItem.invoiceId it =? id)
                  (Db.invoiceItems d))) as [|it l] eqn:E; [reflexivity|].
    assert (Hin : In it (Table.select (fun it => InvoiceItem.invoiceId it =? id)
               (Table.delete_where (fun it => InvoiceItem.invoiceId it =? id)
                  (Db.invoiceItems d)))) by (rewrite E; left; reflexivity).
    apply filter_In in Hin as [Hin Hid]. apply Ht in Hin as [_ Hne].
    apply Z.eqb_eq in Hid. contradiction.
  - exact Hi.
  - exact Ht.
Qed.

Lemma deleteInvoice_cascades_witness :
  exists d',
    DatabaseStorage.deleteInvoice 1 one_invoice_db = (Ok tt, d')
    /\ no_orphan_items d'
    /\ fst (DatabaseStorage.getInvoice 1 d') = Ok None
    /\ fst (DatabaseStorage.getInvoiceItems 1 d') = Ok []
    /\ (forall i, In i (Db.invoices d')
                  <-> In i (Db.invoices one_invoice_db) /\ Invoice.id i <> 1)
    /\ (forall it, In it (Db.invoiceItems d')
                   <-> In it (Db.invoiceItems one_invoice_db)
                       /\ InvoiceItem.invoiceId it <> 1).
Proof.
  eapply (deleteInvoice_cascades 1 one_invoice_db).
  - intros it [<-|[]]. eexists. split; [left; reflexivity|reflexivity].
  - reflexivity.
Defined.

(** X2. [deleteClient] succeeds exactly when the client exists and no invoice
    names it; then the rows of that id, and only they, leave the clients
    table; otherwise the store is untouched. No other table changes. *)
Theorem deleteClient_outcome (id : Z) (d : Db.t) :
  let r := fst (DatabaseStorage.deleteClient id d) in
  let d' := snd (DatabaseStorage.deleteClient id d) in
  (r = Ok tt <->
   (exists c, In c (Db.clients d) /\ Client.id c = id)
   /\ (forall inv, In inv (Db.invoices d) -> Invoice.clientId inv <> id))
  /\ (r = Ok tt ->
      forall c, In c (Db.clients d') <-> In c (Db.clients d) /\ Client.id c <> id)
  /\ (r <> Ok tt -> d' = d)
  /\ Db.invoices d' = Db.invoices d
  /\ Db.companyProfiles d' = Db.companyProfiles d.
Proof.
  unfold DatabaseStorage.deleteClient, bind, DatabaseStorage.getClient, gets, modify.
  destruct (Table.first (Table.select (fun c => Client.id c =? id) (Db.clients d)))
    as [c|] eqn:Hc.
  - apply first_select_some in Hc as [Hcin Hcid]. apply Z.eqb_eq in Hcid.
    rewrite first_limit_1.
    destruct (Table.first (Table.select (fun i => Invoice.clientId i =? id)
                             (Db.invoices d))) as [inv|] eqn:Hi; cbn.
    + apply first_select_some in Hi as [Hiin Hiid]. apply Z.eqb_eq in Hiid.
      split; [|split; [|split; [|split]]]; try reflexivity; try discriminate.
      split; [discriminate|]. intros [_ Hno]. exfalso. exact (Hno inv Hiin Hiid).
    + split; [|split; [|split; [|split]]]; try reflexivity.
      * split; [|reflexivity]. intros _. split.
        -- exists c. split; assumption.
        -- intros inv Hin Heq.
           pose proof (first_select_none _ _ Hi inv Hin) as Hf. cbn in Hf.
           apply Z.eqb_neq in Hf. contradiction.
      * intros _ c0. rewrite in_delete_where, Z.eqb_neq. reflexivity.
      * intros H. contradiction H. reflexivity.
  - cbn. split; [|split; [|split; [|split]]]; try reflexivity; try discriminate.
    split; [discriminate|]. intros [[c [Hin Hid]] _]. exfalso.
    pose proof (first_select_none _ _ Hc c Hin) as Hf. cbn in Hf.
    apply Z.eqb_neq in Hf. contradiction.
Qed.

Lemma deleteClient_run (id : Z) (d : Db.t) (c : Client.t) :
  In c (Db.clients d) -> Client.id c = id ->
  (forall inv, In inv (Db.invoices d) -> Invoice.clientId inv <> id) ->
  DatabaseStorage.deleteClient id d
  = (Ok tt, Db.on_clients (Table.delete_where (fun c => Client.id c =? id)) d).
Proof.
  intros Hc Hid Hfree.
  unfold DatabaseStorage.deleteClient, bind, DatabaseStorage.getClient, gets, modify.
  destruct (first_select_hit (fun c => Client.id c =? id) (Db.clients d) c Hc)
    as [c' Hc']; [apply Z.eqb_eq; exact Hid|].
  rewrite Hc', first_limit_1.
  destruct (Table.first (Table.select (fun i => Invoice.clientId i =? id)
                           (Db.invoices d))) as [inv|] eqn:Hi; [|reflexivity].
  apply first_select_some in Hi as [Hiin Hiid]. apply Z.eqb_eq in Hiid.
  exfalso. exact (Hfree inv Hiin Hiid).
Qed.

(** X3. Once the only invoice that names a client is deleted, the client can
    be deleted. *)
Theorem deleteClient_after_deleteInvoice (invoiceId clientId : Z) (d : Db.t)
  (inv : Invoice.t) (c : Client.t) :
  fst (DatabaseStorage.getInvoice invoiceId d) = Ok (Some inv) ->
  In c (Db.clients d) -> Client.id c = clientId ->
  (forall i, In i (Db.invoices d) -> Invoice.clientId i = clientId ->
             Invoice.id i = invoiceId) ->
  exists d' d'',
    DatabaseStorage.deleteInvoice invoiceId d = (Ok tt, d')
    /\ DatabaseStorage.deleteClient clientId d' = (Ok tt, d'')
    /\ fst (DatabaseStorage.getClient clientId d'') = Ok None.
Proof.
  intros Hinv Hc Hcid Honly.
  assert (Hrun : exists d', DatabaseStorage.deleteInvoice invoiceId d = (Ok tt, d')
            /\ Db.clients d' = Db.clients d
            /\ Db.invoices d'
               = Table.delete_where (fun i => Invoice.id i =? invoiceId) (Db.invoices d)).
  { unfold DatabaseStorage.deleteInvoice, bind, modify.
    unfold DatabaseStorage.getInvoice, gets in *. cbn [fst] in *.
    injection Hinv as Hinv. rewrite Hinv. eexists.
    split; [reflexivity|]. split; reflexivity. }
  destruct Hrun as [d' [Hrun [Hcl Hin]]].
  assert (Hdel : DatabaseStorage.deleteClient clientId d'
                 = (Ok tt,
                    Db.on_clients
                      (Table.delete_where (fun c => Client.id c =? clientId)) d')).
  { apply (deleteClient_run clientId d' c).
    - rewrite Hcl. exact Hc.
    - exact Hcid.
    - intros i Hi Heq. rewrite Hin in Hi. apply in_delete_where in Hi as [Hi Hne].
      apply Z.eqb_neq in Hne. apply Hne. apply Honly; assumption. }
  eexists. eexists. split; [exact Hrun|]. split; [exact Hdel|].
  unfold DatabaseStorage.getClient, gets, Db.on_clients. cbn [fst Db.clients].
  destruct (Table.first (Table.select (fun c0 => Client.id c0 =? clientId)
              (Table.delete_where (fun c0 => Client.id c0 =? clientId)
                 (Db.clients d')))) as [c0|] eqn:E; [|reflexivity].
  apply first_select_some in E as [Hc0 Hid0].
  apply in_delete_where in Hc0 as [_ Hne]. rewrite Hid0 in Hne. discriminate.
Qed.

Lemma deleteClient_after_deleteInvoice_witness :
  exists d' d'',
    DatabaseStorage.deleteInvoice 1 one_invoice_db = (Ok tt, d')
    /\ DatabaseStorage.deleteClient 1 d' = (Ok tt, d'')
    /\ fst (DatabaseStorage.getClient 1 d'') = Ok None.
Proof.
  eapply (deleteClient_after_deleteInvoice 1 1 one_invoice_db).
  - reflexivity.
  - left. reflexivity.
  - reflexivity.
  - intros i [<-|[]] _. reflexivity.
Defined.

(** ** The default company profile, looked up *)

(** The shape of a successful [deleteCompanyProfile]: the rows of the id are
    removed from the table, after at most a change of flag on other rows. *)
Lemma deleteCompanyProfile_shape (id : Z) (d : Db.t) :
  let r := fst (DatabaseStorage.deleteCompanyProfile id d) in
  let d' := snd (DatabaseStorage.deleteCompanyProfile id d) in
  (r = Ok tt <->
   (exists p, In p (Db.companyProfiles d) /\ CompanyProfile.id p = id)
   /\ (forall inv, In inv (Db.invoices d) -> Invoice.companyProfileId inv <> id))
  /\ (r = Ok tt ->
      exists f,
        (forall p, CompanyProfile.id (f p) = CompanyProfile.id p
                   /\ CompanyProfile.userId (f p) = CompanyProfile.userId p
                   /\ CompanyProfile.name (f p) = CompanyProfile.name p)
        /\ Db.companyProfiles d'
           = Table.delete_where (fun p => CompanyProfile.id p =? id)
               (map f (Db.companyProfiles d)))
  /\ (r <> Ok tt -> d' = d)
  /\ Db.invoices d' = Db.invoices d
  /\ Db.clients d' = Db.clients d.
Proof.
  unfold DatabaseStorage.deleteCompanyProfile, bind,
    DatabaseStorage.getCompanyProfile, gets, modify, when.
  destruct (Table.first (Table.select (fun p => CompanyProfile.id p =? id)
                           (Db.companyProfiles d))) as [p|] eqn:Hp.
  - apply first_select_some in Hp as [Hpin Hpid]. apply Z.eqb_eq in Hpid.
    rewrite first_limit_1.
    destruct (Table.first (Table.select (fun i => Invoice.companyProfileId i =? id)
                             (Db.invoices d))) as [inv|] eqn:Hi.
    + cbn. apply first_select_some in Hi as [Hiin Hiid]. apply Z.eqb_eq in Hiid.
      split; [|split; [|split; [|split]]]; try reflexivity; try discriminate.
      split; [discriminate|]. intros [_ Hno]. exfalso. exact (Hno inv Hiin Hiid).
    + assert (Hleft : (exists p0, In p0 (Db.companyProfiles d)
                                  /\ CompanyProfile.id p0 = id)
                      /\ (forall inv, In inv (Db.invoices d) ->
                                      Invoice.companyProfileId inv <> id)).
      { split; [exists p; split; assumption|].
        intros inv Hin Heq.
        pose proof (first_select_none _ _ Hi inv Hin) as Hf. cbn in Hf.
        apply Z.eqb_neq in Hf. contradiction. }
      destruct (CompanyProfile.is_default p);
        [destruct (Table.select
                     (fun p0 => (CompanyProfile.userId p0 =? CompanyProfile.userId p)
                                && negb (CompanyProfile.id p0 =? id))
                     (Db.companyProfiles d)) as [|o rest]|];
        cbn -[Table.delete_where Table.update_where];
        (split; [split; [intros _; exact Hleft|reflexivity]|]);
        (split; [|split; [intros H; contradiction H; reflexivity
                         |split; reflexivity]]); intros _.
      * exists (fun x => x). split; [intros; repeat split|].
        rewrite map_id. reflexivity.
      * exists (fun r => if CompanyProfile.id r =? CompanyProfile.id o
                         then CompanyProfile.set_isDefault (Some true) r else r).
        split; [|reflexivity].
        intros r. destruct (CompanyProfile.id r =? CompanyProfile.id o);
          repeat split.
      * exists (fun x => x). split; [intros; repeat split|].
        rewrite map_id. reflexivity.
  - cbn. split; [|split; [|split; [|split]]]; try reflexivity; try discriminate.
    split; [discriminate|]. intros [[p [Hin Hid]] _]. exfalso.
    pose proof (first_select_none _ _ Hp p Hin) as Hf. cbn in Hf.
    apply Z.eqb_neq in Hf. contradiction.
Qed.

(** X4. [deleteCompanyProfile] succeeds exactly when the profile exists and no
    invoice names it; then the keys left are the former keys but that one,
    owners and names being kept; otherwise the store is untouched. Invoices
    and clients never change. *)
Theorem deleteCompanyProfile_outcome (id : Z) (d : Db.t) :
  let r := fst (DatabaseStorage.deleteCompanyProfile id d) in
  let d' := snd (DatabaseStorage.deleteCompanyProfile id d) in
  (r = Ok tt <->
   (exists p, In p (Db.companyProfiles d) /\ CompanyProfile.id p = id)
   /\ (forall inv, In inv (Db.invoices d) -> Invoice.companyProfileId inv <> id))
  /\ (r = Ok tt ->
      forall k u n,
        (exists p, In p (Db.companyProfiles d')
                   /\ CompanyProfile.id p = k /\ CompanyProfile.userId p = u
                   /\ CompanyProfile.name p = n)
        <-> (exists p, In p (Db.companyProfiles d)
                       /\ CompanyProfile.id p = k /\ CompanyProfile.userId p = u
                       /\ CompanyProfile.name p = n) /\ k <> id)
  /\ (r <> Ok tt -> d' = d)
  /\ Db.invoices d' = Db.invoices d
  /\ Db.clients d' = Db.clients d.
Proof.
  pose proof (deleteCompanyProfile_shape id d) as H. cbv zeta in *.
  destruct H as [Hok [Hshape [Hfail [Hinv Hcl]]]].
  split; [exact Hok|]. split; [|split; [exact Hfail|split; assumption]].
  intros Hr k u n. destruct (Hshape Hr) as [f [Hf ->]]. split.
  - intros [p [Hin [Hk [Hu Hn]]]].
    apply in_delete_where in Hin as [Hin Hne].
    apply in_map_iff in Hin as [q [Hq Hqin]]. subst p.
    destruct (Hf q) as [Hfid [Hfu Hfn]]. split.
    + exists q. rewrite <- Hfid, <- Hfu, <- Hfn. repeat split; assumption.
    + apply Z.eqb_neq in Hne. congruence.
  - intros [[p [Hin [Hk [Hu Hn]]]] Hne].
    destruct (Hf p) as [Hfid [Hfu Hfn]].
    exists (f p). split; [|rewrite Hfid, Hfu, Hfn; repeat split; assumption].
    apply in_delete_where. split; [apply in_map; exact Hin|].
    apply Z.eqb_neq. congruence.
Qed.

Lemma default_lookup (u : Z) (ps : list CompanyProfile.t) :
  one_default_rows ps -> owns_row u ps ->
  exists p,
    Table.first (Table.select
      (fun p => (CompanyProfile.userId p =? u) && CompanyProfile.is_default p) ps)
    = Some p
    /\ default_profiles u ps = [p].
Proof.
  intros Hinv Hown. specialize (Hinv u Hown).
  unfold default_profiles, Table.select, Table.first in *.
  destruct (filter _ ps) as [|p [|q l]]; try discriminate.
  exists p. split; reflexivity.
Qed.

(** X5. In a store that satisfies the invariant, [getDefaultCompanyProfile]
    finds a profile exactly for the users who own one, and what it finds is a
    default profile of that user. *)
Theorem getDefaultCompanyProfile_finds (u : Z) (d : Db.t) :
  one_default_per_user d ->
  (owns_profile u d <->
   exists p, fst (DatabaseStorage.getDefaultCompanyProfile u d) = Ok (Some p))
  /\ forall p, fst (DatabaseStorage.getDefaultCompanyProfile u d) = Ok (Some p) ->
       In p (Db.companyProfiles d)
       /\ CompanyProfile.userId p = u
       /\ CompanyProfile.isDefault p = Some true.
Proof.
  intros Hinv.
  unfold DatabaseStorage.getDefaultCompanyProfile, gets. cbn [fst].
  assert (Hsome : forall p,
    Ok (Table.first (Table.select
          (fun p => (CompanyProfile.userId p =? u) && CompanyProfile.is_default p)
          (Db.companyProfiles d))) = Ok (A := option CompanyProfile.t) (Some p) ->
    In p (Db.companyProfiles d) /\ CompanyProfile.userId p = u
    /\ CompanyProfile.isDefault p = Some true).
  { intros p H. injection H as H. apply first_select_some in H as [Hin Hc].
    apply andb_true_iff in Hc as [Hu Hd]. apply Z.eqb_eq in Hu.
    split; [exact Hin|]. split; [exact Hu|].
    unfold CompanyProfile.is_default in Hd.
    destruct (CompanyProfile.isDefault p) as [[|]|]; try discriminate. reflexivity. }
  split; [|exact Hsome]. split.
  - intros Hown. destruct (default_lookup u _ Hinv Hown) as [p [Hp _]].
    exists p. rewrite Hp. reflexivity.
  - intros [p Hp]. destruct (Hsome p Hp) as [Hin [Hu _]].
    exists p. split; assumption.
Qed.

Lemma getDefaultCompanyProfile_finds_witness :
  (owns_profile 7 lone_default_db <->
   exists p, fst (DatabaseStorage.getDefaultCompanyProfile 7 lone_default_db)
             = Ok (Some p))
  /\ forall p, fst (DatabaseStorage.getDefaultCompanyProfile 7 lone_default_db)
               = Ok (Some p) ->
       In p (Db.companyProfiles lone_default_db)
       /\ CompanyProfile.userId p = 7
       /\ CompanyProfile.isDefault p = Some true.
Proof.
  apply (getDefaultCompanyProfile_finds 7 lone_default_db).
  apply lone_default_db_ok.
Defined.

(** X6. A user's first profile is the default, whatever flag the caller asked
    for: right after [createCompanyProfile], [getDefaultCompanyProfile]
    returns the profile just created. *)
Theorem first_profile_is_default (profile : CompanyProfile.insert) (d : Db.t) :
  profile_keys_ok d -> one_default_per_user d ->
  ~ owns_profile (CompanyProfile.i_userId profile) d ->
  exists p d',
    DatabaseStorage.createCompanyProfile profile d = (Ok p, d')
    /\ CompanyProfile.isDefault p = Some true
    /\ CompanyProfile.userId p = CompanyProfile.i_userId profile
    /\ CompanyProfile.name p = CompanyProfile.i_name profile
    /\ fst (DatabaseStorage.getDefaultCompanyProfile
              (CompanyProfile.i_userId profile) d') = Ok (Some p).
Proof.
  intros Hk Hinv Hnone.
  destruct (createCompanyProfile_keeps_one_default profile d Hk Hinv)
    as [p [d' [Hrun [Hin [_ Hinv']]]]].
  assert (Hfields : CompanyProfile.isDefault p = Some true
                    /\ CompanyProfile.userId p = CompanyProfile.i_userId profile
                    /\ CompanyProfile.name p = CompanyProfile.i_name profile).
  { revert Hrun.
    unfold DatabaseStorage.createCompanyProfile, bind,
      DatabaseStorage.getCompanyProfiles, gets.
    destruct (Table.select
                (fun p0 => CompanyProfile.userId p0 =? CompanyProfile.i_userId profile)
                (Db.companyProfiles d)) as [|x l] eqn:E.
    - cbn. intros H. injection H as <- _. repeat split.
    - exfalso. apply Hnone. exists x.
      assert (Hx : In x (Table.select
                (fun p0 => CompanyProfile.userId p0 =? CompanyProfile.i_userId profile)
                (Db.companyProfiles d))) by (rewrite E; left; reflexivity).
      apply filter_In in Hx as [Hx1 Hx2]. apply Z.eqb_eq in Hx2.
      split; assumption. }
  destruct Hfields as [Hdef [Hu Hn]].
  exists p, d'. split; [exact Hrun|]. split; [exact Hdef|].
  split; [exact Hu|]. split; [exact Hn|].
  assert (Hown : owns_row (CompanyProfile.i_userId profile) (Db.companyProfiles d')).
  { exists p. split; assumption. }
  destruct (default_lookup _ _ Hinv' Hown) as [q [Hq Hlist]].
  unfold DatabaseStorage.getDefaultCompanyProfile, gets. cbn [fst]. rewrite Hq.
  assert (Hp : In p (default_profiles (CompanyProfile.i_userId profile)
                       (Db.companyProfiles d'))).
  { apply filter_In. split; [exact Hin|].
    rewrite Hu, Z.eqb_refl. unfold CompanyProfile.is_default. rewrite Hdef.
    reflexivity. }
  rewrite Hlist in Hp. destruct Hp as [->|[]]. reflexivity.
Qed.

Lemma first_profile_is_default_witness :
  exists p d',
    DatabaseStorage.createCompanyProfile
      (CompanyProfile.mkInsert 9 "Umbrella" (Some false)) lone_default_db = (Ok p, d')
    /\ CompanyProfile.isDefault p = Some true
    /\ CompanyProfile.userId p = 9
    /\ CompanyProfile.name p = "Umbrella"
    /\ fst (DatabaseStorage.getDefaultCompanyProfile 9 d') = Ok (Some p).
Proof.
  apply (first_profile_is_default
           (CompanyProfile.mkInsert 9 "Umbrella" (Some false)) lone_default_db).
  - apply lone_default_db_ok.
  - apply lone_default_db_ok.
  - intros [p [[<-|[]] Hu]]. discriminate Hu.
Defined.

(** X7. Deleting a user's default profile hands the default over: when the
    profile is the default, no invoice names it and the user owns another
    profile, the deletion succeeds and [getDefaultCompanyProfile] then returns
    a profile of the same user other than the one deleted. *)
Theorem default_is_handed_over (id : Z) (d : Db.t) (p q : CompanyProfile.t) :
  profile_keys_ok d -> one_default_per_user d ->
  In p (Db.companyProfiles d) -> CompanyProfile.id p = id ->
  (forall inv, In inv (Db.invoices d) -> Invoice.companyProfileId inv <> id) ->
  In q (Db.companyProfiles d) ->
  CompanyProfile.userId q = CompanyProfile.userId p ->
  CompanyProfile.id q <> id ->
  exists d' q',
    DatabaseStorage.deleteCompanyProfile id d = (Ok tt, d')
    /\ fst (DatabaseStorage.getCompanyProfile id d') = Ok None
    /\ fst (DatabaseStorage.getDefaultCompanyProfile (CompanyProfile.userId p) d')
       = Ok (Some q')
    /\ CompanyProfile.userId q' = CompanyProfile.userId p
    /\ CompanyProfile.id q' <> id
    /\ exists q0, In q0 (Db.companyProfiles d)
                  /\ CompanyProfile.id q0 = CompanyProfile.id q'.
Proof.
  intros Hk Hinv Hp Hpid Hfree Hq Hqu Hqid.
  pose proof (deleteCompanyProfile_shape id d) as H. cbv zeta in H.
  destruct H as [Hok [Hshape _]].
  assert (Hr : fst (DatabaseStorage.deleteCompanyProfile id d) = Ok tt).
  { apply Hok. split; [exists p; split; assumption|exact Hfree]. }
  destruct (Hshape Hr) as [f [Hf Hrows]].
  destruct (deleteCompanyProfile_keeps_one_default id d Hk Hinv) as [_ Hinv'].
  set (d' := snd (DatabaseStorage.deleteCompanyProfile id d)) in *.
  assert (Hown : owns_row (CompanyProfile.userId p) (Db.companyProfiles d')).
  { exists (f q). destruct (Hf q) as [Hfid [Hfu _]]. split.
    - rewrite Hrows. apply in_delete_where. split; [apply in_map; exact Hq|].
      apply Z.eqb_neq. congruence.
    - congruence. }
  destruct (default_lookup _ _ Hinv' Hown) as [q' [Hq' _]].
  exists d', q'. split.
  { unfold d'. rewrite <- Hr.
    destruct (DatabaseStorage.deleteCompanyProfile id d); reflexivity. }
  split.
  { unfold DatabaseStorage.getCompanyProfile, gets. cbn [fst].
    destruct (Table.first (Table.select (fun x => CompanyProfile.id x =? id)
                (Db.companyProfiles d'))) as [x|] eqn:E; [|reflexivity].
    apply first_select_some in E as [Hx Hxid]. rewrite Hrows in Hx.
    apply in_delete_where in Hx as [_ Hne]. congruence. }
  split.
  { unfold DatabaseStorage.getDefaultCompanyProfile, gets. cbn [fst].
    rewrite Hq'. reflexivity. }
  apply first_select_some in Hq' as [Hin' Hc].
  apply andb_true_iff in Hc as [Hu' _]. apply Z.eqb_eq in Hu'.
  split; [exact Hu'|].
  rewrite Hrows in Hin'. apply in_delete_where in Hin' as [Hin' Hne].
  apply Z.eqb_neq in Hne. split; [exact Hne|].
  apply in_map_iff in Hin' as [q0 [Hq0 Hq0in]].
  exists q0. split; [exact Hq0in|]. rewrite <- Hq0. symmetry. apply Hf.
Qed.

Lemma default_is_handed_over_witness :
  exists d' q',
    DatabaseStorage.deleteCompanyProfile 1 (Db.on_invoices (fun _ => []) referenced_db)
    = (Ok tt, d')
    /\ fst (DatabaseStorage.getCompanyProfile 1 d') = Ok None
    /\ fst (DatabaseStorage.getDefaultCompanyProfile
              (CompanyProfile.userId (CompanyProfile.mk 1 7 "Acme" (Some true))) d')
       = Ok (Some q')
    /\ CompanyProfile.userId q'
       = CompanyProfile.userId (CompanyProfile.mk 1 7 "Acme" (Some true))
    /\ CompanyProfile.id q' <> 1
    /\ exists q0, In q0 (Db.companyProfiles
                          (Db.on_invoices (fun _ => []) referenced_db))
                  /\ CompanyProfile.id q0 = CompanyProfile.id q'.
Proof.
  apply (default_is_handed_over 1 (Db.on_invoices (fun _ => []) referenced_db)
           (CompanyProfile.mk 1 7 "Acme" (Some true))
           (CompanyProfile.mk 2 7 "Acme East" (Some false))).
  - split.
    + cbn. constructor; [intros [H|[]]; discriminate H|].
      constructor; [intros []|constructor].
    + repeat constructor.
  - intros u [x [Hx Hu]]. cbn in Hx.
    destruct Hx as [<-|[<-|[]]]; cbn in Hu; subst u; reflexivity.
  - left. reflexivity.
  - reflexivity.
  - intros inv [].
  - right. left. reflexivity.
  - reflexivity.
  - discriminate.
Defined.

(** ** Recomputing twice, and undoing an item *)

Lemma update_where_twice {A : Type} (c : A -> bool) (f g : A -> A) (rows : list A) :
  (forall r, c (f r) = c r) ->
  Table.update_where c g (Table.update_where c f rows)
  = Table.update_where c (fun r => g (f r)) rows.
Proof.
  intros Hc. unfold Table.update_where. rewrite map_map. apply map_ext.
  intros r. destruct (c r) eqn:E.
  - rewrite Hc, E. reflexivity.
  - rewrite E. reflexivity.
Qed.

Lemma update_where_ext {A : Type} (c : A -> bool) (f g : A -> A) (rows : list A) :
  (forall r, f r = g r) -> Table.update_where c f rows = Table.update_where c g rows.
Proof.
  intros H. unfold Table.update_where. apply map_ext.
  intros r. rewrite H. reflexivity.
Qed.

Lemma first_select_appended {A : Type} (c : A -> bool) (rows : list A) (x : A) :
  (forall r, In r rows -> c r = false) -> c x = true ->
  Table.first (Table.select c (rows ++ [x])) = Some x.
Proof.
  intros Hmiss Hx. unfold Table.select. rewrite filter_app.
  assert (Hnil : filter c rows = []).
  { induction rows as [|r l IH]; [reflexivity|].
    cbn. rewrite (Hmiss r (or_introl eq_refl)). apply IH.
    intros r0 Hr0. apply Hmiss. right. exact Hr0. }
  rewrite Hnil. cbn. rewrite Hx. reflexivity.
Qed.

(** A recomputation reads the invoices and the items, and writes the
    invoices. *)
Lemma recalculateInvoiceTotals_run (now invoiceId : Z) (d : Db.t) :
  DatabaseStorage.recalculateInvoiceTotals now invoiceId d
  = (Ok tt,
     Db.on_invoices
       (fun _ => recalculated now invoiceId (Db.invoiceItems d) (Db.invoices d)) d).
Proof.
  destruct d as [us ps cs invs items rates qs qis s1 s2].
  unfold recalculated, DatabaseStorage.recalculateInvoiceTotals, bind,
    DatabaseStorage.getInvoice, DatabaseStorage.getInvoiceItems, gets, modify, ret.
  cbn [Db.invoices Db.invoiceItems].
  destruct (Table.first (Table.select (fun i => Invoice.id i =? invoiceId) invs));
    reflexivity.
Qed.

(** A later recomputation overrides an earlier one, whatever items the
    earlier one saw. *)
Lemma recalculated_overrides (n1 n2 invoiceId : Z) (items items' : list InvoiceItem.t)
  (invs : list Invoice.t) :
  recalculated n2 invoiceId items (recalculated n1 invoiceId items' invs)
  = recalculated n2 invoiceId items invs.
Proof.
  unfold recalculated, DatabaseStorage.recalculateInvoiceTotals, bind,
    DatabaseStorage.getInvoice, DatabaseStorage.getInvoiceItems, gets, modify, ret.
  cbn [Db.invoices Db.invoiceItems fst snd].
  destruct (Table.first (Table.select (fun i => Invoice.id i =? invoiceId) invs))
    as [invoice|] eqn:E.
  - cbn [snd Db.invoices Db.on_invoices Db.invoiceItems].
    rewrite first_select_update by reflexivity. rewrite E. cbn [option_map].
    cbn [snd Db.invoices Db.on_invoices Db.invoiceItems Invoice.discount
         Invoice.taxRate Invoice.set_totals].
    rewrite update_where_twice by reflexivity.
    apply update_where_ext. intros r. reflexivity.
  - cbn [snd Db.invoices]. rewrite E. reflexivity.
Qed.


(** X9. Creating an item for a stored invoice and deleting it again, with
    values that fit the columns, gives the items table back, and the invoice
    the totals a plain recomputation would give it. *)
Theorem create_then_delete_item (n1 n2 : Z) (item : InvoiceItem.insert) (d : Db.t) :
  item_keys_below d ->
  Db.has_invoice (InvoiceItem.i_invoiceId item) d = true ->
  Db.within_columns (snd (DatabaseStorage.createInvoiceItem n1 item d)) = true ->
  Db.within_columns
    (snd (DatabaseStorage.deleteInvoiceItem n2 (Db.invoiceItems_id_seq d)
            (snd (DatabaseStorage.createInvoiceItem n1 item d)))) = true ->
  exists newItem d1 d2,
    DatabaseStorage.createInvoiceItem n1 item d = (Ok newItem, d1)
    /\ DatabaseStorage.deleteInvoiceItem n2 (InvoiceItem.id newItem) d1 = (Ok tt, d2)
    /\ Db.invoiceItems d2 = Db.invoiceItems d
    /\ Db.invoices d2
       = Db.invoices (snd (DatabaseStorage.recalculateInvoiceTotals n2
                             (InvoiceItem.i_invoiceId item) d)).
Proof.
  intros Hkeys Hhas _ _. unfold item_keys_below in Hkeys.
  assert (Hmiss : forall it, In it (Db.invoiceItems d) ->
            (InvoiceItem.id it =? Db.invoiceItems_id_seq d) = false).
  { intros it Hit. rewrite Forall_forall in Hkeys. specialize (Hkeys it Hit).
    apply Z.eqb_neq. lia. }
  unfold DatabaseStorage.createInvoiceItem, bind, Db.insert_invoiceItem, ret.
  rewrite Hhas. rewrite recalculateInvoiceTotals_run.
  eexists. eexists. eexists. split; [reflexivity|].
  cbn [InvoiceItem.id InvoiceItem.of_insert InvoiceItem.in_columns].
  unfold DatabaseStorage.deleteInvoiceItem, bind, DatabaseStorage.getInvoiceItem,
    gets, modify.
  cbn [Db.invoiceItems Db.invoices Db.on_invoices Db.on_invoiceItems].
  rewrite first_select_appended; [|exact Hmiss|apply Z.eqb_refl].
  rewrite recalculateInvoiceTotals_run.
  split; [reflexivity|].
  cbn [Db.invoiceItems Db.invoices Db.on_invoices InvoiceItem.invoiceId
       InvoiceItem.of_insert InvoiceItem.in_columns snd].
  unfold Db.on_invoiceItems, Db.on_invoices.
  cbn [Db.invoiceItems Db.invoices].
  rewrite delete_where_app, (delete_where_miss _ _ Hmiss), delete_where_cons.
  cbn [InvoiceItem.id]. rewrite Z.eqb_refl. cbn [Table.delete_where filter].
  rewrite app_nil_r. split; [reflexivity|].
  rewrite recalculated_overrides, recalculateInvoiceTotals_run. reflexivity.
Qed.

Lemma create_then_delete_item_witness :
  exists newItem d1 d2,
    DatabaseStorage.createInvoiceItem 5 scenario_a_item1 one_invoice_db = (Ok newItem, d1)
    /\ DatabaseStorage.deleteInvoiceItem 6 (InvoiceItem.id newItem) d1 = (Ok tt, d2)
    /\ Db.invoiceItems d2 = Db.invoiceItems one_invoice_db
    /\ Db.invoices d2
       = Db.invoices (snd (DatabaseStorage.recalculateInvoiceTotals 6
                             (InvoiceItem.i_invoiceId scenario_a_item1) one_invoice_db)).
Proof.
  apply (create_then_delete_item 5 6 scenario_a_item1 one_invoice_db).
  - repeat constructor.
  - reflexivity.
  - vm_compute. reflexivity.
  - vm_compute. reflexivity.
Defined.

(** X10. Recomputing the totals of a quotation a second time changes nothing
    but the time stamp; when the quotation is not stored both runs throw
    without a write. *)
Theorem recalculateQuotationTotals_idempotent (n1 n2 quotationId : Z) (d : Db.t) :
  QuotationStorage.recalculateQuotationTotals n2 quotationId
    (snd (QuotationStorage.recalculateQuotationTotals n1 quotationId d))
  = QuotationStorage.recalculateQuotationTotals n2 quotationId d.
Proof.
  destruct d as [us ps cs invs items rates qs qis s1 s2].
  unfold QuotationStorage.recalculateQuotationTotals, bind,
    QuotationStorage.getQuotation, QuotationStorage.getQuotationItems,
    gets, modify, throw.
  cbn [Db.quotations Db.quotationItems].
  destruct (Table.first (Table.select (fun q => Quotation.id q =? quotationId) qs))
    as [quotation|] eqn:E.
  - cbn [snd Db.quotations Db.quotationItems Db.on_quotations].
    rewrite first_select_update by reflexivity. rewrite E. cbn [option_map].
    cbn [Quotation.discount Quotation.taxRate Quotation.set_totals
         Db.on_quotations Db.quotations Db.quotationItems Db.users
         Db.companyProfiles Db.clients Db.invoices Db.invoiceItems Db.taxRates
         Db.companyProfiles_id_seq Db.invoiceItems_id_seq].
    unfold Db.on_quotations.
    cbn [Db.quotations Db.quotationItems Db.users
         Db.companyProfiles Db.clients Db.invoices Db.invoiceItems Db.taxRates
         Db.companyProfiles_id_seq Db.invoiceItems_id_seq].
    rewrite update_where_twice by reflexivity. reflexivity.
  - cbn [snd Db.quotations]. rewrite E. reflexivity.
Qed.

Section JsMapSet.
Context {V : Type}.

Lemma JsMap_has_replace (k : Z) (v : V) (m : JsMap.t V) :
  JsMap.has k (JsMap.replace k v m) = JsMap.has k m.
Proof.
  unfold JsMap.has.
  induction m as [|[k' v'] rest IH]; [reflexivity|].
  cbn. destruct (k' =? k) eqn:E; cbn.
  - rewrite Z.eqb_refl. reflexivity.
  - rewrite E. exact IH.
Qed.

Lemma JsMap_replace_replace (k : Z) (v1 v2 : V) (m : JsMap.t V) :
  JsMap.replace k v2 (JsMap.replace k v1 m) = JsMap.replace k v2 m.
Proof.
  induction m as [|[k' v'] rest IH]; [reflexivity|].
  cbn. destruct (k' =? k) eqn:E; cbn.
  - rewrite Z.eqb_refl. reflexivity.
  - rewrite E, IH. reflexivity.
Qed.

Lemma JsMap_replace_appended (k : Z) (v1 v2 : V) (m : JsMap.t V) :
  JsMap.has k m = false ->
  JsMap.replace k v2 (m ++ [(k, v1)])%list = (m ++ [(k, v2)])%list.
Proof.
  unfold JsMap.has.
  induction m as [|[k' v'] rest IH]; cbn.
  - rewrite Z.eqb_refl. reflexivity.
  - destruct (k' =? k); cbn; [discriminate|]. intros H. rewrite IH by exact H.
    reflexivity.
Qed.

Lemma JsMap_has_appended (k : Z) (v : V) (m : JsMap.t V) :
  JsMap.has k (m ++ [(k, v)])%list = true.
Proof.
  unfold JsMap.has. rewrite existsb_app. cbn. rewrite Z.eqb_refl.
  rewrite orb_true_r. reflexivity.
Qed.

(** Setting a key twice keeps the second value, at the place the first
    [set] gave the key. *)
Lemma JsMap_set_set (k : Z) (v1 v2 : V) (m : JsMap.t V) :
  JsMap.set k v2 (JsMap.set k v1 m) = JsMap.set k v2 m.
Proof.
  unfold JsMap.set. destruct (JsMap.has k m) eqn:E.
  - rewrite JsMap_has_replace, E. apply JsMap_replace_replace.
  - rewrite JsMap_has_appended. apply JsMap_replace_appended. exact E.
Qed.

End JsMapSet.

(** X11. Recomputing the totals of an invoice of the in-memory store a second
    time gives what a single run at the second time gives, rounding included;
    when the invoice is not stored both runs throw. *)
Theorem mem_recalculateInvoiceTotals_idempotent (n1 n2 invoiceId : Z) (s : Mem.t) :
  MemStorage.recalculateInvoiceTotals n2 invoiceId
    (snd (MemStorage.recalculateInvoiceTotals n1 invoiceId s))
  = MemStorage.recalculateInvoiceTotals n2 invoiceId s.
Proof.
  destruct s as [invs items rates next].
  unfold MemStorage.recalculateInvoiceTotals, bind, MemStorage.getInvoice,
    MemStorage.getInvoiceItems, MemStorage.getDefaultTaxRate, gets, modify, throw.
  cbn [Mem.invoices Mem.invoiceItems Mem.taxRates].
  destruct (JsMap.get invoiceId invs) as [invoice|] eqn:E.
  - cbn [snd Mem.invoices Mem.invoiceItems Mem.taxRates Mem.on_invoices].
    rewrite JsMap_get_set.
    unfold Mem.on_invoices.
    cbn [Invoice.discount Invoice.country Invoice.set_totals_rate
         Mem.invoices Mem.invoiceItems Mem.taxRates Mem.currentInvoiceItemId].
    rewrite JsMap_set_set. reflexivity.
  - cbn [snd Mem.invoices]. rewrite E. reflexivity.
Qed.

(** ** At most one default in a group *)

Section FlaggedRows.
Context {A K : Type} (key : A -> Z) (member : K -> A -> bool) (flagged : A -> bool).
Hypothesis member_excl :
  forall k k' a, member k a = true -> member k' a = true -> k = k'.

Lemma flagged_in_app (k : K) (l1 l2 : list A) :
  flagged_in member flagged k (l1 ++ l2)
  = (flagged_in member flagged k l1 ++ flagged_in member flagged k l2)%list.
Proof. apply filter_app. Qed.

Lemma flagged_in_none (k : K) (rows : list A) :
  (forall a, In a rows -> member k a && flagged a = false) ->
  flagged_in member flagged k rows = [].
Proof.
  intros H. unfold flagged_in. induction rows as [|x l IH]; [reflexivity|].
  cbn. rewrite (H x (or_introl eq_refl)). apply IH.
  intros a Ha. apply H. right. exact Ha.
Qed.

(** An update that raises no flag in group [k] adds nothing to it. *)
Lemma flagged_in_update_le (k : K) (c : A -> bool) (f : A -> A) (rows : list A) :
  (forall a, In a rows -> c a = true ->
             member k (f a) && flagged (f a) = true ->
             member k a && flagged a = true) ->
  (List.length (flagged_in member flagged k (Table.update_where c f rows))
   <= List.length (flagged_in member flagged k rows))%nat.
Proof.
  unfold flagged_in. induction rows as [|x l IH]; intros H; [cbn; lia|].
  rewrite update_where_cons. cbn [filter].
  assert (IH' : (List.length (filter (fun a => member k a && flagged a)
                                (Table.update_where c f l))
                 <= List.length (filter (fun a => member k a && flagged a) l))%nat).
  { apply IH. intros a Ha. apply H. right. exact Ha. }
  destruct (c x) eqn:Ec.
  - destruct (member k (f x) && flagged (f x)) eqn:Ef.
    + rewrite (H x (or_introl eq_refl) Ec Ef). cbn [List.length]. lia.
    + destruct (member k x && flagged x); cbn [List.length]; lia.
  - destruct (member k x && flagged x); cbn [List.length]; lia.
Qed.

Lemma flagged_in_delete_le (k : K) (c : A -> bool) (rows : list A) :
  (List.length (flagged_in member flagged k (Table.delete_where c rows))
   <= List.length (flagged_in member flagged k rows))%nat.
Proof.
  unfold flagged_in, Table.delete_where.
  induction rows as [|x l IH]; [cbn; lia|].
  cbn [filter]. destruct (negb (c x)); cbn [filter];
    destruct (member k x && flagged x); cbn [List.length]; lia.
Qed.

(** Appending a row adds it to its own group at most. *)
Lemma flagged_in_insert (k k0 : K) (rows : list A) (x : A) :
  member k0 x = true ->
  List.length (flagged_in member flagged k (rows ++ [x]))
  = (List.length (flagged_in member flagged k rows)
     + (if member k x && flagged x then 1 else 0))%nat.
Proof.
  intros _. rewrite flagged_in_app, length_app. unfold flagged_in at 2.
  cbn [filter]. destruct (member k x && flagged x); reflexivity.
Qed.

Lemma same_key_same_row (rows : list A) (a b : A) :
  NoDup (map key rows) -> In a rows -> In b rows -> key a = key b -> a = b.
Proof.
  induction rows as [|x l IH]; intros Hnd Ha Hb Hk; [contradiction|].
  cbn in Hnd. inversion Hnd as [|? ? Hx Hl]; subst.
  destruct Ha as [->|Ha]; destruct Hb as [->|Hb].
  - reflexivity.
  - exfalso. apply Hx. rewrite Hk. apply in_map. exact Hb.
  - exfalso. apply Hx. rewrite <- Hk. apply in_map. exact Ha.
  - apply IH; assumption.
Qed.

(** Raising the flag on the row of a key, in a group all of whose other
    rows are unflagged, leaves at most one flagged row in every group. *)
Lemma flag_one_row (k0 : K) (id : Z) (f : A -> A) (rows : list A) :
  NoDup (map key rows) ->
  at_most_one_flagged member flagged rows ->
  (forall a, In a rows -> (key a =? id) = false ->
             member k0 a && flagged a = false) ->
  (forall a, In a rows -> (key a =? id) = true -> member k0 (f a) = true) ->
  at_most_one_flagged member flagged
    (Table.update_where (fun a => key a =? id) f rows).
Proof.
  intros Hnd Hone Hothers Hmember k.
  destruct (Table.first (Table.select (fun a => key a =? id) rows)) as [e|] eqn:He.
  - apply first_select_some in He as [Hin Hid]. apply Z.eqb_eq in Hid.
    destruct (split_at_key key rows e Hnd Hin) as [l1 [l2 [Hsplit [H1 H2]]]].
    rewrite Hid in H1, H2.
    assert (Hstep : Table.update_where (fun a => key a =? id) f rows
                    = (l1 ++ f e :: l2)%list).
    { rewrite Hsplit. apply (update_where_key key); assumption. }
    destruct (member k (f e) && flagged (f e)) eqn:Ek.
    + (* the raised row is in group k: k is k0 and the others are clear *)
      assert (Hk : k = k0).
      { apply andb_true_iff in Ek as [Ek _].
        apply (member_excl k k0 (f e)); [exact Ek|].
        apply Hmember; [exact Hin|]. apply Z.eqb_eq. exact Hid. }
      subst k. rewrite Hstep, flagged_in_app. unfold flagged_in at 2.
      cbn [filter]. rewrite Ek. fold (flagged_in member flagged k0 l2).
      rewrite (flagged_in_none k0 l1), (flagged_in_none k0 l2).
      * cbn. lia.
      * intros a Ha. apply Hothers; [|apply H2; exact Ha].
        rewrite Hsplit. apply in_or_app. right. right. exact Ha.
      * intros a Ha. apply Hothers; [|apply H1; exact Ha].
        rewrite Hsplit. apply in_or_app. left. exact Ha.
    + etransitivity; [|apply (Hone k)].
      apply flagged_in_update_le. intros a Ha Hc Hf.
      apply Z.eqb_eq in Hc.
      assert (a = e) by (apply (same_key_same_row rows); congruence).
      subst a. rewrite Ek in Hf. discriminate.
  - rewrite update_where_miss; [apply Hone|].
    apply first_select_none. exact He.
Qed.

End FlaggedRows.

Lemma profile_member_excl (k k' : Z) (p : CompanyProfile.t) :
  (CompanyProfile.userId p =? k) = true ->
  (CompanyProfile.userId p =? k') = true -> k = k'.
Proof. intros H1 H2. apply Z.eqb_eq in H1, H2. congruence. Qed.

Lemma in_update_where {A : Type} (c : A -> bool) (f : A -> A) (rows : list A) (a : A) :
  In a (Table.update_where c f rows) ->
  exists r, In r rows /\ a = (if c r then f r else r).
Proof.
  unfold Table.update_where. intros H.
  apply in_map_iff in H as [r [Hr Hin]]. exists r. split; [exact Hin|].
  symmetry. exact Hr.
Qed.

(** X12. [updateCompanyProfile], whatever the patch does to the flag, never
    leaves a user with two default profiles, as long as the patch does not
    move the profile to another user. *)
Theorem updateCompanyProfile_never_two_defaults (id : Z)
  (patch : CompanyProfile.patch) (d : Db.t) :
  CompanyProfile.p_userId patch = None ->
  profile_keys_ok d ->
  at_most_one_default_profile d ->
  at_most_one_default_profile (snd (DatabaseStorage.updateCompanyProfile id patch d)).
Proof.
  intros Huid [Hnd _] Hinv.
  unfold DatabaseStorage.updateCompanyProfile, bind,
    DatabaseStorage.getCompanyProfile, gets.
  destruct (Table.first (Table.select (fun p => CompanyProfile.id p =? id)
                           (Db.companyProfiles d))) as [e|] eqn:He;
    [|exact Hinv].
  apply first_select_some in He as [Hin Hid].
  unfold at_most_one_default_profile in *.
  assert (Hmem : forall a, (CompanyProfile.userId (CompanyProfile.apply patch a)
                            =? CompanyProfile.userId e)
                           = (CompanyProfile.userId a =? CompanyProfile.userId e)).
  { intros a. unfold CompanyProfile.apply. rewrite Huid. reflexivity. }
  destruct (CompanyProfile.p_isDefault patch) as [[[|]|]|] eqn:Ef;
    unfold when, modify, ret, Db.on_companyProfiles; cbn [snd fst Db.companyProfiles].
  - (* the flag is raised: the user's other defaults were cleared first *)
    apply (flag_one_row CompanyProfile.id _ _ profile_member_excl
             (CompanyProfile.userId e)).
    + rewrite (update_where_keys CompanyProfile.id); [exact Hnd|reflexivity].
    + intros k. etransitivity; [|apply (Hinv k)].
      apply flagged_in_update_le. intros a _ _ H.
      cbn in H. rewrite andb_false_r in H. discriminate.
    + intros a Ha Hk. apply in_update_where in Ha as [r [Hr ->]].
      destruct ((CompanyProfile.userId r =? CompanyProfile.userId e)
                && CompanyProfile.is_default r
                && negb (CompanyProfile.id r =? id)) eqn:Ec.
      * cbn. apply andb_false_r.
      * rewrite Hk in Ec. cbn in Ec.
        rewrite andb_true_r in Ec. exact Ec.
    + intros a Ha Hk. apply in_update_where in Ha as [r [Hr ->]].
      assert (Hkr : CompanyProfile.id r = id).
      { apply Z.eqb_eq.
        destruct ((CompanyProfile.userId r =? CompanyProfile.userId e)
                  && CompanyProfile.is_default r
                  && negb (CompanyProfile.id r =? id)); exact Hk. }
      rewrite (proj2 (Z.eqb_eq _ _) Hkr), andb_false_r.
      rewrite Hmem. apply Z.eqb_eq. f_equal.
      apply Z.eqb_eq in Hid.
      apply (same_key_same_row CompanyProfile.id (Db.companyProfiles d));
        congruence.
  - (* the flag is lowered *)
    intros k. etransitivity; [|apply (Hinv k)].
    apply flagged_in_update_le. intros a _ _ H.
    unfold CompanyProfile.apply, CompanyProfile.is_default in H.
    rewrite Ef in H. cbn in H. rewrite andb_false_r in H. discriminate.
  - (* the flag is set to null *)
    intros k. etransitivity; [|apply (Hinv k)].
    apply flagged_in_update_le. intros a _ _ H.
    unfold CompanyProfile.apply, CompanyProfile.is_default in H.
    rewrite Ef in H. cbn in H. rewrite andb_false_r in H. discriminate.
  - (* the flag is left alone *)
    intros k. etransitivity; [|apply (Hinv k)].
    apply flagged_in_update_le. intros a _ _ H.
    unfold CompanyProfile.apply, CompanyProfile.is_default in *.
    rewrite Ef, Huid in H. cbn in H. exact H.
Qed.

Lemma updateCompanyProfile_never_two_defaults_witness :
  at_most_one_default_profile
    (snd (DatabaseStorage.updateCompanyProfile 2
            (CompanyProfile.mkPatch None None (Some (Some true))) referenced_db))
  /\ map CompanyProfile.isDefault
       (Db.companyProfiles
          (snd (DatabaseStorage.updateCompanyProfile 2
                  (CompanyProfile.mkPatch None None (Some (Some true)))
                  referenced_db)))
     = [Some false; Some true].
Proof.
  split; [|reflexivity].
  apply updateCompanyProfile_never_two_defaults.
  - reflexivity.
  - split.
    + cbn. repeat constructor; cbn; intuition discriminate.
    + cbn. repeat constructor.
  - intros k. unfold flagged_in. cbn -[Z.eqb]. destruct (7 =? k); cbn; lia.
Defined.

(** ** Default company terms *)

Lemma term_member_excl (k k' : Z * string) (r : CompanyTerm.t) :
  term_in k r = true -> term_in k' r = true -> k = k'.
Proof.
  unfold term_in. intros H1 H2.
  apply andb_true_iff in H1 as [H1 H1'], H2 as [H2 H2'].
  apply Z.eqb_eq in H1, H2. apply String.eqb_eq in H1', H2'.
  destruct k, k'. cbn in *. congruence.
Qed.

(** Clearing the defaults of a group empties it and adds to no other. *)
Lemma cleared_group (k0 : Z * string) (rows : list CompanyTerm.t) :
  flagged_in term_in CompanyTerm.is_default k0
    (Table.update_where (fun r => term_in k0 r && CompanyTerm.is_default r)
       (CompanyTerm.set_isDefault (Some false)) rows) = [].
Proof.
  apply flagged_in_none. intros a Ha.
  apply in_update_where in Ha as [r [_ ->]].
  destruct (term_in k0 r && CompanyTerm.is_default r) eqn:E; [|exact E].
  cbn. apply andb_false_r.
Qed.

Lemma cleared_others (k0 : Z * string) (rows : list CompanyTerm.t) :
  at_most_one_flagged term_in CompanyTerm.is_default rows ->
  at_most_one_flagged term_in CompanyTerm.is_default
    (Table.update_where (fun r => term_in k0 r && CompanyTerm.is_default r)
       (CompanyTerm.set_isDefault (Some false)) rows).
Proof.
  intros H k. etransitivity; [|apply (H k)].
  apply flagged_in_update_le. intros a _ _ Ha.
  cbn in Ha. rewrite andb_false_r in Ha. discriminate.
Qed.

(** X13. [createCompanyTerm] keeps the company terms table well-formed:
    distinct keys below the sequence and at most one default term for every
    user and category; this holds for the rejected call too. *)
Theorem createCompanyTerm_keeps_terms_ok (term : CompanyTerm.insert) (s : Terms.t) :
  terms_ok s -> terms_ok (snd (TermStorage.createCompanyTerm term s)).
Proof.
  intros (Hnd & Hlt & Hone).
  unfold TermStorage.createCompanyTerm.
  destruct ((CompanyTerm.i_userId term =? 0)
            || String.eqb (CompanyTerm.i_category term) ""
            || String.eqb (CompanyTerm.i_title term) ""
            || String.eqb (CompanyTerm.i_content term) "");
    [repeat split; assumption|].
  set (k0 := (CompanyTerm.i_userId term, CompanyTerm.i_category term)).
  assert (Hfresh : forall rows,
             map CompanyTerm.id rows = map CompanyTerm.id (Terms.companyTerms s) ->
             Forall (fun r => CompanyTerm.id r < Terms.companyTerms_id_seq s) rows ->
             forall row, CompanyTerm.id row = Terms.companyTerms_id_seq s ->
             NoDup (map CompanyTerm.id (rows ++ [row]))
             /\ Forall (fun r => CompanyTerm.id r < Terms.companyTerms_id_seq s + 1)
                  (rows ++ [row])).
  { intros rows Hk Hb row Hrow. split.
    - rewrite map_app, Hk. cbn. apply NoDup_app.
      + exact Hnd.
      + constructor; [intros []|constructor].
      + intros x Hx [<-|[]]. rewrite Hrow in Hx.
        apply in_map_iff in Hx as [q [Hq Hin]].
        rewrite Forall_forall in Hlt. specialize (Hlt q Hin). lia.
    - apply Forall_app. split.
      + eapply Forall_impl; [|exact Hb]. cbn. intros; lia.
      + constructor; [lia|constructor]. }
  unfold bind, when.
  destruct (JS.bool_or_false (CompanyTerm.i_isDefault term)) eqn:Eflag.
  - unfold TermStorage.clearDefaultCompanyTerm, modify, Terms.on_companyTerms.
    cbn [snd fst Terms.companyTerms Terms.companyTerms_id_seq].
    match goal with
    | |- terms_ok (Terms.mk (?rs ++ [?rw]) _) =>
        destruct (Hfresh rs) with (row := rw) as [Hnd' Hlt']
    end.
    + apply (update_where_keys CompanyTerm.id). reflexivity.
    + apply Forall_update_where; [|exact Hlt]. intros a Ha. exact Ha.
    + reflexivity.
    + split; [exact Hnd'|]. split; [exact Hlt'|].
      cbn [Terms.companyTerms]. intros k.
      rewrite (flagged_in_insert term_in CompanyTerm.is_default k k0);
        [|unfold term_in; cbn; rewrite Z.eqb_refl, String.eqb_refl; reflexivity].
      match goal with
      | |- context [if ?c then _ else _] => destruct c eqn:Ek
      end.
      * assert (k = k0).
        { apply andb_true_iff in Ek as [Ek _].
          apply (term_member_excl k k0 _ Ek).
          unfold term_in. cbn. rewrite Z.eqb_refl, String.eqb_refl. reflexivity. }
        subst k. rewrite (cleared_group k0). cbn. lia.
      * rewrite Nat.add_0_r. exact (cleared_others k0 _ Hone k).
  - unfold ret. cbn [snd fst Terms.companyTerms Terms.companyTerms_id_seq].
    match goal with
    | |- terms_ok (Terms.mk (?rs ++ [?rw]) _) =>
        destruct (Hfresh rs) with (row := rw) as [Hnd' Hlt']
    end.
    + reflexivity.
    + exact Hlt.
    + reflexivity.
    + split; [exact Hnd'|]. split; [exact Hlt'|].
      cbn [Terms.companyTerms]. intros k.
      rewrite (flagged_in_insert term_in CompanyTerm.is_default k k0);
        [|unfold term_in; cbn; rewrite Z.eqb_refl, String.eqb_refl; reflexivity].
      unfold CompanyTerm.is_default at 2. cbn [CompanyTerm.isDefault].
      rewrite andb_false_r. pose proof (Hone k). lia.
Qed.

Lemma two_terms_ok : terms_ok two_terms.
Proof.
  split; [|split].
  - cbn. repeat constructor; cbn; intuition discriminate.
  - cbn. repeat constructor.
  - intros [u c]. unfold flagged_in, term_in.
    cbn -[Z.eqb String.eqb].
    destruct ((7 =? u) && ("Payment" =? c)%string); cbn; lia.
Qed.

Lemma createCompanyTerm_keeps_terms_ok_witness :
  terms_ok
    (snd (TermStorage.createCompanyTerm
            (CompanyTerm.mkInsert 7 "Payment" "Net 15" "Payment within 15 days"
               None (Some true))
            two_terms))
  /\ map CompanyTerm.isDefault
       (Terms.companyTerms
          (snd (TermStorage.createCompanyTerm
                  (CompanyTerm.mkInsert 7 "Payment" "Net 15"
                     "Payment within 15 days" None (Some true))
                  two_terms)))
     = [Some false; Some false; Some true].
Proof.
  split; [|reflexivity].
  apply createCompanyTerm_keeps_terms_ok. exact two_terms_ok.
Defined.

(** X14. A term created with the default flag set is, once stored, the only
    default term of its user and category. *)
Theorem createCompanyTerm_default_is_alone (term : CompanyTerm.insert)
  (s s' : Terms.t) (row : CompanyTerm.t) :
  TermStorage.createCompanyTerm term s = (Ok row, s') ->
  CompanyTerm.i_isDefault term = Some true ->
  flagged_in term_in CompanyTerm.is_default
    (CompanyTerm.i_userId term, CompanyTerm.i_category term)
    (Terms.companyTerms s') = [row]
  /\ CompanyTerm.userId row = CompanyTerm.i_userId term
  /\ CompanyTerm.category row = CompanyTerm.i_category term.
Proof.
  unfold TermStorage.createCompanyTerm. intros Hrun Hflag.
  destruct ((CompanyTerm.i_userId term =? 0)
            || String.eqb (CompanyTerm.i_category term) ""
            || String.eqb (CompanyTerm.i_title term) ""
            || String.eqb (CompanyTerm.i_content term) "");
    [discriminate|].
  rewrite Hflag in Hrun. unfold bind, when in Hrun. cbn in Hrun.
  injection Hrun as <- <-. cbn [Terms.companyTerms].
  split; [|split; reflexivity].
  rewrite flagged_in_app.
  rewrite (cleared_group (CompanyTerm.i_userId term, CompanyTerm.i_category term)).
  unfold flagged_in, term_in. cbn.
  rewrite Z.eqb_refl, String.eqb_refl. reflexivity.
Qed.

Lemma createCompanyTerm_default_is_alone_witness :
  flagged_in term_in CompanyTerm.is_default (7, "Payment")
    (Terms.companyTerms
       (snd (TermStorage.createCompanyTerm
               (CompanyTerm.mkInsert 7 "Payment" "Net 15" "Payment within 15 days"
                  None (Some true))
               two_terms)))
  = [CompanyTerm.mk 3 7 "Payment" "Net 15" "Payment within 15 days" None (Some true)].
Proof.
  apply (createCompanyTerm_default_is_alone
           (CompanyTerm.mkInsert 7 "Payment" "Net 15" "Payment within 15 days"
              None (Some true))
           two_terms); reflexivity.
Defined.

(** X15. [updateCompanyTerm] with a patch that leaves the user and the
    category alone keeps the table well-formed: in particular, setting a term
    as default leaves no second default in its category. *)
Theorem updateCompanyTerm_keeps_terms_ok (id : Z) (term : CompanyTerm.patch)
  (s : Terms.t) :
  CompanyTerm.p_userId term = None ->
  CompanyTerm.p_category term = None ->
  terms_ok s -> terms_ok (snd (TermStorage.updateCompanyTerm id term s)).
Proof.
  intros Huid Hcat (Hnd & Hlt & Hone).
  assert (Hin : forall k a, term_in k (CompanyTerm.apply term a) = term_in k a).
  { intros k a. unfold term_in, CompanyTerm.apply. rewrite Huid, Hcat. reflexivity. }
  assert (Hkeys : forall (rows : list CompanyTerm.t),
             NoDup (map CompanyTerm.id rows) ->
             Forall (fun r => CompanyTerm.id r < Terms.companyTerms_id_seq s) rows ->
             at_most_one_flagged term_in CompanyTerm.is_default
               (Table.update_where (fun r => CompanyTerm.id r =? id)
                  (CompanyTerm.apply term) rows) ->
             terms_ok (Terms.mk
               (Table.update_where (fun r => CompanyTerm.id r =? id)
                  (CompanyTerm.apply term) rows)
               (Terms.companyTerms_id_seq s))).
  { intros rows Hn Hb Ho. split; [|split].
    - cbn. rewrite (update_where_keys CompanyTerm.id); [exact Hn|reflexivity].
    - cbn. apply Forall_update_where; [|exact Hb]. intros a Ha. exact Ha.
    - exact Ho. }
  assert (Hquiet : forall (rows : list CompanyTerm.t),
             at_most_one_flagged term_in CompanyTerm.is_default rows ->
             CompanyTerm.p_isDefault term <> Some (Some true) ->
             at_most_one_flagged term_in CompanyTerm.is_default
               (Table.update_where (fun r => CompanyTerm.id r =? id)
                  (CompanyTerm.apply term) rows)).
  { intros rows Ho Hne k. etransitivity; [|apply (Ho k)].
    apply flagged_in_update_le. intros a _ _ Ha.
    rewrite Hin in Ha. apply andb_true_iff in Ha as [Ha1 Ha2].
    rewrite Ha1. cbn.
    unfold CompanyTerm.is_default, CompanyTerm.apply in *. cbn in Ha2.
    destruct (CompanyTerm.p_isDefault term) as [[[|]|]|];
      try discriminate; [congruence|exact Ha2]. }
  unfold TermStorage.updateCompanyTerm, bind, when, TermStorage.getCompanyTerm,
    gets, modify, ret, Terms.on_companyTerms.
  destruct (CompanyTerm.p_isDefault term) as [[[|]|]|] eqn:Ef;
    cbn [snd fst Terms.companyTerms Terms.companyTerms_id_seq];
    try (apply Hkeys; [exact Hnd|exact Hlt|apply Hquiet; [exact Hone|congruence]]).
  destruct (Table.first (Table.select (fun r => CompanyTerm.id r =? id)
                           (Terms.companyTerms s))) as [e|] eqn:He.
  - apply first_select_some in He as [Hine Hide]. apply Z.eqb_eq in Hide.
    unfold TermStorage.clearDefaultCompanyTerm, modify, Terms.on_companyTerms.
    cbn [snd fst Terms.companyTerms Terms.companyTerms_id_seq].
    set (k0 := (CompanyTerm.userId e, CompanyTerm.category e)).
    apply Hkeys.
    + rewrite (update_where_keys CompanyTerm.id); [exact Hnd|reflexivity].
    + apply Forall_update_where; [|exact Hlt]. intros a Ha. exact Ha.
    + apply (flag_one_row CompanyTerm.id _ _ term_member_excl k0).
      * rewrite (update_where_keys CompanyTerm.id); [exact Hnd|reflexivity].
      * exact (cleared_others k0 _ Hone).
      * intros a Ha _.
        pose proof (cleared_group k0 (Terms.companyTerms s)) as Hnone.
        unfold flagged_in in Hnone.
        destruct (term_in k0 a && CompanyTerm.is_default a) eqn:Ea; [|reflexivity].
        assert (Hf : In a []).
        { rewrite <- Hnone. apply filter_In. split; [exact Ha|exact Ea]. }
        destruct Hf.
      * intros a Ha Hk. rewrite Hin.
        apply in_update_where in Ha as [r [Hr ->]].
        assert (Hkr : CompanyTerm.id r = id).
        { apply Z.eqb_eq.
          destruct ((CompanyTerm.userId r =? CompanyTerm.userId e)
                    && String.eqb (CompanyTerm.category r) (CompanyTerm.category e)
                    && CompanyTerm.is_default r); exact Hk. }
        assert (r = e).
        { apply (same_key_same_row CompanyTerm.id (Terms.companyTerms s));
            congruence. }
        subst r. unfold term_in, k0.
        destruct ((CompanyTerm.userId e =? CompanyTerm.userId e)
                  && String.eqb (CompanyTerm.category e) (CompanyTerm.category e)
                  && CompanyTerm.is_default e);
          cbn; rewrite Z.eqb_refl, String.eqb_refl; reflexivity.
  - cbn [snd fst Terms.companyTerms Terms.companyTerms_id_seq].
    rewrite update_where_miss; [|apply first_select_none; exact He].
    destruct s. repeat split; assumption.
Qed.

Lemma updateCompanyTerm_keeps_terms_ok_witness :
  terms_ok
    (snd (TermStorage.updateCompanyTerm 2
            (CompanyTerm.mkPatch None None None None None (Some (Some true)))
            two_terms))
  /\ map CompanyTerm.isDefault
       (Terms.companyTerms
          (snd (TermStorage.updateCompanyTerm 2
                  (CompanyTerm.mkPatch None None None None None (Some (Some true)))
                  two_terms)))
     = [Some false; Some true].
Proof.
  split; [|reflexivity].
  apply updateCompanyTerm_keeps_terms_ok; [reflexivity|reflexivity|].
  exact two_terms_ok.
Defined.

(** X16. [deleteCompanyTerm] keeps the table well-formed and removes the term,
    whether or not it was the default of its category: no other term is
    promoted. *)
Theorem deleteCompanyTerm_keeps_terms_ok (id : Z) (s : Terms.t) :
  terms_ok s ->
  terms_ok (snd (TermStorage.deleteCompanyTerm id s))
  /\ fst (TermStorage.getCompanyTerm id (snd (TermStorage.deleteCompanyTerm id s)))
     = Ok None
  /\ forall r, In r (Terms.companyTerms s) -> CompanyTerm.id r <> id ->
       In r (Terms.companyTerms (snd (TermStorage.deleteCompanyTerm id s))).
Proof.
  intros (Hnd & Hlt & Hone).
  unfold TermStorage.deleteCompanyTerm, modify, Terms.on_companyTerms,
    TermStorage.getCompanyTerm, gets.
  cbn [snd fst Terms.companyTerms Terms.companyTerms_id_seq].
  split; [split; [|split]|split].
  - cbn. apply delete_where_NoDup. exact Hnd.
  - cbn. unfold Table.delete_where. rewrite Forall_forall in *.
    intros r Hr. apply filter_In in Hr as [Hr _]. apply Hlt. exact Hr.
  - cbn. intros k. etransitivity; [|apply (Hone k)].
    apply flagged_in_delete_le.
  - f_equal.
    destruct (Table.first (Table.select (fun r => CompanyTerm.id r =? id)
                (Table.delete_where (fun r => CompanyTerm.id r =? id)
                   (Terms.companyTerms s)))) as [r|] eqn:E; [|reflexivity].
    apply first_select_some in E as [Hr Hk].
    unfold Table.delete_where in Hr. apply filter_In in Hr as [_ Hr].
    rewrite Hk in Hr. discriminate.
  - intros r Hr Hne. unfold Table.delete_where. apply filter_In.
    split; [exact Hr|]. apply negb_true_iff. apply Z.eqb_neq. exact Hne.
Qed.

Lemma deleteCompanyTerm_keeps_terms_ok_witness :
  terms_ok (snd (TermStorage.deleteCompanyTerm 1 two_terms))
  /\ fst (TermStorage.getCompanyTerm 1 (snd (TermStorage.deleteCompanyTerm 1 two_terms)))
     = Ok None
  /\ forall r, In r (Terms.companyTerms two_terms) -> CompanyTerm.id r <> 1 ->
       In r (Terms.companyTerms (snd (TermStorage.deleteCompanyTerm 1 two_terms))).
Proof.
  apply deleteCompanyTerm_keeps_terms_ok. exact two_terms_ok.
Defined.

(** ** Subscriptions and the invoice counter *)

Lemma first_select_update_other {A : Type} (c c' : A -> bool) (f : A -> A)
  (rows : list A) :
  (forall r, c (f r) = c r) ->
  (forall r, c' r = true -> c r = false) ->
  Table.first (Table.select c (Table.update_where c' f rows))
  = Table.first (Table.select c rows).
Proof.
  intros Hf Hdisj. induction rows as [|x l IH]; [reflexivity|].
  rewrite update_where_cons. unfold Table.select in *. cbn [filter].
  destruct (c' x) eqn:E'.
  - rewrite Hf, (Hdisj x E'). exact IH.
  - destruct (c x); [reflexivity|exact IH].
Qed.

Lemma first_select_map {A B : Type} (g : A -> B) (c : B -> bool) (rows : list A) :
  Table.first (Table.select c (map g rows))
  = option_map g (Table.first (Table.select (fun a => c (g a)) rows)).
Proof.
  unfold Table.select. induction rows as [|x l IH]; [reflexivity|].
  cbn [map filter]. destruct (c (g x)); [reflexivity|exact IH].
Qed.

Lemma incrementInvoiceUsage_run (userId : Z) (us : list Account.t) (a : Account.t) :
  fst (UserStorage.getUserById userId us) = Ok (Some a) ->
  fst (UserStorage.getUserById userId
         (snd (UserStorage.incrementInvoiceUsage userId us)))
  = Ok (Some (with_usage (usage a + 1) a)).
Proof.
  unfold UserStorage.incrementInvoiceUsage, bind, UserStorage.getUserById, gets.
  cbn [fst snd]. intros Ha. injection Ha as Ha. rewrite Ha.
  unfold modify. cbn [fst snd].
  rewrite first_select_update; [|reflexivity]. rewrite Ha. reflexivity.
Qed.

(** X17. [incrementInvoiceUsage] on a stored user whose counter plus one
    fits the [integer] column returns normally, adds one to that user's
    counter (an absent counter counts as 0), changes no other column of the
    row and no other user's row. *)
Theorem incrementInvoiceUsage_effect (userId : Z) (us : list Account.t)
  (a : Account.t) :
  fst (UserStorage.getUserById userId us) = Ok (Some a) ->
  Pg.int4 (usage a + 1) = true ->
  fst (UserStorage.incrementInvoiceUsage userId us) = Ok tt
  /\ fst (UserStorage.getUserById userId
            (snd (UserStorage.incrementInvoiceUsage userId us)))
     = Ok (Some (with_usage (usage a + 1) a))
  /\ forall other, other <> userId ->
       fst (UserStorage.getUserById other
              (snd (UserStorage.incrementInvoiceUsage userId us)))
       = fst (UserStorage.getUserById other us).
Proof.
  unfold UserStorage.incrementInvoiceUsage, bind, UserStorage.getUserById, gets.
  cbn [fst snd]. intros Ha _. injection Ha as Ha. rewrite Ha.
  unfold modify. cbn [fst snd]. split; [reflexivity|]. split.
  - rewrite first_select_update; [|reflexivity]. rewrite Ha. reflexivity.
  - intros other Hne. f_equal. apply first_select_update_other; [reflexivity|].
    intros r Hr. apply Z.eqb_eq in Hr. apply Z.eqb_neq. congruence.
Qed.

Lemma incrementInvoiceUsage_effect_witness :
  fst (UserStorage.incrementInvoiceUsage 2 two_accounts) = Ok tt
  /\ fst (UserStorage.getUserById 2
            (snd (UserStorage.incrementInvoiceUsage 2 two_accounts)))
     = Ok (Some (Account.mk
                   (User.mk 2 "b@example.com" "free" (Some 10) (Some 1) None) None))
  /\ forall other, other <> 2 ->
       fst (UserStorage.getUserById other
              (snd (UserStorage.incrementInvoiceUsage 2 two_accounts)))
       = fst (UserStorage.getUserById other two_accounts).
Proof.
  apply (incrementInvoiceUsage_effect 2 two_accounts
           (Account.mk (User.mk 2 "b@example.com" "free" (Some 10) None None) None)).
  - reflexivity.
  - reflexivity.
Defined.

Lemma subscribed_then_counted (t0 userId : Z) (planId : string) (quota : Z)
  (us : list Account.t) (a : Account.t) (n : nat) :
  fst (UserStorage.getUserById userId us) = Ok (Some a) ->
  fst (UserStorage.getUserById userId
         (invoices_counted n userId
            (snd (UserStorage.updateUserSubscription t0 userId planId quota us))))
  = Ok (Some (subscribed t0 planId quota (Z.of_nat n) a)).
Proof.
  intros Ha. induction n as [|n IH].
  - cbn [invoices_counted].
    unfold UserStorage.updateUserSubscription, bind, modify,
      UserStorage.getUserById, gets in *.
    cbn [fst snd] in *. injection Ha as Ha. f_equal.
    rewrite first_select_update; [|reflexivity]. rewrite Ha. reflexivity.
  - cbn [invoices_counted].
    rewrite (incrementInvoiceUsage_run userId _ _ IH). do 2 f_equal.
    unfold with_usage, usage, subscribed. cbn.
    do 2 f_equal. f_equal. lia.
Qed.

(** X18. after [updateUserSubscription] at time [t0] with quota [q] and [n]
    counted invoices, the quota check lets the user create another invoice
    exactly when the bundle (for the per-invoice plan: 30 days from [t0]) has
    not run out and [n] is below [q] or [q] is the unlimited marker. *)
Theorem quota_after_subscription (t0 now userId : Z) (planId : string)
  (quota : Z) (n : nat) (us : list Account.t) (a : Account.t) (d : Db.t) :
  fst (UserStorage.getUserById userId us) = Ok (Some a) ->
  Db.users d
  = users_of (invoices_counted n userId
                (snd (UserStorage.updateUserSubscription t0 userId planId quota us))) ->
  Routes.checkInvoiceQuota now userId d
  = (Ok (if String.eqb planId "per-invoice" && (now >? t0 + 2592000000)
         then (false, Some bundle_expired_response)
         else if negb (quota =? -1) && (Z.of_nat n >=? quota)
              then (false, Some quota_exceeded_response)
              else (true, None)),
     d).
Proof.
  intros Ha Hd.
  pose proof (subscribed_then_counted t0 userId planId quota us a n Ha) as Hget.
  revert Hd Hget.
  generalize (invoices_counted n userId
                (snd (UserStorage.updateUserSubscription t0 userId planId quota us))).
  intros usn Hd Hget.
  unfold UserStorage.getUserById, gets in Hget. cbn [fst] in Hget.
  injection Hget as Hget.
  unfold Routes.checkInvoiceQuota, bind, DatabaseStorage.getUserById, gets.
  rewrite Hd. unfold users_of. rewrite first_select_map, Hget.
  cbn [option_map subscribed Account.user User.planId User.subscriptionExpiresAt
       User.invoiceQuota User.invoicesUsed].
  destruct (String.eqb planId "per-invoice") eqn:Ep; cbn [andb].
  - destruct (now >? t0 + 2592000000); [reflexivity|].
    destruct (negb (quota =? -1) && (Z.of_nat n >=? quota)); reflexivity.
  - destruct (negb (quota =? -1) && (Z.of_nat n >=? quota)); reflexivity.
Qed.

Lemma quota_after_subscription_witness :
  Routes.checkInvoiceQuota 2592000001 1
    (Db.mk (users_of (invoices_counted 2 1
              (snd (UserStorage.updateUserSubscription 0 1 "per-invoice" 10
                      two_accounts))))
       [] [] [] [] [] [] [] 1 1)
  = (Ok (false, Some bundle_expired_response),
     Db.mk (users_of (invoices_counted 2 1
              (snd (UserStorage.updateUserSubscription 0 1 "per-invoice" 10
                      two_accounts))))
       [] [] [] [] [] [] [] 1 1).
Proof.
  apply (quota_after_subscription 0 2592000001 1 "per-invoice" 10 2 two_accounts
           (Account.mk (User.mk 1 "a@example.com" "free" (Some 10) (Some 3) None)
              (Some "active"))); reflexivity.
Defined.

(** ** Who may delete what *)

Lemma authenticate_cases (sessionUserId : option Z) (d : Db.t) :
  (exists u, signed_in sessionUserId u d
             /\ Handlers.authenticate sessionUserId d = (Ok (inr u), d))
  \/ ((forall u, ~ signed_in sessionUserId u d)
      /\ Handlers.authenticate sessionUserId d
         = (Ok (inl (Handlers.Json 401 "Unauthorized")), d)).
Proof.
  unfold Handlers.authenticate, signed_in.
  destruct sessionUserId as [u|].
  - destruct (u =? 0) eqn:E0.
    + right. split; [|reflexivity].
      intros u' (Hs & Hne & _). injection Hs as <-.
      apply Z.eqb_eq in E0. contradiction.
    + unfold bind, DatabaseStorage.getUserById, gets, ret.
      destruct (Table.first (Table.select (fun x => User.id x =? u) (Db.users d)))
        as [usr|] eqn:Eu.
      * left. exists u. split; [|reflexivity].
        split; [reflexivity|]. split; [apply Z.eqb_neq; exact E0|].
        exists usr. cbn. rewrite Eu. reflexivity.
      * right. split; [|reflexivity].
        intros u' (Hs & _ & usr & Hu). injection Hs as <-.
        cbn in Hu. rewrite Eu in Hu. discriminate.
  - right. split; [|reflexivity]. intros u (Hs & _). discriminate.
Qed.

Lemma signed_in_unique (sessionUserId : option Z) (u u' : Z) (d : Db.t) :
  signed_in sessionUserId u d -> signed_in sessionUserId u' d -> u = u'.
Proof. intros [H _] [H' _]. congruence. Qed.

Lemma first_select_deleted {A : Type} (c : A -> bool) (rows : list A) :
  Table.first (Table.select c (Table.delete_where c rows)) = None.
Proof.
  destruct (Table.first (Table.select c (Table.delete_where c rows)))
    as [r|] eqn:E; [|reflexivity].
  apply first_select_some in E as [Hin Hc].
  unfold Table.delete_where in Hin. apply filter_In in Hin as [_ Hin].
  rewrite Hc in Hin. discriminate.
Qed.

(** A request with an id that is not an [integer] is not answered: the
    handler rejects. *)
Ltac bad_id Hid := first [discriminate Hid | injection Hid as <-; congruence].

Ltac unanswered Hrun :=
  unfold throw in Hrun; injection Hrun as <- <-;
  split;
  [ split; [discriminate|];
    let Hid := fresh "Hid" in
    intros (? & ? & ? & _ & Hid & ? & _); bad_id Hid
  | split; [intros ? _ H; discriminate H|];
    split; [reflexivity|];
    repeat match goal with
           | |- _ /\ _ => split
           | |- forall u n c inv, _ -> _ = Handlers.Int _ -> _ =>
             let Hid := fresh "Hid" in intros ? ? ? ? _ Hid ?; bad_id Hid
           | |- forall u, _ -> (_ <-> _) =>
             let Hid := fresh "Hid" in
             intros ? _; split;
             [intros [? H]; discriminate H|intros (? & Hid & ?); bad_id Hid]
           end ].

Ltac answered n E4 :=
  intros ? _; split;
  [intros _; exists n; split; [reflexivity|exact E4]|intros _; eexists; reflexivity].

(** X19. the handler of [DELETE /api/invoices/:id] answers 204 exactly when
    the session names a stored user who owns the invoice and the id is an
    [integer], and then the invoice is gone; on every other outcome the store
    is as it was.  The request of a stored user is answered exactly when the
    id is an [integer]. *)
Theorem delete_invoice_owner_only (sessionUserId : option Z)
  (invoiceId : Handlers.parsed) (d : Db.t) :
  let r := fst (Handlers.delete_invoice sessionUserId invoiceId d) in
  let d' := snd (Handlers.delete_invoice sessionUserId invoiceId d) in
  (r = Ok (Handlers.Empty 204) <->
   exists u n inv, signed_in sessionUserId u d
     /\ invoiceId = Handlers.Int n /\ Pg.int4 n = true
     /\ fst (DatabaseStorage.getInvoice n d) = Ok (Some inv)
     /\ Invoice.userId inv = u)
  /\ (forall n, invoiceId = Handlers.Int n -> r = Ok (Handlers.Empty 204) ->
      fst (DatabaseStorage.getInvoice n d') = Ok None)
  /\ (r <> Ok (Handlers.Empty 204) -> d' = d)
  /\ (forall u, signed_in sessionUserId u d ->
      ((exists answer, r = Ok answer) <->
       exists n, invoiceId = Handlers.Int n /\ Pg.int4 n = true)).
Proof.
  cbv zeta.
  destruct (Handlers.delete_invoice sessionUserId invoiceId d) as [r d'] eqn:Hrun.
  cbn [fst snd].
  unfold Handlers.delete_invoice, bind, Handlers.with_id in Hrun.
  unfold DatabaseStorage.getInvoice, gets. cbn [fst].
  destruct (authenticate_cases sessionUserId d) as [[u [Hu Hauth]]|[Hno Hauth]];
    rewrite Hauth in Hrun.
  - destruct invoiceId as [|n]; [unanswered Hrun|].
    destruct (Pg.int4 n) eqn:E4; [|unanswered Hrun].
    unfold DatabaseStorage.getInvoice, gets in Hrun.
    destruct (Table.first (Table.select (fun i => Invoice.id i =? n)
                             (Db.invoices d))) as [inv|] eqn:Ei.
    + destruct (Invoice.userId inv =? u) eqn:Eo; cbn [negb] in Hrun.
      * apply Z.eqb_eq in Eo.
        unfold Handlers.catch, bind, DatabaseStorage.deleteInvoice, bind,
          DatabaseStorage.getInvoice, gets, modify, ret in Hrun.
        rewrite Ei in Hrun. injection Hrun as <- <-.
        split; [|split; [|split]].
        -- split; [|reflexivity]. intros _. exists u, n, inv.
           split; [exact Hu|]. split; [reflexivity|]. split; [exact E4|].
           split; [rewrite Ei; reflexivity|exact Eo].
        -- intros n' Hid _. injection Hid as <-.
           unfold Db.on_invoices, Db.on_invoiceItems.
           cbn [Db.invoices]. rewrite first_select_deleted. reflexivity.
        -- intros H. exfalso. apply H. reflexivity.
        -- answered n E4.
      * unfold ret in Hrun. injection Hrun as <- <-.
        split; [|split; [|split]].
        -- split; [discriminate|].
           intros (u' & n' & inv' & Hu' & Hid & _ & Hinv' & Ho').
           injection Hid as <-. rewrite Ei in Hinv'. injection Hinv' as <-.
           rewrite (signed_in_unique _ _ _ _ Hu' Hu) in Ho'.
           apply Z.eqb_neq in Eo. contradiction.
        -- intros n' _ H. discriminate H.
        -- reflexivity.
        -- answered n E4.
    + unfold ret in Hrun. injection Hrun as <- <-.
      split; [|split; [|split]].
      * split; [discriminate|].
        intros (u' & n' & inv' & _ & Hid & _ & Hinv' & _).
        injection Hid as <-. rewrite Ei in Hinv'. discriminate Hinv'.
      * intros n' _ H. discriminate H.
      * reflexivity.
      * answered n E4.
  - unfold ret in Hrun. injection Hrun as <- <-.
    split; [|split; [|split]].
    + split; [discriminate|]. intros (u' & _ & _ & Hu' & _).
      exfalso. exact (Hno u' Hu').
    + intros n' _ H. discriminate H.
    + reflexivity.
    + intros u' Hu'. exfalso. exact (Hno u' Hu').
Qed.

(** X20. the handler of [DELETE /api/clients/:id] answers 204 exactly when the
    session names a stored user who owns the client, the id is an [integer]
    and no invoice refers to the client; the client is then gone.  On every
    other outcome the store is as it was, and an owner whose client is still
    invoiced is told so with a 400.  The request of a stored user is answered
    exactly when the id is an [integer]. *)
Theorem delete_client_owner_only (sessionUserId : option Z)
  (clientId : Handlers.parsed) (d : Db.t) :
  let r := fst (Handlers.delete_client sessionUserId clientId d) in
  let d' := snd (Handlers.delete_client sessionUserId clientId d) in
  (r = Ok (Handlers.Empty 204) <->
   exists u n c, signed_in sessionUserId u d
     /\ clientId = Handlers.Int n /\ Pg.int4 n = true
     /\ fst (DatabaseStorage.getClient n d) = Ok (Some c)
     /\ Client.userId c = u
     /\ forall inv, In inv (Db.invoices d) -> Invoice.clientId inv <> n)
  /\ (forall n, clientId = Handlers.Int n -> r = Ok (Handlers.Empty 204) ->
      fst (DatabaseStorage.getClient n d') = Ok None)
  /\ (r <> Ok (Handlers.Empty 204) -> d' = d)
  /\ (forall u n c inv, signed_in sessionUserId u d ->
        clientId = Handlers.Int n -> Pg.int4 n = true ->
        fst (DatabaseStorage.getClient n d) = Ok (Some c) ->
        Client.userId c = u ->
        In inv (Db.invoices d) -> Invoice.clientId inv = n ->
        r = Ok (Handlers.Json 400 "Cannot delete client that is used in invoices"))
  /\ (forall u, signed_in sessionUserId u d ->
      ((exists answer, r = Ok answer) <->
       exists n, clientId = Handlers.Int n /\ Pg.int4 n = true)).
Proof.
  cbv zeta.
  destruct (Handlers.delete_client sessionUserId clientId d) as [r d'] eqn:Hrun.
  cbn [fst snd].
  unfold Handlers.delete_client, bind, Handlers.with_id in Hrun.
  unfold DatabaseStorage.getClient, gets. cbn [fst].
  destruct (authenticate_cases sessionUserId d) as [[u [Hu Hauth]]|[Hno Hauth]];
    rewrite Hauth in Hrun.
  - destruct clientId as [|n]; [unanswered Hrun|].
    destruct (Pg.int4 n) eqn:E4; [|unanswered Hrun].
    unfold DatabaseStorage.getClient at 1, gets in Hrun.
    destruct (Table.first (Table.select (fun c => Client.id c =? n)
                             (Db.clients d))) as [c|] eqn:Ec.
    + destruct (Client.userId c =? u) eqn:Eo; cbn [negb] in Hrun.
      * apply Z.eqb_eq in Eo.
        unfold Handlers.catch, DatabaseStorage.deleteClient, bind,
          DatabaseStorage.getClient, gets, modify, ret, throw in Hrun.
        rewrite Ec, first_limit_1 in Hrun.
        destruct (Table.first (Table.select (fun i => Invoice.clientId i =? n)
                                 (Db.invoices d))) as [inv|] eqn:Ei.
        -- apply first_select_some in Ei as [Hiin Hicl]. apply Z.eqb_eq in Hicl.
           injection Hrun as <- <-.
           split; [|split; [|split; [|split]]].
           ++ split; [discriminate|].
              intros (_ & n' & _ & _ & Hid & _ & _ & _ & Hfree).
              injection Hid as <-. exfalso. exact (Hfree inv Hiin Hicl).
           ++ intros n' _ H. discriminate H.
           ++ reflexivity.
           ++ reflexivity.
           ++ answered n E4.
        -- injection Hrun as <- <-.
           split; [|split; [|split; [|split]]].
           ++ split; [|reflexivity]. intros _. exists u, n, c.
              split; [exact Hu|]. split; [reflexivity|]. split; [exact E4|].
              split; [rewrite Ec; reflexivity|]. split; [exact Eo|].
              intros inv Hin. apply Z.eqb_neq.
              exact (first_select_none _ _ Ei inv Hin).
           ++ intros n' Hid _. injection Hid as <-.
              unfold Db.on_clients. cbn [Db.clients].
              rewrite first_select_deleted. reflexivity.
           ++ intros H. exfalso. apply H. reflexivity.
           ++ intros u' n' c' inv _ Hid _ _ _ Hin Hcl. exfalso.
              injection Hid as <-.
              pose proof (first_select_none _ _ Ei inv Hin) as Hf.
              apply Z.eqb_neq in Hf. contradiction.
           ++ answered n E4.
      * unfold ret in Hrun. injection Hrun as <- <-.
        assert (Hother : forall u', signed_in sessionUserId u' d ->
                   Client.userId c = u' -> False).
        { intros u' Hu' Ho'.
          rewrite (signed_in_unique _ _ _ _ Hu' Hu) in Ho'.
          apply Z.eqb_neq in Eo. contradiction. }
        split; [|split; [|split; [|split]]].
        -- split; [discriminate|].
           intros (u' & n' & c' & Hu' & Hid & _ & Hc' & Ho' & _).
           injection Hid as <-. rewrite Ec in Hc'. injection Hc' as <-.
           exfalso. exact (Hother u' Hu' Ho').
        -- intros n' _ H. discriminate H.
        -- reflexivity.
        -- intros u' n' c' inv Hu' Hid _ Hc' Ho' _ _.
           injection Hid as <-. rewrite Ec in Hc'. injection Hc' as <-.
           exfalso. exact (Hother u' Hu' Ho').
        -- answered n E4.
    + unfold ret in Hrun. injection Hrun as <- <-.
      split; [|split; [|split; [|split]]].
      * split; [discriminate|].
        intros (u' & n' & c' & _ & Hid & _ & Hc' & _).
        injection Hid as <-. rewrite Ec in Hc'. discriminate Hc'.
      * intros n' _ H. discriminate H.
      * reflexivity.
      * intros u' n' c' inv _ Hid _ Hc'.
        injection Hid as <-. rewrite Ec in Hc'. discriminate Hc'.
      * answered n E4.
  - unfold ret in Hrun. injection Hrun as <- <-.
    split; [|split; [|split; [|split]]].
    + split; [discriminate|]. intros (u' & _ & _ & Hu' & _).
      exfalso. exact (Hno u' Hu').
    + intros n' _ H. discriminate H.
    + reflexivity.
    + intros u' n' c' inv Hu'. exfalso. exact (Hno u' Hu').
    + intros u' Hu'. exfalso. exact (Hno u' Hu').
Qed.

(** X21. the handler of [DELETE /api/company-profiles/:id] answers 204 exactly
    when the session names a stored user who owns the profile, the id is an
    [integer] and no invoice uses the profile; the profile is then gone.  On
    every other outcome the store is as it was, and an owner whose profile is
    still used is told so with a 400.  The request of a stored user is
    answered exactly when the id is an [integer]. *)
Theorem delete_company_profile_owner_only (sessionUserId : option Z)
  (profileId : Handlers.parsed) (d : Db.t) :
  let r := fst (Handlers.delete_company_profile sessionUserId profileId d) in
  let d' := snd (Handlers.delete_company_profile sessionUserId profileId d) in
  (r = Ok (Handlers.Empty 204) <->
   exists u n p, signed_in sessionUserId u d
     /\ profileId = Handlers.Int n /\ Pg.int4 n = true
     /\ fst (DatabaseStorage.getCompanyProfile n d) = Ok (Some p)
     /\ CompanyProfile.userId p = u
     /\ forall inv, In inv (Db.invoices d) -> Invoice.companyProfileId inv <> n)
  /\ (forall n, profileId = Handlers.Int n -> r = Ok (Handlers.Empty 204) ->
      fst (DatabaseStorage.getCompanyProfile n d') = Ok None)
  /\ (r <> Ok (Handlers.Empty 204) -> d' = d)
  /\ (forall u n p inv, signed_in sessionUserId u d ->
        profileId = Handlers.Int n -> Pg.int4 n = true ->
        fst (DatabaseStorage.getCompanyProfile n d) = Ok (Some p) ->
        CompanyProfile.userId p = u ->
        In inv (Db.invoices d) -> Invoice.companyProfileId inv = n ->
        r = Ok (Handlers.Json 400
                  "Cannot delete company profile that is used in invoices"))
  /\ (forall u, signed_in sessionUserId u d ->
      ((exists answer, r = Ok answer) <->
       exists n, profileId = Handlers.Int n /\ Pg.int4 n = true)).
Proof.
  cbv zeta.
  destruct (Handlers.delete_company_profile sessionUserId profileId d)
    as [r d'] eqn:Hrun.
  cbn [fst snd].
  unfold Handlers.delete_company_profile, bind, Handlers.with_id in Hrun.
  unfold DatabaseStorage.getCompanyProfile, gets. cbn [fst].
  destruct (authenticate_cases sessionUserId d) as [[u [Hu Hauth]]|[Hno Hauth]];
    rewrite Hauth in Hrun.
  - destruct profileId as [|n]; [unanswered Hrun|].
    destruct (Pg.int4 n) eqn:E4; [|unanswered Hrun].
    unfold DatabaseStorage.getCompanyProfile at 1, gets in Hrun.
    destruct (Table.first (Table.select (fun p => CompanyProfile.id p =? n)
                             (Db.companyProfiles d))) as [p|] eqn:Ep.
    + destruct (CompanyProfile.userId p =? u) eqn:Eo; cbn [negb] in Hrun.
      * apply Z.eqb_eq in Eo.
        unfold Handlers.catch, DatabaseStorage.deleteCompanyProfile, bind,
          DatabaseStorage.getCompanyProfile, gets, modify, ret, throw, when in Hrun.
        rewrite Ep, first_limit_1 in Hrun.
        destruct (Table.first (Table.select
                    (fun i => Invoice.companyProfileId i =? n)
                    (Db.invoices d))) as [inv|] eqn:Ei.
        -- apply first_select_some in Ei as [Hiin Hicl]. apply Z.eqb_eq in Hicl.
           injection Hrun as <- <-.
           split; [|split; [|split; [|split]]].
           ++ split; [discriminate|].
              intros (_ & n' & _ & _ & Hid & _ & _ & _ & Hfree).
              injection Hid as <-. exfalso. exact (Hfree inv Hiin Hicl).
           ++ intros n' _ H. discriminate H.
           ++ reflexivity.
           ++ reflexivity.
           ++ answered n E4.
        -- assert (Hr : r = Ok (Handlers.Empty 204)
                        /\ exists rows,
                             Db.companyProfiles d'
                             = Table.delete_where
                                 (fun q => CompanyProfile.id q =? n) rows).
           { destruct (CompanyProfile.is_default p).
             - destruct (firstn 1 _) as [|other rest] in Hrun;
                 injection Hrun as <- <-; (split; [reflexivity|]);
                 eexists; reflexivity.
             - injection Hrun as <- <-. split; [reflexivity|].
               eexists; reflexivity. }
           clear Hrun. destruct Hr as [-> [rows Hrows]].
           split; [|split; [|split; [|split]]].
           ++ split; [|reflexivity]. intros _. exists u, n, p.
              split; [exact Hu|]. split; [reflexivity|]. split; [exact E4|].
              split; [rewrite Ep; reflexivity|]. split; [exact Eo|].
              intros inv Hin. apply Z.eqb_neq.
              exact (first_select_none _ _ Ei inv Hin).
           ++ intros n' Hid _. injection Hid as <-.
              rewrite Hrows, first_select_deleted. reflexivity.
           ++ intros H. exfalso. apply H. reflexivity.
           ++ intros u' n' c' inv _ Hid _ _ _ Hin Hcl. exfalso.
              injection Hid as <-.
              pose proof (first_select_none _ _ Ei inv Hin) as Hf.
              apply Z.eqb_neq in Hf. contradiction.
           ++ answered n E4.
      * unfold ret in Hrun. injection Hrun as <- <-.
        assert (Hother : forall u', signed_in sessionUserId u' d ->
                   CompanyProfile.userId p = u' -> False).
        { intros u' Hu' Ho'.
          rewrite (signed_in_unique _ _ _ _ Hu' Hu) in Ho'.
          apply Z.eqb_neq in Eo. contradiction. }
        split; [|split; [|split; [|split]]].
        -- split; [discriminate|].
           intros (u' & n' & p' & Hu' & Hid & _ & Hp' & Ho' & _).
           injection Hid as <-. rewrite Ep in Hp'. injection Hp' as <-.
           exfalso. exact (Hother u' Hu' Ho').
        -- intros n' _ H. discriminate H.
        -- reflexivity.
        -- intros u' n' p' inv Hu' Hid _ Hp' Ho' _ _.
           injection Hid as <-. rewrite Ep in Hp'. injection Hp' as <-.
           exfalso. exact (Hother u' Hu' Ho').
        -- answered n E4.
    + unfold ret in Hrun. injection Hrun as <- <-.
      split; [|split; [|split; [|split]]].
      * split; [discriminate|].
        intros (u' & n' & p' & _ & Hid & _ & Hp' & _).
        injection Hid as <-. rewrite Ep in Hp'. discriminate Hp'.
      * intros n' _ H. discriminate H.
      * reflexivity.
      * intros u' n' p' inv _ Hid _ Hp'.
        injection Hid as <-. rewrite Ep in Hp'. discriminate Hp'.
      * answered n E4.
  - unfold ret in Hrun. injection Hrun as <- <-.
    split; [|split; [|split; [|split]]].
    + split; [discriminate|]. intros (u' & _ & _ & Hu' & _).
      exfalso. exact (Hno u' Hu').
    + intros n' _ H. discriminate H.
    + reflexivity.
    + intros u' n' p' inv Hu'. exfalso. exact (Hno u' Hu').
    + intros u' Hu'. exfalso. exact (Hno u' Hu').
Qed.



(** ** Quotation items *)






(** X25. [deleteQuotationItem] on an item whose quotation is not stored
    throws, but only after the item was removed: the store has lost the item
    although the call failed. *)
Theorem deleteQuotationItem_without_quotation (now id : Z) (d : Db.t)
  (existing : QuotationItem.t) :
  quotation_item id d = Some existing ->
  fst (QuotationStorage.getQuotation (QuotationItem.quotationId existing) d)
  = Ok None ->
  fst (QuotationStorage.deleteQuotationItem now id d) = Throw "Quotation not found"
  /\ quotation_item id (snd (QuotationStorage.deleteQuotationItem now id d)) = None
  /\ Db.quotations (snd (QuotationStorage.deleteQuotationItem now id d))
     = Db.quotations d.
Proof.
  intros Hex Hparent.
  assert (Hrun : QuotationStorage.deleteQuotationItem now id d
                 = (Throw "Quotation not found",
                    Db.on_quotationItems
                      (Table.delete_where (fun it => QuotationItem.id it =? id)) d)).
  { unfold quotation_item in Hex.
    unfold QuotationStorage.deleteQuotationItem,
      QuotationStorage.recalculateQuotationTotals,
      QuotationStorage.getQuotationItems, QuotationStorage.getQuotation,
      bind, gets, modify, throw in *.
    cbn [fst] in Hparent. injection Hparent as Hparent.
    rewrite Hex.
    change (Db.quotations
              (Db.on_quotationItems
                 (Table.delete_where (fun it => QuotationItem.id it =? id)) d))
      with (Db.quotations d).
    rewrite Hparent. reflexivity. }
  rewrite Hrun. cbn [fst snd]. split; [reflexivity|]. split; [|reflexivity].
  unfold quotation_item, Db.on_quotationItems. cbn [Db.quotationItems].
  apply first_select_deleted.
Qed.

Lemma deleteQuotationItem_without_quotation_witness :
  fst (QuotationStorage.deleteQuotationItem 0 1 orphan_quotation_item_db)
  = Throw "Quotation not found"
  /\ quotation_item 1
       (snd (QuotationStorage.deleteQuotationItem 0 1 orphan_quotation_item_db))
     = None
  /\ Db.quotations
       (snd (QuotationStorage.deleteQuotationItem 0 1 orphan_quotation_item_db))
     = Db.quotations orphan_quotation_item_db.
Proof.
  apply (deleteQuotationItem_without_quotation 0 1 orphan_quotation_item_db
           (QuotationItem.mk 1 5 None (JS.Str 1) (JS.Str 200) None (JS.Str 200)));
    reflexivity.
Defined.

(** X26. [createInvoiceItem] of [DatabaseStorage] for an invoice that is
    not stored is refused: the call throws, and no item and no invoice is
    written. *)
Theorem createInvoiceItem_without_invoice (now : Z) (item : InvoiceItem.insert)
  (d : Db.t) :
  Db.has_invoice (InvoiceItem.i_invoiceId item) d = false ->
  (exists code, fst (DatabaseStorage.createInvoiceItem now item d) = Throw code)
  /\ Db.invoiceItems (snd (DatabaseStorage.createInvoiceItem now item d))
     = Db.invoiceItems d
  /\ Db.invoices (snd (DatabaseStorage.createInvoiceItem now item d))
     = Db.invoices d.
Proof.
  intros Hmissing.
  unfold DatabaseStorage.createInvoiceItem, bind, Db.insert_invoiceItem.
  rewrite Hmissing. cbn [fst snd Db.invoiceItems Db.invoices].
  split; [eexists; reflexivity|]. split; reflexivity.
Qed.

Lemma createInvoiceItem_without_invoice_witness :
  (exists code,
     fst (DatabaseStorage.createInvoiceItem 0 stray_item one_invoice_db) = Throw code)
  /\ Db.invoiceItems (snd (DatabaseStorage.createInvoiceItem 0 stray_item one_invoice_db))
     = Db.invoiceItems one_invoice_db
  /\ Db.invoices (snd (DatabaseStorage.createInvoiceItem 0 stray_item one_invoice_db))
     = Db.invoices one_invoice_db.
Proof.
  apply (createInvoiceItem_without_invoice 0 stray_item one_invoice_db).
  reflexivity.
Defined.

(** ** The in-memory store: missing invoices, cascades and cents *)

(** X27. [MemStorage.createInvoiceItem] for an invoice that is not stored
    throws, but only after the item was filed and the id counter advanced: the
    failed call leaves an item without an invoice behind. *)
Theorem mem_createInvoiceItem_without_invoice (now : Z) (item : InvoiceItem.insert)
  (s : Mem.t) :
  fst (MemStorage.getInvoice (InvoiceItem.i_invoiceId item) s) = Ok None ->
  let s' := snd (MemStorage.createInvoiceItem now item s) in
  fst (MemStorage.createInvoiceItem now item s)
  = Throw ("Invoice with ID " ++ show (InvoiceItem.i_invoiceId item) ++ " not found")
  /\ (exists stored,
        JsMap.get (Mem.currentInvoiceItemId s) (Mem.invoiceItems s') = Some stored
        /\ InvoiceItem.id stored = Mem.currentInvoiceItemId s
        /\ InvoiceItem.invoiceId stored = InvoiceItem.i_invoiceId item)
  /\ Mem.currentInvoiceItemId s' = Mem.currentInvoiceItemId s + 1
  /\ Mem.invoices s' = Mem.invoices s.
Proof.
  intros Hinv. cbv zeta.
  unfold MemStorage.createInvoiceItem, MemStorage.recalculateInvoiceTotals,
    MemStorage.getInvoice, Mem.next_invoiceItemId, bind, gets, modify, throw, ret in *.
  cbn [fst] in Hinv. injection Hinv as Hinv.
  unfold Mem.on_invoiceItems. cbn [Mem.invoices Mem.invoiceItems fst snd].
  rewrite Hinv. cbn [fst snd Mem.invoices Mem.invoiceItems Mem.currentInvoiceItemId].
  split; [reflexivity|]. split; [|split; reflexivity].
  eexists. split; [apply JsMap_get_set|]. split; reflexivity.
Qed.

Lemma mem_createInvoiceItem_without_invoice_witness :
  fst (MemStorage.createInvoiceItem 0 stray_item two_invoices_mem)
  = Throw ("Invoice with ID " ++ show 5 ++ " not found")
  /\ (exists stored,
        JsMap.get 4
          (Mem.invoiceItems (snd (MemStorage.createInvoiceItem 0 stray_item
                                    two_invoices_mem)))
        = Some stored
        /\ InvoiceItem.id stored = 4
        /\ InvoiceItem.invoiceId stored = 5)
  /\ Mem.currentInvoiceItemId
       (snd (MemStorage.createInvoiceItem 0 stray_item two_invoices_mem)) = 4 + 1
  /\ Mem.invoices (snd (MemStorage.createInvoiceItem 0 stray_item two_invoices_mem))
     = Mem.invoices two_invoices_mem.
Proof.
  apply (mem_createInvoiceItem_without_invoice 0 stray_item two_invoices_mem).
  reflexivity.
Defined.

Section JsMapDelete.
Context {V : Type}.

Lemma JsMap_get_delete (k : Z) (m : JsMap.t V) :
  JsMap.get k (JsMap.delete k m) = None.
Proof.
  unfold JsMap.get, JsMap.delete.
  induction m as [|[k' v'] rest IH]; [reflexivity|].
  cbn [filter fst]. destruct (k' =? k) eqn:E; cbn [negb]; [exact IH|].
  cbn [find fst]. rewrite E. exact IH.
Qed.

(** Deleting the keys of a list one after another keeps the entries whose
    key is not among them. *)
Lemma JsMap_delete_all (key : V -> Z) (l : list V) (m : JsMap.t V) :
  fold_left (fun m x => JsMap.delete (key x) m) l m
  = filter (fun e => negb (existsb (fun x => fst e =? key x) l)) m.
Proof.
  revert m. induction l as [|x l IH]; intros m.
  - cbn. induction m as [|e m IHm]; [reflexivity|]. cbn. f_equal. exact IHm.
  - cbn [fold_left]. rewrite IH. unfold JsMap.delete.
    induction m as [|e m IHm]; [reflexivity|].
    cbn [filter existsb]. destruct (fst e =? key x); cbn [negb orb].
    + exact IHm.
    + cbn [filter]. destruct (negb (existsb (fun x0 => fst e =? key x0) l));
        [f_equal|]; exact IHm.
Qed.

Lemma values_filter (P : V -> bool) (m : JsMap.t V) :
  JsMap.values (filter (fun e => P (snd e)) m) = filter P (JsMap.values m).
Proof.
  unfold JsMap.values. induction m as [|e m IH]; [reflexivity|].
  cbn [filter map]. destruct (P (snd e)); cbn [map]; [f_equal|]; exact IH.
Qed.

End JsMapDelete.

Lemma filter_after_filter {A : Type} (P Q : A -> bool) (l : list A) :
  filter Q (filter P l) = filter (fun x => P x && Q x) l.
Proof.
  induction l as [|x l IH]; [reflexivity|].
  cbn [filter]. destruct (P x); cbn [filter andb]; [|exact IH].
  destruct (Q x); [f_equal|]; exact IH.
Qed.

(** With the items filed under their own ids, the entries that
    [deleteInvoice] removes are those of the invoice. *)
Lemma mem_cascade_entries (id : Z) (m : JsMap.t InvoiceItem.t) :
  NoDup (map fst m) ->
  Forall (fun e => InvoiceItem.id (snd e) = fst e) m ->
  fold_left (fun m item => JsMap.delete (InvoiceItem.id item) m)
    (filter (fun item => InvoiceItem.invoiceId item =? id) (JsMap.values m)) m
  = filter (fun e => negb (InvoiceItem.invoiceId (snd e) =? id)) m.
Proof.
  intros Hnd Hkeyed. rewrite JsMap_delete_all.
  apply filter_ext_in. intros e He. f_equal.
  rewrite Forall_forall in Hkeyed.
  destruct (InvoiceItem.invoiceId (snd e) =? id) eqn:E.
  - apply existsb_exists. exists (snd e). split.
    + apply filter_In. split; [|exact E].
      unfold JsMap.values. apply in_map. exact He.
    + rewrite (Hkeyed e He). apply Z.eqb_refl.
  - destruct (existsb _ _) eqn:Ex; [|reflexivity].
    apply existsb_exists in Ex as [x [Hx Hk]].
    apply filter_In in Hx as [Hx Hxid]. unfold JsMap.values in Hx.
    apply in_map_iff in Hx as [e' [<- He']]. apply Z.eqb_eq in Hk.
    rewrite (Hkeyed e' He') in Hk.
    assert (e = e') by (apply (same_key_same_row fst m); assumption).
    subst e'. congruence.
Qed.

(** X28. [MemStorage.deleteInvoice] on a stored invoice, in a store whose
    items are filed under their own ids, succeeds and removes the invoice
    together with exactly its items: the items of every other invoice stay as
    they were. *)
Theorem mem_deleteInvoice_cascades (id : Z) (s : Mem.t) (inv : Invoice.t) :
  mem_items_keyed s ->
  fst (MemStorage.getInvoice id s) = Ok (Some inv) ->
  exists s',
    MemStorage.deleteInvoice id s = (Ok tt, s')
    /\ fst (MemStorage.getInvoice id s') = Ok None
    /\ fst (MemStorage.getInvoiceItems id s') = Ok []
    /\ (forall other, other <> id ->
          fst (MemStorage.getInvoiceItems other s')
          = fst (MemStorage.getInvoiceItems other s))
    /\ mem_items_keyed s'.
Proof.
  intros [Hnd Hkeyed] Hinv.
  unfold MemStorage.deleteInvoice, MemStorage.getInvoice, MemStorage.getInvoiceItems,
    bind, gets, modify in *.
  cbn [fst] in Hinv. injection Hinv as Hinv. rewrite Hinv.
  eexists. split; [reflexivity|].
  unfold Mem.on_invoices, Mem.on_invoiceItems.
  cbn [fst Mem.invoices Mem.invoiceItems].
  rewrite (mem_cascade_entries id _ Hnd Hkeyed).
  rewrite (values_filter (fun it => negb (InvoiceItem.invoiceId it =? id))).
  split; [rewrite JsMap_get_delete; reflexivity|]. split; [|split].
  - f_equal. rewrite filter_after_filter.
    induction (JsMap.values (Mem.invoiceItems s)) as [|x l IH]; [reflexivity|].
    cbn [filter]. rewrite andb_negb_l. exact IH.
  - intros other Hne. f_equal. rewrite filter_after_filter.
    apply filter_ext. intros x.
    destruct (InvoiceItem.invoiceId x =? other) eqn:E; [|apply andb_false_r].
    apply Z.eqb_eq in E. rewrite andb_true_r. apply negb_true_iff.
    apply Z.eqb_neq. congruence.
  - split.
    + cbn [Mem.invoiceItems].
      clear Hkeyed. induction (Mem.invoiceItems s) as [|e m IH]; [constructor|].
      cbn [map] in Hnd. inversion Hnd as [|? ? Hx Hm]; subst.
      cbn [filter]. destruct (negb _); [|exact (IH Hm)].
      cbn [map]. constructor; [|exact (IH Hm)].
      intros Hin. apply Hx. apply in_map_iff in Hin as [e' [He' Hin]].
      apply filter_In in Hin as [Hin _]. rewrite <- He'. apply in_map. exact Hin.
    + cbn [Mem.invoiceItems]. rewrite Forall_forall in *.
      intros e He. apply filter_In in He as [He _]. apply Hkeyed. exact He.
Qed.

Lemma two_invoices_mem_keyed : mem_items_keyed two_invoices_mem.
Proof.
  split.
  - cbn. repeat constructor; cbn; intuition discriminate.
  - cbn. repeat constructor.
Qed.

Lemma mem_deleteInvoice_cascades_witness :
  exists s',
    MemStorage.deleteInvoice 1 two_invoices_mem = (Ok tt, s')
    /\ fst (MemStorage.getInvoice 1 s') = Ok None
    /\ fst (MemStorage.getInvoiceItems 1 s') = Ok []
    /\ (forall other, other <> 1 ->
          fst (MemStorage.getInvoiceItems other s')
          = fst (MemStorage.getInvoiceItems other two_invoices_mem))
    /\ mem_items_keyed s'.
Proof.
  apply (mem_deleteInvoice_cascades 1 two_invoices_mem unrated_invoice).
  - exact two_invoices_mem_keyed.
  - reflexivity.
Defined.

Lemma mem_recalculate_to_the_cent (now invoiceId : Z) (s : Mem.t) (inv : Invoice.t) :
  fst (MemStorage.getInvoice invoiceId s) = Ok (Some inv) ->
  exists s' inv',
    MemStorage.recalculateInvoiceTotals now invoiceId s = (Ok tt, s')
    /\ Mem.invoiceItems s' = Mem.invoiceItems s
    /\ fst (MemStorage.getInvoice invoiceId s') = Ok (Some inv')
    /\ Invoice.discount inv' = Invoice.discount inv
    /\ mem_totals_to_the_cent invoiceId s' inv'.
Proof.
  intros Hinv.
  destruct (mem_recalculateInvoiceTotals_spec now invoiceId s inv Hinv)
    as (s' & Hrun & Hitems & Hrates & Hget).
  eexists. eexists. split; [exact Hrun|]. split; [exact Hitems|].
  split; [exact Hget|]. split; [reflexivity|].
  unfold mem_totals_to_the_cent, mem_items_of, mem_default_rate.
  rewrite Hitems, Hrates.
  cbn [Invoice.set_totals_rate Invoice.subtotal Invoice.tax Invoice.total
       Invoice.discount Invoice.country].
  split; [apply toFixed2_near|]. split; [|apply toFixed2_near].
  eexists. split; [reflexivity|]. apply toFixed2_near.
Qed.

(** X29. after an item is created, updated or deleted in the in-memory store,
    for an invoice that is stored, the call has succeeded and the invoice's
    subtotal, tax and total are whole cents, each within half a cent of the
    value computed from the items now filed, the unchanged invoice discount
    and the default rate of the invoice's country. *)
Theorem mem_totals_after_item_change (now : Z) (op : item_op) (s : Mem.t)
  (invoiceId : Z) (inv : Invoice.t) :
  mem_recomputed_invoice op s = Some invoiceId ->
  fst (MemStorage.getInvoice invoiceId s) = Ok (Some inv) ->
  exists s' inv',
    mem_run_item_op now op s = (Ok tt, s')
    /\ fst (MemStorage.getInvoice invoiceId s') = Ok (Some inv')
    /\ Invoice.discount inv' = Invoice.discount inv
    /\ mem_totals_to_the_cent invoiceId s' inv'.
Proof.
  destruct op as [item|id item|id];
    cbn [mem_recomputed_invoice mem_run_item_op]; intros Hop Hinv.
  - injection Hop as <-.
    unfold MemStorage.createInvoiceItem, Mem.next_invoiceItemId, bind, modify, ret.
    match goal with
    | |- context [MemStorage.recalculateInvoiceTotals ?n ?i ?m] =>
      destruct (mem_recalculate_to_the_cent n i m inv Hinv)
        as (s' & inv' & Hrun & _ & Hget & Hdisc & Hcent)
    end.
    rewrite Hrun. exists s', inv'.
    split; [reflexivity|]. split; [exact Hget|]. split; [exact Hdisc|exact Hcent].
  - unfold MemStorage.updateInvoiceItem, bind, gets, modify, ret.
    destruct (find (fun i => InvoiceItem.id i =? id)
                (JsMap.values (Mem.invoiceItems s))) as [existing|];
      [|discriminate Hop].
    injection Hop as <-.
    match goal with
    | |- context [MemStorage.recalculateInvoiceTotals ?n ?i ?m] =>
      destruct (mem_recalculate_to_the_cent n i m inv Hinv)
        as (s' & inv' & Hrun & _ & Hget & Hdisc & Hcent)
    end.
    rewrite Hrun. exists s', inv'.
    split; [reflexivity|]. split; [exact Hget|]. split; [exact Hdisc|exact Hcent].
  - unfold MemStorage.deleteInvoiceItem, bind, gets, modify.
    destruct (find (fun i => InvoiceItem.id i =? id)
                (JsMap.values (Mem.invoiceItems s))) as [existing|];
      [|discriminate Hop].
    injection Hop as <-.
    match goal with
    | |- context [MemStorage.recalculateInvoiceTotals ?n ?i ?m] =>
      destruct (mem_recalculate_to_the_cent n i m inv Hinv)
        as (s' & inv' & Hrun & _ & Hget & Hdisc & Hcent)
    end.
    rewrite Hrun. exists s', inv'.
    split; [reflexivity|]. split; [exact Hget|]. split; [exact Hdisc|exact Hcent].
Qed.

Lemma mem_totals_after_item_change_witness :
  exists s' inv',
    mem_run_item_op 1 (CreateItem third_of_a_unit) two_invoices_mem = (Ok tt, s')
    /\ fst (MemStorage.getInvoice 1 s') = Ok (Some inv')
    /\ Invoice.discount inv' = Invoice.discount unrated_invoice
    /\ mem_totals_to_the_cent 1 s' inv'.
Proof.
  apply (mem_totals_after_item_change 1 (CreateItem third_of_a_unit)
           two_invoices_mem 1 unrated_invoice); reflexivity.
Defined.
